(** * Fractal: the escape-time renderer of src/main.cpp

    A shallow embedding of the renderer (colorize, iterate, can_skip,
    createFractal and the configuration part of main) together with the
    properties its specification states about it.

    Numbers.  The program computes on [kompleks_type] (long double) and on
    [kompleks], both declared in kompleks.hpp, which is not part of the
    sources at hand.  The scalar operations and the operators of [kompleks]
    are therefore an interface ([KompleksType], [KompleksOps]); the program
    is written once over the interface and every general theorem holds for
    every implementation of it.  [XQ] is one implementation: exact rational
    arithmetic extended by the two infinities and NaN.  It is used to run the
    program on inputs whose arithmetic is exact.

    Integers.  The unsigned counters are integers reduced modulo a power of
    two where the source can wrap (LP64 widths: uint_fast64_t, uint_fast32_t
    and uint_fast16_t are 64 bits wide, uint_fast8_t and uint8_t 8 bits). *)

From Stdlib Require Import ZArith QArith Qabs Qround List String Bool Lia.
From Stdlib Require Import Decimal DecimalString.
Import ListNotations.

Local Open Scope Z_scope.

(** ** Results of fallible code *)

(** A call returns a value ([Val]), leaves by
    [throw std::runtime_error(msg)] ([Exn msg]), or runs a [while] loop
    longer than the fuel it was given ([Fuel]). *)
Inductive Exc (A : Type) : Type :=
  | Val (a : A)
  | Exn (msg : string)
  | Fuel.
Arguments Val {A} a.
Arguments Exn {A} msg.
Arguments Fuel {A}.

Definition throw {A : Type} (msg : string) : Exc A := Exn msg.
Definition ret {A : Type} (a : A) : Exc A := Val a.
Definition bind {A B : Type} (m : Exc A) (f : A -> Exc B) : Exc B :=
  match m with
  | Val a => f a
  | Exn e => Exn e
  | Fuel => Fuel
  end.

Declare Scope exc_scope.
Delimit Scope exc_scope with exc.
Notation "x <- m ;; k" := (bind m (fun x => k))
  (at level 61, m at next level, right associativity) : exc_scope.

(** ** Machine integers *)

Definition wrap (bits : Z) (z : Z) : Z := z mod 2 ^ bits.

Definition u8 (z : Z) : Z := wrap 8 z.
Definition u32 (z : Z) : Z := wrap 32 z.
Definition u64 (z : Z) : Z := wrap 64 z.

(** Conversion of an out-of-range value to a signed 128 bit integer. *)
Definition i128 (z : Z) : Z := wrap 128 (z + 2 ^ 127) - 2 ^ 127.

Definition UINT_FAST64_MAX : Z := 2 ^ 64 - 1.
Definition INT128_MAX : Z := 2 ^ 127 - 1.

(** [std::to_string] of an unsigned number. *)
Definition to_string (n : nat) : string :=
  NilEmpty.string_of_uint (Nat.to_uint n).

(** [n << k] and [n >> k] on uint_fast64_t. *)
Definition shl64 (n k : Z) : Z := u64 (Z.shiftl n k).
Definition shr64 (n k : Z) : Z := Z.shiftr n k.

(** ** The numeric interface (kompleks.hpp) *)

(** Modelled from the spec: kompleks.hpp is not under src/.  [kompleks_type]
    is the extended-precision floating type of the components; the fields are
    the operations main.cpp applies to it.  [lit q] is the value of the
    literal, or of the integer conversion, whose exact value is [q];
    [to_int x] is the integer a conversion of [x] to an integer type starts
    from (the narrowing to the target width is written at each cast). *)
Class KompleksType : Type := {
  kompleks_type : Type;
  lit : Q -> kompleks_type;
  INF : kompleks_type;
  ld_add : kompleks_type -> kompleks_type -> kompleks_type;
  ld_sub : kompleks_type -> kompleks_type -> kompleks_type;
  ld_mul : kompleks_type -> kompleks_type -> kompleks_type;
  ld_div : kompleks_type -> kompleks_type -> kompleks_type;
  ld_neg : kompleks_type -> kompleks_type;
  ld_ltb : kompleks_type -> kompleks_type -> bool;
  ld_leb : kompleks_type -> kompleks_type -> bool;
  ld_eqb : kompleks_type -> kompleks_type -> bool;
  ld_abs : kompleks_type -> kompleks_type;
  ld_pow : kompleks_type -> kompleks_type -> kompleks_type;
  ld_log : kompleks_type -> kompleks_type;
  ld_sin : kompleks_type -> kompleks_type;
  ld_cos : kompleks_type -> kompleks_type;
  ld_round : kompleks_type -> kompleks_type;
  to_int : kompleks_type -> Z
}.

Declare Scope ld_scope.
Delimit Scope ld_scope with ld.
Bind Scope ld_scope with kompleks_type.
Infix "+" := ld_add : ld_scope.
Infix "-" := ld_sub : ld_scope.
Infix "*" := ld_mul : ld_scope.
Infix "/" := ld_div : ld_scope.
Infix "<?" := ld_ltb : ld_scope.
Infix "<=?" := ld_leb : ld_scope.
Infix "=?" := ld_eqb : ld_scope.
Notation "x >? y" := (ld_ltb y x) : ld_scope.
Notation "x >=? y" := (ld_leb y x) : ld_scope.

(** An integer converted to [kompleks_type]. *)
Definition of_Z `{KompleksType} (z : Z) : kompleks_type := lit (inject_Z z).

(** The struct: main.cpp reads and writes [real] and [imag] directly and
    builds values with [kompleks(x, y)]. *)
Record kompleks `{KompleksType} : Type := mk_kompleks {
  real : kompleks_type;
  imag : kompleks_type
}.
Arguments mk_kompleks {_} _ _.
Arguments real {_} _.
Arguments imag {_} _.

(** Modelled from the spec: the default constructor of kompleks
    (kompleks.hpp is not under src/); the orbit value is initialised to zero
    by [kompleks Z;]. *)
Definition kompleks_zero `{KompleksType} : kompleks :=
  mk_kompleks (lit 0%Q) (lit 0%Q).

(** Modelled from the spec: the member functions and operators of kompleks
    that main.cpp uses (kompleks.hpp is not under src/), taken as they are
    named there: add, subtract, multiply, divide, the power with a real
    exponent, squared norm, modulus, component swap, conjugate, reciprocal
    and equality, the mixed forms with a scalar operand, the complex cosine
    and std::pow on std::complex. *)
Class KompleksOps `{KompleksType} : Type := {
  k_add : kompleks -> kompleks -> kompleks;
  k_sub : kompleks -> kompleks -> kompleks;
  k_mul : kompleks -> kompleks -> kompleks;
  k_div : kompleks -> kompleks -> kompleks;
  k_pow : kompleks -> kompleks_type -> kompleks;
  k_norm : kompleks -> kompleks_type;
  k_abs : kompleks -> kompleks_type;
  k_swap_xy : kompleks -> kompleks;
  k_conjugate : kompleks -> kompleks;
  k_reciprocal : kompleks -> kompleks;
  k_eqb : kompleks -> kompleks -> bool;
  k_sub_s : kompleks -> kompleks_type -> kompleks;
  k_mul_s : kompleks -> kompleks_type -> kompleks;
  k_div_s : kompleks -> kompleks_type -> kompleks;
  s_add_k : kompleks_type -> kompleks -> kompleks;
  s_mul_k : kompleks_type -> kompleks -> kompleks;
  k_cos : kompleks -> kompleks;
  std_pow : kompleks -> kompleks -> kompleks
}.

(** ** Fractal types *)

Inductive FractalType : Type :=
  | mandelbrot | julia | burning_ship | tricorn | neuron | clouds | oops
  | stupidbrot | untitled1 | dots | magnet1 | experiment | mandelbox
  | negamandelbrot | collatz | experiment2.

Definition FractalType_values : list FractalType :=
  [mandelbrot; julia; burning_ship; tricorn; neuron; clouds; oops;
   stupidbrot; untitled1; dots; magnet1; experiment; mandelbox;
   negamandelbrot; collatz; experiment2].

Definition FractalType_strings : list string :=
  ["mandelbrot"; "julia"; "burning ship"; "tricorn"; "neuron"; "clouds";
   "oops"; "stupidbrot"; "untitled 1"; "dots"; "magnet 1"; "experiment";
   "mandelbox"; "negamandelbrot"; "collatz"; "experiment2"]%string.

Definition FractalType_count : nat := List.length FractalType_strings.

Definition FractalType_eqb (a b : FractalType) : bool :=
  match a, b with
  | mandelbrot, mandelbrot | julia, julia | burning_ship, burning_ship
  | tricorn, tricorn | neuron, neuron | clouds, clouds | oops, oops
  | stupidbrot, stupidbrot | untitled1, untitled1 | dots, dots
  | magnet1, magnet1 | experiment, experiment | mandelbox, mandelbox
  | negamandelbrot, negamandelbrot | collatz, collatz
  | experiment2, experiment2 => true
  | _, _ => false
  end.

(** The loop of [string_to_fractal_type]: [i] runs over the table, the
    first equal name gives [static_cast<FractalType>(i)]. *)
Fixpoint find_type (typestr : string) (names : list string)
    (values : list FractalType) : option FractalType :=
  match names, values with
  | name :: names', v :: values' =>
      if String.eqb typestr name then Some v
      else find_type typestr names' values'
  | _, _ => None
  end.

Definition string_to_fractal_type (typestr : string) : Exc FractalType :=
  match find_type typestr FractalType_strings FractalType_values with
  | Some t => ret t
  | None => throw ("Unknown fractal type: " ++ typestr)
  end.

(** ** Options (the global structs) *)

Record FractalOptions `{KompleksType} : Type := {
  type : FractalType;
  exponent : kompleks_type;
  escape_limit : kompleks_type;
  single : bool;
  lbound : kompleks_type;
  rbound : kompleks_type;
  bbound : kompleks_type;
  ubound : kompleks_type;
  juliaA : kompleks_type;
  juliaB : kompleks_type
}.

Record ColorOptions `{KompleksType} : Type := {
  method : Z;
  smooth : bool;
  disable_fancy : bool;
  multiplier : kompleks_type;
  c_log : nat
}.

Record rgb_pixel : Type := mk_pixel {
  red : Z;
  green : Z;
  blue : Z
}.

Definition channels `{KompleksType} : Type :=
  (kompleks_type * kompleks_type * kompleks_type)%type.

(** ** HSV2RGB and colorize *)

Section Colorize.
Context {KT : KompleksType} {KO : KompleksOps}.
Variable fractal_opt : FractalOptions.
Variable color_opt : ColorOptions.

Local Open Scope ld_scope.

(** [while(h < 0) h += 1;] *)
Fixpoint hsv_wrap_up (fuel : nat) (h : kompleks_type) : Exc kompleks_type :=
  match fuel with
  | O => if h <? of_Z 0 then Fuel else ret h
  | S fuel' => if h <? of_Z 0 then hsv_wrap_up fuel' (h + of_Z 1) else ret h
  end.

(** [while(h >= 1) h -= 1;] *)
Fixpoint hsv_wrap_down (fuel : nat) (h : kompleks_type) : Exc kompleks_type :=
  match fuel with
  | O => if h >=? of_Z 1 then Fuel else ret h
  | S fuel' =>
      if h >=? of_Z 1 then hsv_wrap_down fuel' (h - of_Z 1) else ret h
  end.

(** [static_cast<uint_fast8_t>(x)] *)
Definition kast (x : kompleks_type) : Z := u8 (to_int x).

Definition HSV2RGB (fuel : nat) (h s v : kompleks_type) : Exc (Z * Z * Z) :=
  (h1 <- hsv_wrap_up fuel h ;;
   h2 <- hsv_wrap_down fuel h1 ;;
   let h3 := h2 * of_Z 6 in
   let index := u8 (to_int h3) in
   let f := h3 - of_Z index in
   let p := (v * (of_Z 1 - s)) * of_Z 255 in
   let q := (v * (of_Z 1 - s * f)) * of_Z 255 in
   let t := (v * (of_Z 1 - s * (of_Z 1 - f))) * of_Z 255 in
   let v' := v * of_Z 255 in
   match index with
   | 0%Z => ret (kast v', kast t, kast p)
   | 1%Z => ret (kast q, kast v', kast p)
   | 2%Z => ret (kast p, kast v', kast t)
   | 3%Z => ret (kast p, kast q, kast v')
   | 4%Z => ret (kast t, kast p, kast v')
   | 5%Z => ret (kast v', kast p, kast q)
   | _ =>
       throw ("index must be in range [0, 5], but is "
              ++ to_string (Z.to_nat index))
   end)%exc.

(** [static_cast<uint_fast64_t>(std::round(x))].  For a value of 2^64 or
    more the language leaves the conversion undefined; the code that
    compilers emit for it on x86-64 gives 0 there. *)
Definition round_u64 (x : kompleks_type) : Z :=
  let z := to_int (ld_round x) in
  if (2 ^ 64 <=? z)%Z then 0%Z else u64 z.

(** The fractional iteration count of methods 0 and 1. *)
Definition smooth_dx (Zv : kompleks) : kompleks_type :=
  (ld_log (ld_log (escape_limit fractal_opt)) - ld_log (ld_log (k_abs Zv)))
  / ld_log (exponent fractal_opt).

(** [x -= (s > x ? x : s)] with [s] an unsigned integer. *)
Definition sub_capped (x : kompleks_type) (s : Z) : kompleks_type :=
  x - (if of_Z s >? x then x else of_Z s).

(** [if(x > 255) x = 255;] *)
Definition cap255 (x : kompleks_type) : kompleks_type :=
  if x >? of_Z 255 then of_Z 255 else x.

(** The values [rand()] returns after [srand(seed)]: the libc generator,
    of which only the first three draws after a reseed are used. *)
Variable rand_after_srand : Z -> nat -> Z.

(** The [switch] of [colorize]: the unclamped channels of each method.
    [fractal] is the pixel [colorize(0, Z, c, n)] returned to method 9. *)
Definition method_channels (fuel : nat) (fractal : Exc rgb_pixel)
    (color_method : Z) (Zv c : kompleks) (n : Z) : Exc channels :=
  let Zr2 := real Zv * real Zv in
  let Zi2 := imag Zv * imag Zv in
  match color_method with
  | 0%Z =>
      if smooth color_opt then
        let nprime := of_Z n + smooth_dx Zv in
        ret (ld_round (nprime * of_Z 2), ld_round nprime,
             ld_round (nprime / of_Z 2))
      else ret (of_Z (shl64 n 1), of_Z n, of_Z (shr64 n 1))
  | 1%Z =>
      let red0 := if negb (disable_fancy color_opt) then Zr2 else of_Z 0 in
      let blue0 := if negb (disable_fancy color_opt) then Zi2 else of_Z 0 in
      let green0 :=
        if smooth color_opt then ld_round (of_Z n + smooth_dx Zv)
        else of_Z n in
      if green0 >? of_Z 255 then
        let difference := green0 - of_Z 255 in
        let blue1 := difference * of_Z 2 in
        if blue1 >? of_Z 255 then ret (blue1 * of_Z 2, of_Z 200, of_Z 200)
        else ret (red0, of_Z 255, blue1)
      else ret (red0, green0, blue0)
  | 2%Z =>
      ret (Zr2 * Zi2, Zr2 + Zi2,
           if Zi2 =? of_Z 0 then INF else Zr2 / Zi2)
  | 3%Z =>
      if Zr2 =? of_Z 0 then ret (INF, INF, Zi2 * Zi2)
      else ret ((Zr2 * Zr2 * Zr2 + of_Z 1) / Zr2, Zi2 / Zr2, Zi2 * Zi2)
  | 4%Z =>
      let v := real Zv * ld_sin (imag Zv + Zi2) - Zr2 in
      ret (v, v, v)
  | 5%Z =>
      ret (if Zr2 <=? lit 1 / of_Z UINT_FAST64_MAX then of_Z UINT_FAST64_MAX
           else ld_round (of_Z 1 / Zr2),
           if Zr2 <=? lit 0.00588 then of_Z UINT_FAST64_MAX
           else ld_round (lit 1.5 / Zr2),
           if Zr2 <=? lit 0.00294 then of_Z UINT_FAST64_MAX
           else ld_round (lit 0.75 / Zr2))
  | 6%Z =>
      ret (if Zr2 =? of_Z 0 then of_Z UINT_FAST64_MAX
           else ld_round (lit 1.5 / Zr2),
           if Zr2 =? of_Z 0 then of_Z UINT_FAST64_MAX
           else ld_round (lit 0.75 / Zr2),
           if Zr2 =? of_Z 0 then of_Z UINT_FAST64_MAX
           else ld_round (of_Z 1 / Zr2))
  | 7%Z =>
      ret (if Zr2 <=? lit 0.00294 then of_Z UINT_FAST64_MAX
           else ld_round (lit 0.75 / Zr2),
           if Zr2 <=? lit 0.00392 then of_Z UINT_FAST64_MAX
           else ld_round (of_Z 1 / Zr2),
           if Zr2 <=? lit 0.00588 then of_Z UINT_FAST64_MAX
           else ld_round (lit 1.5 / Zr2))
  | 8%Z =>
      let red0 :=
        if Zr2 =? of_Z 0 then INF else Zi2 / Zr2 + of_Z (shl64 n 1) in
      let green0 := if Zi2 =? of_Z 0 then INF else Zr2 / Zi2 + of_Z n in
      let blue0 :=
        if (Zi2 >? of_Z (INT128_MAX / 255)) || (Zr2 >? of_Z (INT128_MAX / 255))
        then of_Z INT128_MAX
        else of_Z (Z.lxor (i128 (to_int (ld_round (Zi2 * of_Z 255))))
                          (i128 (to_int (ld_round (Zr2 * of_Z 255))))) in
      let red1 := red0 + blue0 * lit 0.5 in
      let green1 := green0 + blue0 * lit 0.2 in
      ret (red1 * lit 0.1, green1 * lit 0.1, blue0 * lit 0.1)
  | 9%Z =>
      (color_fractal <- fractal ;;
       let red_fractal := red color_fractal in
       let green_fractal := green color_fractal in
       let blue_fractal := blue color_fractal in
       let red0 :=
         of_Z (Z.lxor (round_u64 (Zr2 * of_Z 8)) (round_u64 (Zi2 * of_Z 8))) in
       let green0 :=
         of_Z (Z.lxor (round_u64 (Zr2 * of_Z 2)) (round_u64 (Zi2 * of_Z 2))) in
       let blue0 :=
         of_Z (Z.lxor (round_u64 (Zr2 * of_Z 4)) (round_u64 (Zi2 * of_Z 4))) in
       (* darken the colors a bit *)
       let red1 := red0 * lit 0.7 in
       let green1 := green0 * lit 0.7 in
       let blue1 := blue0 * lit 0.7 in
       let blue_stripe0 :=
         if Zr2 =? of_Z 0 then 255%Z else round_u64 (Zi2 / Zr2) in
       let green_stripe0 :=
         if Zi2 =? of_Z 0 then 255%Z else round_u64 (Zr2 / Zi2) in
       let green_stripe1 := u64 (green_stripe0 + blue_stripe0) in
       let red2 := cap255 (red1 * multiplier color_opt) in
       let green2 := cap255 (green1 * multiplier color_opt) in
       let blue2 := cap255 (blue1 * multiplier color_opt) in
       let green_stripe2 :=
         if (green_stripe1 >? 255)%Z then 255%Z else green_stripe1 in
       let blue_stripe1 :=
         if (blue_stripe0 >? 255)%Z then 255%Z else blue_stripe0 in
       let red3 := sub_capped (sub_capped red2 blue_stripe1) green_stripe2 in
       let green3 := sub_capped (sub_capped green2 blue_stripe1) green_stripe2 in
       let blue3 := sub_capped (sub_capped blue2 blue_stripe1) green_stripe2 in
       let sub := u64 (red_fractal + green_fractal + blue_fractal) in
       let red4 := sub_capped red3 sub in
       let green_stripe3 :=
         u64 (green_stripe2
              - (if (sub >? green_stripe2)%Z then green_stripe2 else sub)) in
       let blue_stripe2 :=
         u64 (blue_stripe1
              - (if (sub >? blue_stripe1)%Z then blue_stripe1 else sub)) in
       ret (red4 + of_Z red_fractal,
            green3 + of_Z (u64 (green_stripe3 + green_fractal)),
            blue3 + of_Z (u64 (blue_stripe2 + blue_fractal))))%exc
  | 10%Z =>
      ret (of_Z (Z.lxor (shl64 n 1) n), of_Z n, of_Z (Z.lxor (shr64 n 1) n))
  | 11%Z => ret (Zr2, Zr2 * Zi2, Zi2)
  | 12%Z => ret (of_Z 255, of_Z 255, of_Z 255)
  | 13%Z =>
      ret (of_Z (u64 (shl64 n 2 + 5)), of_Z (u64 (shl64 n 1 + 1)),
           of_Z (u64 (shl64 n 2 + 2)))
  | 14%Z =>
      let seed := u32 n in
      ret (of_Z (Z.land (rand_after_srand seed 0) 255),
           of_Z (Z.land (rand_after_srand seed 1) 255),
           of_Z (Z.land (rand_after_srand seed 2) 255))
  | 15%Z =>
      (colors <- HSV2RGB fuel (of_Z (n mod 256) / lit 256) (of_Z 1) (of_Z 1) ;;
       let '(r, g, b) := colors in
       ret (of_Z r, of_Z g, of_Z b))%exc
  | 16%Z => ret (of_Z (u64 (n * n)) * lit 0.1, of_Z n, Zr2 * Zi2)
  | 17%Z =>
      let r := of_Z 2 * ld_sin Zr2 in
      let g := of_Z 2 * ld_cos Zi2 in
      let b := r * g in
      ret (r * of_Z 127, g * of_Z 127, b * of_Z 127)
  | _ =>
      throw ("Invalid color method: " ++ to_string (Z.to_nat color_method))
  end.

(** [for(i = 0; i < c_log; ++i) { red = log(red); ... }] *)
Fixpoint log_passes (count : nat) (ch : channels) : channels :=
  match count with
  | O => ch
  | S count' =>
      let '(r, g, b) := ch in
      log_passes count' (ld_log r, ld_log g, ld_log b)
  end.

(** [if(color_method != 9) { red *= multiplier; ... }] *)
Definition apply_multiplier (color_method : Z) (ch : channels) : channels :=
  let '(r, g, b) := ch in
  if negb (color_method =? 9)%Z then
    (r * multiplier color_opt, g * multiplier color_opt,
     b * multiplier color_opt)
  else ch.

(** [if(x > 255) x = 255; else if(x < 0) x = 0;] *)
Definition clamp (x : kompleks_type) : kompleks_type :=
  if x >? of_Z 255 then of_Z 255
  else if x <? of_Z 0 then of_Z 0
  else x.

(** [static_cast<uint8_t>(std::round(x))] *)
Definition to_channel (x : kompleks_type) : Z := u8 (to_int (ld_round x)).

(** The part of [colorize] below the [switch]. *)
Definition finish (color_method : Z) (ch : channels) : rgb_pixel :=
  let '(r, g, b) := apply_multiplier color_method (log_passes (c_log color_opt) ch) in
  mk_pixel (to_channel (clamp r)) (to_channel (clamp g)) (to_channel (clamp b)).

(** The hue of method 15 and what HSV2RGB needs of it to return: it is
    not below 0, not 1 or more, and six times it converts to an index of at
    most 5. *)
Definition hue (n : Z) : kompleks_type := of_Z (n mod 256) / lit 256.

Definition hue_in_range (n : Z) : bool :=
  negb (hue n <? of_Z 0) && negb (hue n >=? of_Z 1)
  && (u8 (to_int (hue n * of_Z 6)) <=? 5)%Z.

(** For the statements about the pipeline: one channel through the
    multiplier step, and through the whole part below the [switch]. *)
Definition scaled (color_method : Z) (x : kompleks_type) : kompleks_type :=
  if (color_method =? 9)%Z then x else x * multiplier color_opt.

Definition finished (color_method : Z) (x : kompleks_type) : kompleks_type :=
  clamp (scaled color_method (Nat.iter (c_log color_opt) ld_log x)).

(** The part below the [switch] as the specification words it, on one
    channel, written with the operations of the numeric interface only:
    [c_log] successive logarithms, the multiplication by the multiplier
    unless the method is 9, and the clamp to [0, 255]; then the rounding to
    the nearest integer, held in 8 bits. *)
Definition spec_clamped (color_method : Z) (x : kompleks_type)
    : kompleks_type :=
  let logged := Nat.iter (c_log color_opt) ld_log x in
  let multiplied :=
    if (color_method =? 9)%Z then logged
    else logged * multiplier color_opt in
  if multiplied >? of_Z 255 then of_Z 255
  else if multiplied <? of_Z 0 then of_Z 0
  else multiplied.

Definition spec_channel (color_method : Z) (x : kompleks_type) : Z :=
  u8 (to_int (ld_round (spec_clamped color_method x))).

(** [colorize]; [depth] bounds the nesting of the call method 9 makes to
    method 0, which calls no further. *)
Fixpoint colorize_rec (depth fuel : nat) (color_method : Z)
    (Zv c : kompleks) (n : Z) : Exc rgb_pixel :=
  match depth with
  | O => Fuel
  | S depth' =>
      (ch <- method_channels fuel (colorize_rec depth' fuel 0 Zv c n)
               color_method Zv c n ;;
       ret (finish color_method ch))%exc
  end.

Definition colorize (fuel : nat) (color_method : Z) (Zv c : kompleks)
    (n : Z) : Exc rgb_pixel :=
  colorize_rec 2 fuel color_method Zv c n.

End Colorize.

(** ** iterate and can_skip *)

Section Iterate.
Context {KT : KompleksType} {KO : KompleksOps}.
Variable fractal_opt : FractalOptions.

Local Open Scope ld_scope.

(** The lambda of the mandelbox case. *)
Definition boxfold (component : kompleks_type) : kompleks_type :=
  if component >? of_Z 1 then of_Z 2 - component
  else if component <? of_Z (-1) then of_Z (-2) - component
  else component.

(** [M_PIl] *)
Definition M_PIl : kompleks_type :=
  lit 3.141592653589793238462643383279502884.

(** [iterate(Z, c, n)]: the reference parameter [c] is the state; the
    result is the returned value paired with [c] as the call leaves it. *)
Definition iterate (Zv : kompleks) (c : kompleks) (n : Z)
    : kompleks * kompleks :=
  let e := exponent fractal_opt in
  match type fractal_opt with
  | mandelbrot | julia => (k_add (k_pow Zv e) c, c)
  | burning_ship =>
      let real_abs := ld_abs (real Zv) in
      let imag_abs := ld_abs (imag Zv) in
      (k_add (k_pow (mk_kompleks real_abs imag_abs) e) c, c)
  | tricorn => (k_add (k_pow (k_conjugate Zv) e) c, c)
  | neuron => (k_add (k_pow (k_swap_xy Zv) e) Zv, c)
  | clouds | oops =>
      let new_z := k_add (k_pow (k_swap_xy Zv) e) c in
      (new_z, Zv)
  | stupidbrot =>
      let Z1 := k_pow Zv e in
      if (n mod 2 =? 0)%Z then (k_add Z1 c, c) else (k_sub Z1 c, c)
  | untitled1 => (k_add (std_pow Zv Zv) Zv, c)
  | dots => (k_mul (k_pow Zv e) (k_reciprocal c), c)
  | magnet1 =>
      (k_pow (k_div (k_add (k_pow Zv (of_Z 2)) (k_sub_s c (of_Z 1)))
                    (k_add (k_mul_s Zv (of_Z 2)) (k_sub_s c (of_Z 2))))
             (of_Z 2), c)
  | experiment => (k_add (k_pow Zv e) (k_reciprocal c), c)
  | mandelbox =>
      let Z1 := mk_kompleks (boxfold (real Zv)) (boxfold (imag Zv)) in
      let Z2 :=
        if k_abs Z1 <? lit 0.5 then k_div_s Z1 (lit 0.25)
        else if k_abs Z1 <? of_Z 1 then k_div_s Z1 (k_norm Z1)
        else Z1 in
      (k_add (s_mul_k e Z2) c, c)
  | negamandelbrot => (k_sub (k_pow Zv (of_Z 1 / e)) c, c)
  | collatz =>
      (k_div_s
         (k_sub (s_add_k (lit 2) (s_mul_k (lit 7) Zv))
                (k_mul (s_add_k (lit 2) (s_mul_k (lit 5) Zv))
                       (k_cos (s_mul_k M_PIl Zv))))
         (lit 4), c)
  | experiment2 => (k_add (k_pow Zv e) (k_pow c (of_Z 1 / e)), c)
  end.

Definition can_skip (x y : kompleks_type) : bool :=
  if single fractal_opt
     || negb (FractalType_eqb (type fractal_opt) mandelbrot)
     || negb (escape_limit fractal_opt =? of_Z 4)
  then false
  else if exponent fractal_opt =? of_Z 2 then
    let y2 := y * y in
    let xo := x - lit 0.25 in
    let q := xo * xo + y2 in
    (q * (q + xo) <? lit 0.25 * y2)
    || ((x + of_Z 1) * (x + of_Z 1) + y2 <? lit 0.0625)
  else if (exponent fractal_opt =? of_Z 3)
          && (let y2 := y * y in
              x * x <? lit 4 / lit 27 - y2
                       + ld_pow (of_Z 4 * y2) (lit 1 / lit 3) / lit 3)
  then true
  else if exponent fractal_opt =? of_Z 4 then
    x * x + y * y <? lit 0.2232282729330280511369586055226683491
  else if exponent fractal_opt =? of_Z 5 then
    x * x + y * y <? lit 0.2862167011199730811403742295976033581
  else false.

End Iterate.

(** ** createFractal *)

(** What the program reads from outside while it renders: the steady clock
    ([now k] is the [k]-th reading, in nanoseconds) and the flag the SIGINT
    handler sets ([cancel k] is the value the [k]-th read of the flag sees). *)
Record Env : Type := {
  now : nat -> Z;
  cancel : nat -> bool
}.

(** The local variables of [createFractal] that outlive a pixel, with the
    number of clock readings and flag reads made so far. *)
Record RenderState `{KompleksType} : Type := mk_state {
  periodic : Z;
  escaped : Z;
  not_escaped : Z;
  skipped : Z;
  run : Z;
  max_n : Z;
  max_period : Z;
  max_period_n : Z;
  currentPoint : Z;
  image : list (Z * Z * rgb_pixel);
  pCheck : list kompleks;
  previous_time : Z;
  progress : list (Z * Z);
  ticks : nat;
  polls : nat
}.
Arguments mk_state {_} _ _ _ _ _ _ _ _ _ _ _ _ _ _ _.

(** [image.get_pixel(pX, pY)]: the last pixel set there, black when none. *)
Fixpoint get_pixel (img : list (Z * Z * rgb_pixel)) (pX pY : Z) : rgb_pixel :=
  match img with
  | [] => mk_pixel 0 0 0
  | (x, y, px) :: img' =>
      if ((x =? pX) && (y =? pY))%Z then px else get_pixel img' pX pY
  end.

(** What [createFractal] leaves: its variables, the duration it prints
    (nanoseconds between the first and the last clock reading), whether
    [make_filename] saw the flag set and marked the file "_partial", and
    whether the program printed "There is a bug somewhere (e + ne + p + s !=
    total)". *)
Record RenderResult `{KompleksType} : Type := mk_result {
  final : RenderState;
  duration : Z;
  marked_partial : bool;
  bug_reported : bool
}.
Arguments mk_result {_} _ _ _ _.

Section Render.
Context {KT : KompleksType} {KO : KompleksOps}.
Variable fractal_opt : FractalOptions.
Variable color_opt : ColorOptions.
Variable rand_after_srand : Z -> nat -> Z.
(** The fuel of the two [while] loops of HSV2RGB. *)
Variable fuel : nat.
(** The globals of the same names. *)
Variables width_px height_px max_iterations pCheckN : Z.
Variable env : Env.

Local Open Scope ld_scope.

(** A read of the volatile flag. *)
Definition poll (st : RenderState) : bool * RenderState :=
  (cancel env (polls st),
   mk_state (periodic st) (escaped st) (not_escaped st) (skipped st)
     (run st) (max_n st) (max_period st) (max_period_n st)
     (currentPoint st) (image st) (pCheck st) (previous_time st)
     (progress st) (ticks st) (S (polls st))).

(** The head of the pixel loop body: read the clock and report progress
    when a second has passed. *)
Definition tick (st : RenderState) : RenderState :=
  let current_time := now env (ticks st) in
  let due := (current_time - previous_time st >=? 1000000000)%Z in
  mk_state (periodic st) (escaped st) (not_escaped st) (skipped st)
    (run st) (max_n st) (max_period st) (max_period_n st)
    (currentPoint st) (image st) (pCheck st)
    (if due then current_time else previous_time st)
    (if due then (currentPoint st, u32 (width_px * height_px)) :: progress st
     else progress st)
    (S (ticks st)) (polls st).

Definition with_pCheck (w : list kompleks) (st : RenderState) : RenderState :=
  mk_state (periodic st) (escaped st) (not_escaped st) (skipped st)
    (run st) (max_n st) (max_period st) (max_period_n st)
    (currentPoint st) (image st) w (previous_time st)
    (progress st) (ticks st) (polls st).

Definition incr_run (st : RenderState) : RenderState :=
  mk_state (periodic st) (escaped st) (not_escaped st) (skipped st)
    (u64 (run st + 1)) (max_n st) (max_period st) (max_period_n st)
    (currentPoint st) (image st) (pCheck st) (previous_time st)
    (progress st) (ticks st) (polls st).

Definition incr_skipped (st : RenderState) : RenderState :=
  mk_state (periodic st) (escaped st) (not_escaped st) (u64 (skipped st + 1))
    (run st) (max_n st) (max_period st) (max_period_n st)
    (currentPoint st) (image st) (pCheck st) (previous_time st)
    (progress st) (ticks st) (polls st).

Definition incr_not_escaped (st : RenderState) : RenderState :=
  mk_state (periodic st) (escaped st) (u64 (not_escaped st + 1)) (skipped st)
    (run st) (max_n st) (max_period st) (max_period_n st)
    (currentPoint st) (image st) (pCheck st) (previous_time st)
    (progress st) (ticks st) (polls st).

Definition incr_currentPoint (st : RenderState) : RenderState :=
  mk_state (periodic st) (escaped st) (not_escaped st) (skipped st)
    (run st) (max_n st) (max_period st) (max_period_n st)
    (u64 (currentPoint st + 1)) (image st) (pCheck st) (previous_time st)
    (progress st) (ticks st) (polls st).

(** [++escaped; if(n > max_n) max_n = n; image.set_pixel(pX, pY, px);] *)
Definition record_escaped (pX pY n : Z) (px : rgb_pixel) (st : RenderState)
    : RenderState :=
  mk_state (periodic st) (u64 (escaped st + 1)) (not_escaped st) (skipped st)
    (run st) (if (n >? max_n st)%Z then n else max_n st)
    (max_period st) (max_period_n st)
    (currentPoint st) ((pX, pY, px) :: image st) (pCheck st)
    (previous_time st) (progress st) (ticks st) (polls st).

(** The body of [if(location != pCheck.cend())]. *)
Definition record_periodic (pCheckIndex n : Z) (st : RenderState)
    : RenderState :=
  mk_state (u64 (periodic st + 1)) (escaped st) (not_escaped st) (skipped st)
    (run st) (max_n st)
    (if (pCheckIndex >? max_period st)%Z then pCheckIndex else max_period st)
    (if (n >? max_period_n st)%Z then n else max_period_n st)
    (currentPoint st) (image st) (pCheck st)
    (previous_time st) (progress st) (ticks st) (polls st).

(** [std::find(pCheck.cbegin(), pCheck.cend(), Z)]: the position of the
    first equal element. *)
Fixpoint find_kompleks (Zv : kompleks) (w : list kompleks) : option nat :=
  match w with
  | [] => None
  | v :: w' =>
      if k_eqb v Zv then Some O
      else match find_kompleks Zv w' with
           | Some i => Some (S i)
           | None => None
           end
  end.

(** The termination test at the head of the iteration loop. *)
Definition escape_test (Zv : kompleks) (n : Z) : bool :=
  (single fractal_opt && (n =? max_iterations)%Z)
  || (negb (single fractal_opt)
      && (k_norm Zv >? escape_limit fractal_opt) && (n >? 0)%Z).

(** [for(n = 0; n <= max_iterations; ++n)], entered with [count] values of
    [n] left to visit.  Every [break] and the [goto end_iteration] leave
    the loop with the state reached. *)
Fixpoint iteration_loop (count : nat) (n : Z) (pX pY : Z)
    (Zv c : kompleks) (st : RenderState) : Exc RenderState :=
  match count with
  | O => ret st
  | S count' =>
      let st1 := incr_run st in
      if escape_test Zv n then
        (px <- colorize fractal_opt color_opt rand_after_srand fuel
                 (method color_opt) Zv c n ;;
         ret (record_escaped pX pY n px st1))%exc
      else if (n =? max_iterations)%Z then ret (incr_not_escaped st1)
      else
        let '(Z', c') := iterate fractal_opt Zv c n in
        (* inl: the goto end_iteration; inr: on to the read of the flag *)
        let detected :=
          if negb (single fractal_opt) && (pCheckN >? 0)%Z then
            match find_kompleks Z' (pCheck st1) with
            | Some i =>
                inl (record_periodic
                       (Z.of_nat (List.length (pCheck st1) - i)) n st1)
            | None => inr (with_pCheck (tl (pCheck st1) ++ [Z']) st1)
            end
          else inr st1 in
        match detected with
        | inl st2 => ret st2
        | inr st2 =>
            let '(cancelled, st3) := poll st2 in
            if cancelled then ret st3
            else iteration_loop count' (n + 1)%Z pX pY Z' c' st3
        end
  end.

(** The orbit's start: [kompleks Z;] and the two [if]s that follow it. *)
Definition initial_Z (x y : kompleks_type) : kompleks :=
  if negb (FractalType_eqb (type fractal_opt) clouds)
     && negb (FractalType_eqb (type fractal_opt) mandelbrot)
  then mk_kompleks x y
  else kompleks_zero.

Definition initial_c (x y : kompleks_type) : kompleks :=
  if FractalType_eqb (type fractal_opt) julia
  then mk_kompleks (juliaA fractal_opt) (juliaB fractal_opt)
  else mk_kompleks x y.

(** [std::fill(pCheck.begin(), pCheck.end(), Z)] *)
Definition fill (w : list kompleks) (Zv : kompleks) : list kompleks :=
  List.map (fun _ => Zv) w.

Definition pixel_x (pX : Z) : kompleks_type :=
  let width := rbound fractal_opt - lbound fractal_opt in
  let xinterval := width / of_Z width_px in
  lbound fractal_opt + of_Z pX * xinterval + xinterval / of_Z 2.

Definition pixel_y (pY : Z) : kompleks_type :=
  let height := ubound fractal_opt - bbound fractal_opt in
  let yinterval := height / of_Z height_px in
  ubound fractal_opt - of_Z pY * yinterval - yinterval / of_Z 2.

(** The body of the loop over [pX], up to the [if(cancel)] that follows
    the pixel. *)
Definition pixel (pX pY : Z) (st : RenderState) : Exc RenderState :=
  let st1 := tick st in
  let x := pixel_x pX in
  let y := pixel_y pY in
  if can_skip fractal_opt x y then ret (incr_skipped st1)
  else
    let Zv := initial_Z x y in
    let c := initial_c x y in
    let st2 := with_pCheck (fill (pCheck st1) Zv) st1 in
    iteration_loop (S (Z.to_nat max_iterations)) 0 pX pY Zv c st2.

(** [for(pX = 0; pX < width_px; ++pX)], with [count] columns left.  The
    [break] after a pixel leaves this loop only. *)
Fixpoint column_loop (count : nat) (pX pY : Z) (st : RenderState)
    : Exc RenderState :=
  match count with
  | O => ret st
  | S count' =>
      (st1 <- pixel pX pY st ;;
       let '(cancelled, st2) := poll st1 in
       if cancelled then ret st2
       else column_loop count' (pX + 1)%Z pY (incr_currentPoint st2))%exc
  end.

(** [for(pY = 0; pY < height_px; ++pY)], with [count] rows left. *)
Fixpoint row_loop (count : nat) (pY : Z) (st : RenderState)
    : Exc RenderState :=
  match count with
  | O => ret st
  | S count' =>
      (st1 <- column_loop (Z.to_nat width_px) 0 pY st ;;
       row_loop count' (pY + 1)%Z st1)%exc
  end.

(** The variables as initialised before the loops; the first clock reading
    is [time_start]. *)
Definition initial_state : RenderState :=
  mk_state 0 0 0 0 0 0 0 0 0 []
    (List.repeat kompleks_zero (Z.to_nat pCheckN))
    (now env 0) [] 1 0.

Definition createFractal : Exc RenderResult :=
  (st <- row_loop (Z.to_nat height_px) 0 initial_state ;;
   ret (mk_result st
          (now env (ticks st) - now env 0)
          (cancel env (polls st))
          (negb (u64 (escaped st + not_escaped st + periodic st + skipped st)
                 =? currentPoint st)%Z)))%exc.

End Render.

(** ** main, from the parsed arguments on *)

(** The values [argp.get_bool], [get_uint], [get_lfloat] and [get_string]
    return for each option, as the variables they are assigned to hold them
    (ArgParser itself is outside the renderer). *)
Record ParsedArgs `{KompleksType} : Type := {
  arg_df : bool;
  arg_s : bool;
  arg_S : bool;
  arg_c : Z;
  arg_cm : kompleks_type;
  arg_clog : nat;
  arg_e : kompleks_type;
  arg_el : kompleks_type;
  arg_i : Z;
  arg_jx : kompleks_type;
  arg_jy : kompleks_type;
  arg_pc : Z;
  arg_r : Z;
  arg_t : string;
  arg_lbound : kompleks_type;
  arg_rbound : kompleks_type;
  arg_bbound : kompleks_type;
  arg_ubound : kompleks_type;
  arg_box : kompleks_type;
  arg_wm : kompleks_type
}.

(** How a run of the program ends: [main] returns a code, an exception no
    handler catches ends it, or a loop outlasts its fuel. *)
Inductive Termination : Type :=
  | Returned (code : Z)
  | Terminated (what : string)
  | Unfinished.

(** What a run leaves behind: how it ended, the output directory
    tiles/<type>/<method> if [create_directories] was reached, and the
    result of [createFractal] if it returned (the image is then written). *)
Record MainRun `{KompleksType} : Type := mk_run {
  termination : Termination;
  directories : option (FractalType * Z);
  rendered : option RenderResult
}.
Arguments mk_run {_} _ _ _.

Section Main.
Context {KT : KompleksType} {KO : KompleksOps}.
Variable rand_after_srand : Z -> nat -> Z.
Variable fuel : nat.
Variable env : Env.

Local Open Scope ld_scope.

Definition main (a : ParsedArgs) : MainRun :=
  let color_opt :=
    {| method := arg_c a; smooth := arg_s a; disable_fancy := arg_df a;
       multiplier := arg_cm a; c_log := arg_clog a |} in
  let max_iterations := arg_i a in
  let pCheckN := arg_pc a in
  let height_px := arg_r a in
  let width_px := u32 (to_int (ld_round (of_Z height_px * arg_wm a))) in
  match string_to_fractal_type (arg_t a) with
  | Val t =>
      let boxed := negb (arg_box a =? of_Z 2) in
      let rbound' := if boxed then arg_box a else arg_rbound a in
      let ubound' := if boxed then arg_box a else arg_ubound a in
      let lbound' := if boxed then ld_neg rbound' else arg_lbound a in
      let bbound' := if boxed then ld_neg rbound' else arg_bbound a in
      let fractal_opt :=
        {| type := t; exponent := arg_e a; escape_limit := arg_el a;
           single := arg_S a; lbound := lbound'; rbound := rbound';
           bbound := bbound'; ubound := ubound';
           juliaA := arg_jx a; juliaB := arg_jy a |} in
      let dirs := Some (t, method color_opt) in
      match createFractal fractal_opt color_opt rand_after_srand fuel
              width_px height_px max_iterations pCheckN env with
      | Val r => mk_run (Returned 0) dirs (Some r)
      | Exn what => mk_run (Terminated what) dirs None
      | Fuel => mk_run Unfinished dirs None
      end
  | _ => mk_run (Returned 1) None None
  end.

End Main.

(** ** An exact implementation of the numeric interface *)

(** Rational numbers with the two infinities and NaN: every operation that
    has a rational (or infinite) result returns exactly that result, so a run
    whose values stay in [xq] without NaN is the run of exact arithmetic.  An
    operation whose result is irrational (a logarithm, a sine, a root, a
    power with a fractional exponent) returns NaN here. *)
Module XQ.

Inductive xq : Type :=
  | Fin (q : Q)
  | PInf
  | NInf
  | NaN.

Definition xlit (q : Q) : xq := Fin (Qred q).

Definition is_zero (q : Q) : bool := Qeq_bool q 0.
Definition is_neg (q : Q) : bool := negb (Qle_bool 0 q).

Definition xopp (a : xq) : xq :=
  match a with
  | Fin q => Fin (Qred (- q))
  | PInf => NInf
  | NInf => PInf
  | NaN => NaN
  end.

Definition xadd (a b : xq) : xq :=
  match a, b with
  | NaN, _ | _, NaN => NaN
  | Fin p, Fin q => Fin (Qred (p + q))
  | PInf, NInf | NInf, PInf => NaN
  | PInf, _ | _, PInf => PInf
  | NInf, _ | _, NInf => NInf
  end.

Definition xsub (a b : xq) : xq := xadd a (xopp b).

(** An infinity times a number of the sign of [q]. *)
Definition scaled_inf (positive : bool) (q : Q) : xq :=
  if is_zero q then NaN
  else if Bool.eqb positive (negb (is_neg q)) then PInf else NInf.

Definition xmul (a b : xq) : xq :=
  match a, b with
  | NaN, _ | _, NaN => NaN
  | Fin p, Fin q => Fin (Qred (p * q))
  | PInf, Fin q | Fin q, PInf => scaled_inf true q
  | NInf, Fin q | Fin q, NInf => scaled_inf false q
  | PInf, PInf | NInf, NInf => PInf
  | PInf, NInf | NInf, PInf => NInf
  end.

Definition xdiv (a b : xq) : xq :=
  match a, b with
  | NaN, _ | _, NaN => NaN
  | Fin p, Fin q =>
      if is_zero q then
        (if is_zero p then NaN else if is_neg p then NInf else PInf)
      else Fin (Qred (p / q))
  | Fin _, _ => Fin 0
  | PInf, Fin q => if is_neg q then NInf else PInf
  | NInf, Fin q => if is_neg q then PInf else NInf
  | _, _ => NaN
  end.

Definition xleb (a b : xq) : bool :=
  match a, b with
  | NaN, _ | _, NaN => false
  | Fin p, Fin q => Qle_bool p q
  | NInf, _ | _, PInf => true
  | _, _ => false
  end.

Definition xeqb (a b : xq) : bool :=
  match a, b with
  | Fin p, Fin q => Qeq_bool p q
  | PInf, PInf | NInf, NInf => true
  | _, _ => false
  end.

Definition xltb (a b : xq) : bool := xleb a b && negb (xeqb a b).

Definition xabs (a : xq) : xq :=
  match a with
  | Fin q => Fin (Qred (Qabs q))
  | PInf | NInf => PInf
  | NaN => NaN
  end.

(** Round half away from zero. *)
Definition round_half_away (q : Q) : Z :=
  if is_neg q then (- Qfloor (- q + (1 # 2)))%Z else Qfloor (q + (1 # 2)).

Definition xround (a : xq) : xq :=
  match a with
  | Fin q => Fin (inject_Z (round_half_away q))
  | _ => a
  end.

(** Truncation toward zero. *)
Definition xto_int (a : xq) : Z :=
  match a with
  | Fin q => Z.quot (Qnum q) (Zpos (Qden q))
  | _ => 0%Z
  end.

Definition xlog (a : xq) : xq :=
  match a with
  | Fin q =>
      if is_zero q then NInf
      else if Qeq_bool q 1 then Fin 0
      else NaN
  | PInf => PInf
  | _ => NaN
  end.

Definition xsin (a : xq) : xq :=
  match a with
  | Fin q => if is_zero q then Fin 0 else NaN
  | _ => NaN
  end.

Definition xcos (a : xq) : xq :=
  match a with
  | Fin q => if is_zero q then Fin 1 else NaN
  | _ => NaN
  end.

(** The natural number [e] is, when it is one. *)
Definition as_nat (e : xq) : option nat :=
  match e with
  | Fin q =>
      if (Zpos (Qden (Qred q)) =? 1)%Z && (0 <=? Qnum (Qred q))%Z
      then Some (Z.to_nat (Qnum (Qred q)))
      else None
  | _ => None
  end.

Fixpoint xpow_nat (a : xq) (k : nat) : xq :=
  match k with
  | O => Fin 1
  | S k' => xmul a (xpow_nat a k')
  end.

Definition xpow (a e : xq) : xq :=
  match as_nat e with
  | Some k => xpow_nat a k
  | None => NaN
  end.

#[export] Instance XQ_type : KompleksType := {|
  kompleks_type := xq;
  lit := xlit;
  INF := PInf;
  ld_add := xadd;
  ld_sub := xsub;
  ld_mul := xmul;
  ld_div := xdiv;
  ld_neg := xopp;
  ld_ltb := xltb;
  ld_leb := xleb;
  ld_eqb := xeqb;
  ld_abs := xabs;
  ld_pow := xpow;
  ld_log := xlog;
  ld_sin := xsin;
  ld_cos := xcos;
  ld_round := xround;
  to_int := xto_int
|}.

Definition cplx (a b : xq) : kompleks := mk_kompleks a b.

Definition cnan : kompleks := cplx NaN NaN.

Definition cadd (z w : kompleks) : kompleks :=
  cplx (xadd (real z) (real w)) (xadd (imag z) (imag w)).

Definition csub (z w : kompleks) : kompleks :=
  cplx (xsub (real z) (real w)) (xsub (imag z) (imag w)).

Definition cmul (z w : kompleks) : kompleks :=
  cplx (xsub (xmul (real z) (real w)) (xmul (imag z) (imag w)))
       (xadd (xmul (real z) (imag w)) (xmul (imag z) (real w))).

Definition cnorm (z : kompleks) : xq :=
  xadd (xmul (real z) (real z)) (xmul (imag z) (imag z)).

Definition creciprocal (z : kompleks) : kompleks :=
  cplx (xdiv (real z) (cnorm z)) (xdiv (xopp (imag z)) (cnorm z)).

Definition cdiv (z w : kompleks) : kompleks := cmul z (creciprocal w).

Fixpoint cpow_nat (z : kompleks) (k : nat) : kompleks :=
  match k with
  | O => cplx (Fin 1) (Fin 0)
  | S k' => cmul z (cpow_nat z k')
  end.

Definition cpow (z : kompleks) (e : xq) : kompleks :=
  match as_nat e with
  | Some k => cpow_nat z k
  | None => cnan
  end.

(** The square root of a rational square. *)
Definition exact_sqrt (q : Q) : xq :=
  let n := Qnum (Qred q) in
  let d := Zpos (Qden (Qred q)) in
  if ((Z.sqrt n * Z.sqrt n =? n) && (Z.sqrt d * Z.sqrt d =? d))%Z
  then Fin (Qred (Qmake (Z.sqrt n) (Z.to_pos (Z.sqrt d))))
  else NaN.

Definition cabs (z : kompleks) : xq :=
  match cnorm z with
  | Fin q => exact_sqrt q
  | PInf => PInf
  | _ => NaN
  end.

Definition ceqb (z w : kompleks) : bool :=
  xeqb (real z) (real w) && xeqb (imag z) (imag w).

Definition of_real (s : xq) : kompleks := cplx s (Fin 0).

Definition ccos (z : kompleks) : kompleks :=
  if ceqb z (cplx (Fin 0) (Fin 0)) then cplx (Fin 1) (Fin 0) else cnan.

#[export] Instance XQ_ops : KompleksOps := {|
  k_add := cadd;
  k_sub := csub;
  k_mul := cmul;
  k_div := cdiv;
  k_pow := cpow;
  k_norm := cnorm;
  k_abs := cabs;
  k_swap_xy := fun z => cplx (imag z) (real z);
  k_conjugate := fun z => cplx (real z) (xopp (imag z));
  k_reciprocal := creciprocal;
  k_eqb := ceqb;
  k_sub_s := fun z s => cplx (xsub (real z) s) (imag z);
  k_mul_s := fun z s => cplx (xmul (real z) s) (xmul (imag z) s);
  k_div_s := fun z s => cplx (xdiv (real z) s) (xdiv (imag z) s);
  s_add_k := fun s z => cplx (xadd s (real z)) (imag z);
  s_mul_k := fun s z => cplx (xmul s (real z)) (xmul s (imag z));
  k_cos := ccos;
  std_pow := fun _ _ => cnan
|}.

(** The libc generator is outside the program; this one stands for it where
    a run needs one (its draws are the seed plus the draw's number). *)
Definition rand_model (seed : Z) (k : nat) : Z := (seed + Z.of_nat k)%Z.

(** The default options of main.cpp: mandelbrot, exponent 2, escape limit
    4, the square from -2 to 2, colour method 0. *)
Definition default_fractal : FractalOptions := {|
  type := mandelbrot; exponent := xlit 2; escape_limit := xlit 4;
  single := false;
  lbound := xlit (-2); rbound := xlit 2;
  bbound := xlit (-2); ubound := xlit 2;
  juliaA := xlit (-0.8); juliaB := xlit 0.156
|}.

Definition default_color : ColorOptions := {|
  method := 0; smooth := false; disable_fancy := false;
  multiplier := xlit 1; c_log := 0
|}.

(** An environment in which the flag is never set and the clock stands. *)
Definition quiet : Env := {| now := fun _ => 0%Z; cancel := fun _ => false |}.

(** An environment in which the flag is never set and every clock reading
    is two seconds after the one before, so that every pixel reports
    progress. *)
Definition slow : Env :=
  {| now := fun k => (2000000000 * Z.of_nat k)%Z; cancel := fun _ => false |}.

(** An environment in which the handler sets the flag once it was read
    [reads] times. *)
Definition interrupted_after (reads : nat) : Env :=
  {| now := fun _ => 0%Z; cancel := fun k => (reads <=? k)%nat |}.

(** The default options on the square from -1/2 to 1/2, which lies inside
    the main cardioid. *)
Definition inner_fractal : FractalOptions := {|
  type := mandelbrot; exponent := xlit 2; escape_limit := xlit 4;
  single := false;
  lbound := xlit (-0.5); rbound := xlit 0.5;
  bbound := xlit (-0.5); ubound := xlit 0.5;
  juliaA := xlit (-0.8); juliaB := xlit 0.156
|}.

(** The default options with an escape limit of 8, under which no pixel
    is skipped. *)
Definition wide_fractal : FractalOptions := {|
  type := mandelbrot; exponent := xlit 2; escape_limit := xlit 8;
  single := false;
  lbound := xlit (-2); rbound := xlit 2;
  bbound := xlit (-2); ubound := xlit 2;
  juliaA := xlit (-0.8); juliaB := xlit 0.156
|}.

(** The default options in single mode. *)
Definition single_fractal : FractalOptions := {|
  type := mandelbrot; exponent := xlit 2; escape_limit := xlit 4;
  single := true;
  lbound := xlit (-2); rbound := xlit 2;
  bbound := xlit (-2); ubound := xlit 2;
  juliaA := xlit (-0.8); juliaB := xlit 0.156
|}.

(** The command line [-t name -c method -r size -i 50], every other option
    at its default. *)
Definition command_line (name : string) (color_method size : Z)
    : ParsedArgs := {|
  arg_df := false; arg_s := false; arg_S := false;
  arg_c := color_method; arg_cm := xlit 1; arg_clog := 0;
  arg_e := xlit 2; arg_el := xlit 4; arg_i := 50;
  arg_jx := xlit (-0.8); arg_jy := xlit 0.156;
  arg_pc := 1; arg_r := size; arg_t := name;
  arg_lbound := xlit (-2); arg_rbound := xlit 2;
  arg_bbound := xlit (-2); arg_ubound := xlit 2;
  arg_box := xlit 2; arg_wm := xlit 1
|}.

(** Another generator: every draw is 7. *)
Definition rand_sevens (seed : Z) (k : nat) : Z := 7.

End XQ.

(** ** The orbit of a pixel, for the statements about the classifier *)

(** The orbit value, the point [c] and the periodicity window as the
    iteration loop holds them at the head of its body. *)
Record Orbit `{KompleksType} : Type := mk_orbit {
  orbit_Z : kompleks;
  orbit_c : kompleks;
  orbit_window : list kompleks
}.
Arguments mk_orbit {_} _ _ _.

Section OrbitOf.
Context {KT : KompleksType} {KO : KompleksOps}.
Variable fractal_opt : FractalOptions.
Variable pCheckN : Z.
Variable env : Env.

Local Open Scope ld_scope.

(** Whether the loop looks for repeated values at all. *)
Definition detecting : bool :=
  negb (single fractal_opt) && (pCheckN >? 0)%Z.

(** One pass through the body that ends nowhere: the recurrence is
    applied for index [n] and the window slides. *)
Definition orbit_step (n : Z) (o : Orbit) : Orbit :=
  let '(Z', c') := iterate fractal_opt (orbit_Z o) (orbit_c o) n in
  mk_orbit Z' c'
    (if detecting then tl (orbit_window o) ++ [Z'] else orbit_window o).

(** The orbit after [k] applications of the recurrence. *)
Fixpoint orbit (o : Orbit) (k : nat) : Orbit :=
  match k with
  | O => o
  | S k' => orbit_step (Z.of_nat k') (orbit o k')
  end.

(** The squared modulus of the [k]-th orbit value exceeds the limit. *)
Definition escapes_at (o : Orbit) (k : nat) : bool :=
  k_norm (orbit_Z (orbit o k)) >? escape_limit fractal_opt.

(** The value the recurrence produces at index [k] is found in the window
    held at index [k]; the result is its position. *)
Definition match_at (o : Orbit) (k : nat) : option nat :=
  if detecting
  then find_kompleks (orbit_Z (orbit o (S k))) (orbit_window (orbit o k))
  else None.

(** The variables at the head of the body for index [k], when no earlier
    index ended the loop: [k] iterations were counted, the flag was read
    [k] times and the window is the orbit's. *)
Fixpoint running (st : RenderState) (o : Orbit) (k : nat) : RenderState :=
  match k with
  | O => st
  | S k' =>
      snd (poll env
             (with_pCheck (orbit_window (orbit o k))
                (incr_run (running st o k'))))
  end.

End OrbitOf.

(** ** What two renders are compared on *)

(** The statistics and the raster of a state: everything but the clock
    readings and the progress reports made from them. *)
Definition statistics `{KompleksType} (st : RenderState)
    : Z * Z * Z * Z * Z * Z * Z * Z * Z * list (Z * Z * rgb_pixel) :=
  (periodic st, escaped st, not_escaped st, skipped st, run st, max_n st,
   max_period st, max_period_n st, currentPoint st, image st).

Definition outcome `{KompleksType} (r : Exc RenderResult)
    : Exc (Z * Z * Z * Z * Z * Z * Z * Z * Z * list (Z * Z * rgb_pixel)
           * bool * bool) :=
  match r with
  | Val r => Val (statistics (final r), marked_partial r, bug_reported r)
  | Exn msg => Exn msg
  | Fuel => Fuel
  end.

(** The sum the program compares with [currentPoint]. *)
Definition classified_total `{KompleksType} (st : RenderState) : Z :=
  escaped st + not_escaped st + periodic st + skipped st.

(** From [st] to [st'] exactly one of the four counters was incremented
    (as the unsigned [++] does), the other three and [currentPoint] are as
    they were: the pixel got one classification. *)
Definition classified_once `{KompleksType} (st st' : RenderState) : Prop :=
  currentPoint st' = currentPoint st
  /\ ((escaped st' = u64 (escaped st + 1) /\ not_escaped st' = not_escaped st
       /\ periodic st' = periodic st /\ skipped st' = skipped st)
      \/ (escaped st' = escaped st /\ not_escaped st' = u64 (not_escaped st + 1)
          /\ periodic st' = periodic st /\ skipped st' = skipped st)
      \/ (escaped st' = escaped st /\ not_escaped st' = not_escaped st
          /\ periodic st' = u64 (periodic st + 1) /\ skipped st' = skipped st)
      \/ (escaped st' = escaped st /\ not_escaped st' = not_escaped st
          /\ periodic st' = periodic st /\ skipped st' = u64 (skipped st + 1))).

(** Two states with the same four counters and the same [currentPoint]. *)
Definition same_counts `{KompleksType} (a b : RenderState) : Prop :=
  escaped a = escaped b /\ not_escaped a = not_escaped b
  /\ periodic a = periodic b /\ skipped a = skipped b
  /\ currentPoint a = currentPoint b.

(** The invariant of the pixel loops while the flag stays unset: [done]
    pixels are behind, each counted once. *)
Definition counted `{KompleksType} (st : RenderState) (done : Z) : Prop :=
  0 <= escaped st /\ 0 <= not_escaped st /\ 0 <= periodic st
  /\ 0 <= skipped st
  /\ classified_total st = done /\ currentPoint st = done.

(** Two states that differ at most in the clock readings and the progress
    reports: same statistics and raster, same window, same number of reads
    of the flag. *)
Definition same_render `{KompleksType} (a b : RenderState) : Prop :=
  statistics a = statistics b /\ pCheck a = pCheck b /\ polls a = polls b.

(** Two results that end the same way, on states that are the same
    render. *)
Definition same_exc `{KompleksType} (r1 r2 : Exc RenderState) : Prop :=
  match r1, r2 with
  | Val a, Val b => same_render a b
  | Exn e1, Exn e2 => e1 = e2
  | Fuel, Fuel => True
  | _, _ => False
  end.

(** ** The printed name of a fractal type *)

(** [static_cast<std::underlying_type_t<FractalType>>(t)] *)
Definition FractalType_index (t : FractalType) : nat :=
  match t with
  | mandelbrot => 0 | julia => 1 | burning_ship => 2 | tricorn => 3
  | neuron => 4 | clouds => 5 | oops => 6 | stupidbrot => 7
  | untitled1 => 8 | dots => 9 | magnet1 => 10 | experiment => 11
  | mandelbox => 12 | negamandelbrot => 13 | collatz => 14
  | experiment2 => 15
  end%nat.

(** [operator<<(std::ostream&, FractalType)]: what it writes. *)
Definition FractalType_print (t : FractalType) : string :=
  let tu := FractalType_index t in
  if (FractalType_count <=? tu)%nat then to_string tu
  else List.nth tu FractalType_strings EmptyString.

(** ** The raster as written so far *)

(** The invariant of the pixel loops on the raster: every write is inside
    the raster and before the linear position [limit] (row times width plus
    column), no position was written twice, and the writes number
    [escaped]. *)
Definition raster_written `{KompleksType} (width_px : Z) (limit : Z)
    (st : RenderState) : Prop :=
  Forall (fun e : Z * Z * rgb_pixel =>
            0 <= fst (fst e) < width_px /\ 0 <= snd (fst e)
            /\ snd (fst e) * width_px + fst (fst e) < limit) (image st)
  /\ NoDup (List.map fst (image st))
  /\ escaped st = Z.of_nat (List.length (image st))
  /\ Z.of_nat (List.length (image st)) <= limit.

(** ** Single mode and cancellation, pixel by pixel *)

(** What a single-mode pixel adds to the variables: one escape, [passes]
    passes of the iteration loop, and max_iterations as an escape index. *)
Definition single_pixel_effect `{KompleksType} (max_iterations passes : Z)
    (st st' : RenderState) : Prop :=
  escaped st' = u64 (escaped st + 1)
  /\ not_escaped st' = not_escaped st
  /\ periodic st' = periodic st
  /\ skipped st' = skipped st
  /\ currentPoint st' = currentPoint st
  /\ run st' = u64 (run st + passes)
  /\ max_n st' = Z.max (max_n st) max_iterations.

(** The variables after [done] single-mode pixels. *)
Definition single_counted `{KompleksType} (max_iterations : Z)
    (st : RenderState) (done : Z) : Prop :=
  escaped st = done /\ not_escaped st = 0 /\ periodic st = 0
  /\ skipped st = 0 /\ currentPoint st = done
  /\ run st = u64 (done * (max_iterations + 1))
  /\ max_n st = (if done =? 0 then 0 else max_iterations).

(** One of the reads of the flag made so far saw it set. *)
Definition flag_seen `{KompleksType} (env : Env) (st : RenderState) : Prop :=
  exists k, (k < polls st)%nat /\ cancel env k = true.

(** The invariant of the pixel loops when the flag may be set: with
    [limit] pixels behind, no counter is negative, [currentPoint] is at most
    the sum of the four counters, which is at most [limit]; and both are
    [limit] unless a read of the flag saw it set. *)
Definition partly_counted `{KompleksType} (env : Env) (st : RenderState)
    (limit : Z) : Prop :=
  0 <= escaped st /\ 0 <= not_escaped st /\ 0 <= periodic st
  /\ 0 <= skipped st /\ 0 <= currentPoint st
  /\ currentPoint st <= classified_total st
  /\ classified_total st <= limit
  /\ (flag_seen env st
      \/ (classified_total st = limit /\ currentPoint st = limit)).

(** ** A render that never colours a pixel *)

(** No pixel escaped and the raster is untouched: the colorizer was never
    asked for a pixel. *)
Definition uncoloured `{KompleksType} (st : RenderState) : Prop :=
  escaped st = 0 /\ image st = [].

(** How a part of a render can end when every call of the colorizer throws
    [msg]: with that exception, or normally without having coloured a
    pixel. *)
Definition refused_or_uncoloured `{KompleksType} (msg : string)
    (res : Exc RenderState) : Prop :=
  match res with
  | Val st => uncoloured st
  | Exn m => m = msg
  | Fuel => False
  end.

(** Splits two states into their fields and closes the goals that
    compare them field by field. *)
Ltac same_fields :=
  repeat match goal with
    | st : RenderState |- _ => destruct st
    end;
  unfold same_render, statistics in *; cbn in *;
  repeat match goal with
    | H : _ /\ _ |- _ => destruct H
    | H : (_, _) = (_, _) |- _ => injection H as H; intros
    end;
  subst; repeat split; try reflexivity.

(** * Properties *)

Import XQ.

(** ** The recurrence *)

Section IterateFacts.
Context {KT : KompleksType} {KO : KompleksOps}.
Variable fractal_opt : FractalOptions.

(** Every variant but clouds and oops leaves [c] as it was. *)
Lemma iterate_keeps_c (Zv c : kompleks) (n : Z) :
  type fractal_opt <> clouds -> type fractal_opt <> oops ->
  snd (iterate fractal_opt Zv c n) = c.
Proof.
  intros Hclouds Hoops. unfold iterate.
  destruct (type fractal_opt); try reflexivity; try contradiction.
  destruct (n mod 2 =? 0)%Z; reflexivity.
Qed.

(** C9.  One step of the clouds or oops variant returns
    swap(Z)^e + c, computed with the incoming c, and leaves the incoming Z
    in c; the returned value and c are all the step produces. *)
Theorem iterate_clouds_oops (Zv c : kompleks) (n : Z) :
  type fractal_opt = clouds \/ type fractal_opt = oops ->
  iterate fractal_opt Zv c n
  = (k_add (k_pow (k_swap_xy Zv) (exponent fractal_opt)) c, Zv).
Proof.
  intros [Htype | Htype]; unfold iterate; rewrite Htype; reflexivity.
Qed.

End IterateFacts.

(** The step on exact numbers: swap(1 + 2i)^2 + (3 + 4i) = 6 + 8i. *)
Lemma iterate_clouds_oops_witness :
  let opt := {| type := oops; exponent := xlit 2;
                escape_limit := xlit 4; single := false;
                lbound := xlit (-2); rbound := xlit 2;
                bbound := xlit (-2); ubound := xlit 2;
                juliaA := xlit 0; juliaB := xlit 0 |} in
  let Zv := cplx (xlit 1) (xlit 2) in
  let c := cplx (xlit 3) (xlit 4) in
  iterate opt Zv c 7 = (cplx (xlit 6) (xlit 8), Zv).
Proof.
  intros opt Zv c.
  rewrite (iterate_clouds_oops opt Zv c 7 (or_intror eq_refl)).
  reflexivity.
Defined.

(** ** The colorizer *)

Section ColorizeFacts.
Context {KT : KompleksType} {KO : KompleksOps}.
Variable fractal_opt : FractalOptions.
Variable color_opt : ColorOptions.
Variable rand_after_srand : Z -> nat -> Z.

Local Open Scope ld_scope.

Lemma log_passes_iter (count : nat) (r g b : kompleks_type) :
  log_passes count (r, g, b)
  = (Nat.iter count ld_log r, Nat.iter count ld_log g,
     Nat.iter count ld_log b).
Proof.
  revert r g b. induction count as [|count IH]; intros r g b.
  - reflexivity.
  - cbn [log_passes]. rewrite IH.
    rewrite !Nat.iter_succ_r. reflexivity.
Qed.

Lemma u8_range (z : Z) : (0 <= u8 z <= 255)%Z.
Proof.
  unfold u8, wrap. pose proof (Z.mod_pos_bound z (2 ^ 8) eq_refl). lia.
Qed.

(** The clamp leaves nothing above 255 or below 0, whatever it is given:
    a value that compares neither way round (NaN) passes unchanged. *)
Lemma clamp_range (x : kompleks_type) :
  (of_Z 255 >? of_Z 255) = false ->
  (of_Z 255 <? of_Z 0) = false ->
  (of_Z 0 <? of_Z 0) = false ->
  (clamp x >? of_Z 255) = false /\ (clamp x <? of_Z 0) = false.
Proof.
  intros H1 H2 H3. unfold clamp.
  destruct (x >? of_Z 255) eqn:Hhi.
  - split; assumption.
  - destruct (x <? of_Z 0) eqn:Hlo.
    + split; assumption.
    + split; assumption.
Qed.

(** The infinity sentinel, where it exceeds 255, is clamped to 255. *)
Lemma clamp_INF : (INF >? of_Z 255) = true -> clamp INF = of_Z 255.
Proof. intros H. unfold clamp. rewrite H. reflexivity. Qed.

Lemma finish_channels (color_method : Z) (r g b : kompleks_type) :
  finish color_opt color_method (r, g, b)
  = mk_pixel (to_channel (finished color_opt color_method r))
             (to_channel (finished color_opt color_method g))
             (to_channel (finished color_opt color_method b)).
Proof.
  unfold finish, finished, scaled, apply_multiplier.
  rewrite log_passes_iter.
  destruct (color_method =? 9)%Z; reflexivity.
Qed.

(** Method 0 always yields channels. *)
Lemma method_0_returns (fuel : nat) (fractal : Exc rgb_pixel)
    (Zv c : kompleks) (n : Z) :
  exists ch,
    method_channels fractal_opt color_opt rand_after_srand fuel fractal
      0 Zv c n = Val ch.
Proof.
  unfold method_channels. destruct (smooth color_opt); eexists; reflexivity.
Qed.

Lemma colorize_0_returns (fuel : nat) (Zv c : kompleks) (n : Z) :
  exists px,
    colorize_rec fractal_opt color_opt rand_after_srand 1 fuel 0 Zv c n
    = Val px.
Proof.
  cbn [colorize_rec].
  destruct (method_0_returns fuel Fuel Zv c n) as [ch Hch].
  rewrite Hch. eexists; reflexivity.
Qed.

(** Only the hue method can leave the [switch] without channels: its
    call of HSV2RGB is the one place that can throw or loop. *)
Lemma method_channels_fail (fuel : nat) (m : Z) (Zv c : kompleks) (n : Z) :
  (0 <= m <= 17)%Z ->
  (forall ch,
      method_channels fractal_opt color_opt rand_after_srand fuel
        (colorize_rec fractal_opt color_opt rand_after_srand 1 fuel 0 Zv c n)
        m Zv c n <> Val ch) ->
  m = 15%Z.
Proof.
  intros Hm Hfail.
  destruct (Z.eq_dec m 15) as [|Hne]; [assumption|exfalso].
  destruct (colorize_0_returns fuel Zv c n) as [px Hpx].
  assert (Hcases : (m = 0 \/ m = 1 \/ m = 2 \/ m = 3 \/ m = 4 \/ m = 5
                    \/ m = 6 \/ m = 7 \/ m = 8 \/ m = 9 \/ m = 10 \/ m = 11
                    \/ m = 12 \/ m = 13 \/ m = 14 \/ m = 16 \/ m = 17)%Z)
    by lia.
  revert Hfail. rewrite Hpx. unfold method_channels.
  repeat (destruct Hcases as [-> | Hcases]); try subst m; cbn [bind];
    intros Hfail;
    repeat match goal with
      | H : forall ch, (if ?b then _ else _) <> _ |- _ =>
          destruct b
      end;
    eapply Hfail; reflexivity.
Qed.

Lemma colorize_rec_unfold (depth fuel : nat) (m : Z) (Zv c : kompleks)
    (n : Z) :
  colorize_rec fractal_opt color_opt rand_after_srand (S depth) fuel m Zv c n
  = (ch <- method_channels fractal_opt color_opt rand_after_srand fuel
             (colorize_rec fractal_opt color_opt rand_after_srand depth
                fuel 0 Zv c n) m Zv c n ;;
     ret (finish color_opt m ch))%exc.
Proof. reflexivity. Qed.

(** The pixel method 9 asks for is the one a direct call gives. *)
Lemma colorize_0_nested (fuel : nat) (Zv c : kompleks) (n : Z) :
  colorize fractal_opt color_opt rand_after_srand fuel 0 Zv c n
  = colorize_rec fractal_opt color_opt rand_after_srand 1 fuel 0 Zv c n.
Proof.
  unfold colorize. rewrite !colorize_rec_unfold.
  unfold method_channels. destruct (smooth color_opt); reflexivity.
Qed.

(** The hue method yields channels where the hue is in range. *)
Lemma hue_returns (fuel : nat) (fractal : Exc rgb_pixel) (Zv c : kompleks)
    (n : Z) :
  hue_in_range n = true ->
  exists ch,
    method_channels fractal_opt color_opt rand_after_srand fuel fractal
      15 Zv c n = Val ch.
Proof.
  unfold hue_in_range. intros Hrange.
  apply andb_prop in Hrange. destruct Hrange as [Hrange Hindex].
  apply andb_prop in Hrange. destruct Hrange as [Hlow Hhigh].
  apply negb_true_iff in Hlow, Hhigh. apply Z.leb_le in Hindex.
  unfold method_channels, HSV2RGB. fold (hue n).
  assert (Hup : hsv_wrap_up fuel (hue n) = Val (hue n))
    by (destruct fuel; cbn [hsv_wrap_up]; rewrite Hlow; reflexivity).
  assert (Hdown : hsv_wrap_down fuel (hue n) = Val (hue n))
    by (destruct fuel; cbn [hsv_wrap_down]; rewrite Hhigh; reflexivity).
  rewrite Hup. cbn [bind]. rewrite Hdown. cbn [bind].
  pose proof (u8_range (to_int (hue n * of_Z 6))) as Hpos.
  destruct (u8 (to_int (hue n * of_Z 6))) as [|p|p]; [| |lia].
  - eexists. reflexivity.
  - do 3 (try (destruct p as [p|p|]; try lia));
      eexists; reflexivity.
Qed.

(** The channel of the specification is the one the code computes. *)
Lemma finished_spec (m : Z) (x : kompleks_type) :
  finished color_opt m x = spec_clamped color_opt m x.
Proof.
  unfold finished, scaled, clamp, spec_clamped.
  destruct (m =? 9)%Z; reflexivity.
Qed.

Lemma to_channel_spec (m : Z) (x : kompleks_type) :
  to_channel (finished color_opt m x) = spec_channel color_opt m x.
Proof. unfold to_channel, spec_channel. rewrite finished_spec. reflexivity. Qed.

(** C6.  For every method 0..17 and every input, the method's formula
    yields channels (r, g, b) and the colorizer returns the pixel whose
    channels are, for x = r, g and b: x after exactly c_log passes of the
    logarithm (no value is rejected), multiplied by the multiplier unless
    the method is 9, replaced by 255 if it is above 255 and otherwise by 0
    if it is below 0 and otherwise left as it is, then rounded
    (std::round) and held in 8 bits.  Each clamped channel is neither above
    255 nor below 0, also where it held the infinity sentinel, and each
    final value lies in 0..255.  Of the arithmetic this takes that
    255 > 255, 255 < 0 and 0 < 0 are false and, for the hue method 15, that
    the hue is in range. *)
Theorem colorize_pipeline (fuel : nat) (m : Z) (Zv c : kompleks) (n : Z) :
  (of_Z 255 >? of_Z 255) = false ->
  (of_Z 255 <? of_Z 0) = false ->
  (of_Z 0 <? of_Z 0) = false ->
  (0 <= m <= 17)%Z ->
  (m = 15%Z -> hue_in_range n = true) ->
  exists r g b,
    method_channels fractal_opt color_opt rand_after_srand fuel
      (colorize fractal_opt color_opt rand_after_srand fuel 0 Zv c n)
      m Zv c n = Val (r, g, b)
    /\ colorize fractal_opt color_opt rand_after_srand fuel m Zv c n
       = Val (mk_pixel (spec_channel color_opt m r)
                       (spec_channel color_opt m g)
                       (spec_channel color_opt m b))
    /\ (forall x,
          (spec_clamped color_opt m x >? of_Z 255) = false
          /\ (spec_clamped color_opt m x <? of_Z 0) = false
          /\ (0 <= spec_channel color_opt m x <= 255)%Z).
Proof.
  intros H1 H2 H3 Hm Hhue.
  rewrite colorize_0_nested.
  assert (Hcol :
    colorize fractal_opt color_opt rand_after_srand fuel m Zv c n
    = (ch <- method_channels fractal_opt color_opt rand_after_srand fuel
               (colorize_rec fractal_opt color_opt rand_after_srand 1
                  fuel 0 Zv c n) m Zv c n ;;
       ret (finish color_opt m ch))%exc).
  { unfold colorize. apply colorize_rec_unfold. }
  rewrite Hcol.
  assert (Hreturns : exists ch,
    method_channels fractal_opt color_opt rand_after_srand fuel
      (colorize_rec fractal_opt color_opt rand_after_srand 1 fuel 0 Zv c n)
      m Zv c n = Val ch).
  { destruct (Z.eq_dec m 15) as [->|Hother].
    - apply hue_returns. apply Hhue. reflexivity.
    - destruct (method_channels fractal_opt color_opt rand_after_srand fuel
                  (colorize_rec fractal_opt color_opt rand_after_srand 1
                     fuel 0 Zv c n) m Zv c n) as [ch|msg|] eqn:Hch.
      + exists ch. reflexivity.
      + exfalso. apply Hother.
        apply (method_channels_fail fuel m Zv c n Hm).
        intros ch. rewrite Hch. discriminate.
      + exfalso. apply Hother.
        apply (method_channels_fail fuel m Zv c n Hm).
        intros ch. rewrite Hch. discriminate. }
  destruct Hreturns as [[[r g] b] Hch]. rewrite Hch.
  exists r, g, b. split; [reflexivity|]. split.
  - cbn [bind ret]. rewrite finish_channels, !to_channel_spec. reflexivity.
  - intros x. rewrite <- finished_spec.
    destruct (clamp_range
      (scaled color_opt m (Nat.iter (c_log color_opt) ld_log x)) H1 H2 H3)
      as [Hhi Hlo].
    split; [exact Hhi|]. split; [exact Hlo|].
    unfold spec_channel. apply u8_range.
Qed.

End ColorizeFacts.

(** The pipeline on exact numbers.  Method 2 at Z = 0 puts the infinity
    sentinel in the blue channel, which leaves the colorizer as 255.  The
    binary method has 255 in every channel: with the multiplier 1/102 that
    is 2.5, inside the clamp, and rounds to 3; with 4/425 it is 2.4 and
    rounds to 2.  Method 11 at Z = 1 + i has 1 in every channel: one
    logarithm makes it 0, which the multiplier 5/2 leaves at 0; a second
    logarithm makes it minus infinity, which the multiplier -1 turns into
    plus infinity and the clamp into 255.  Method 9 at Z = 2 + i with the
    multiplier 1/2 and n = 0: its formula, which multiplies by 1/2 itself,
    comes to 10, 4 and 3, and the multiplier is not applied again. *)
Lemma colorize_pipeline_witness :
  let options := fun color_method mult logs =>
    {| method := color_method; smooth := false; disable_fancy := false;
       multiplier := xlit mult; c_log := logs |} in
  let one_i := cplx (xlit 1) (xlit 1) in
  let two_i := cplx (xlit 2) (xlit 1) in
  colorize default_fractal default_color rand_model 0 2
    kompleks_zero kompleks_zero 0
  = Val (mk_pixel 0 0 255)
  /\ colorize default_fractal (options 12 (1 # 102)%Q 0%nat) rand_model 0 12
       kompleks_zero kompleks_zero 0
     = Val (mk_pixel 3 3 3)
  /\ colorize default_fractal (options 12 (4 # 425)%Q 0%nat) rand_model 0 12
       kompleks_zero kompleks_zero 0
     = Val (mk_pixel 2 2 2)
  /\ colorize default_fractal (options 11 (5 # 2)%Q 1%nat) rand_model 0 11
       one_i kompleks_zero 0
     = Val (mk_pixel 0 0 0)
  /\ colorize default_fractal (options 11 (-1)%Q 2%nat) rand_model 0 11
       one_i kompleks_zero 0
     = Val (mk_pixel 255 255 255)
  /\ colorize default_fractal (options 9 (1 # 2)%Q 0%nat) rand_model 0 9
       two_i kompleks_zero 0
     = Val (mk_pixel 10 4 3).
Proof.
  intros options one_i two_i.
  assert (Hhue : forall m n, (m =? 15)%Z = false ->
                             m = 15%Z -> hue_in_range n = true)
    by (intros m n Hne Hm; rewrite Hm in Hne; discriminate Hne).
  refine (conj _ (conj _ (conj _ (conj _ (conj _ _))))).
  - destruct (colorize_pipeline default_fractal default_color rand_model
                0%nat 2 kompleks_zero kompleks_zero 0
                eq_refl eq_refl eq_refl ltac:(lia) (Hhue 2 0 eq_refl))
      as [r [g [b [Hch [Hcol _]]]]].
    vm_compute in Hch. injection Hch as <- <- <-. rewrite Hcol.
    vm_compute. reflexivity.
  - destruct (colorize_pipeline default_fractal (options 12 (1 # 102)%Q 0%nat)
                rand_model 0%nat 12 kompleks_zero kompleks_zero 0
                eq_refl eq_refl eq_refl ltac:(lia) (Hhue 12 0 eq_refl))
      as [r [g [b [Hch [Hcol _]]]]].
    vm_compute in Hch. injection Hch as <- <- <-. rewrite Hcol.
    vm_compute. reflexivity.
  - destruct (colorize_pipeline default_fractal (options 12 (4 # 425)%Q 0%nat)
                rand_model 0%nat 12 kompleks_zero kompleks_zero 0
                eq_refl eq_refl eq_refl ltac:(lia) (Hhue 12 0 eq_refl))
      as [r [g [b [Hch [Hcol _]]]]].
    vm_compute in Hch. injection Hch as <- <- <-. rewrite Hcol.
    vm_compute. reflexivity.
  - destruct (colorize_pipeline default_fractal (options 11 (5 # 2)%Q 1%nat)
                rand_model 0%nat 11 one_i kompleks_zero 0
                eq_refl eq_refl eq_refl ltac:(lia) (Hhue 11 0 eq_refl))
      as [r [g [b [Hch [Hcol _]]]]].
    vm_compute in Hch. injection Hch as <- <- <-. rewrite Hcol.
    vm_compute. reflexivity.
  - destruct (colorize_pipeline default_fractal (options 11 (-1)%Q 2%nat)
                rand_model 0%nat 11 one_i kompleks_zero 0
                eq_refl eq_refl eq_refl ltac:(lia) (Hhue 11 0 eq_refl))
      as [r [g [b [Hch [Hcol _]]]]].
    vm_compute in Hch. injection Hch as <- <- <-. rewrite Hcol.
    vm_compute. reflexivity.
  - destruct (colorize_pipeline default_fractal (options 9 (1 # 2)%Q 0%nat)
                rand_model 0%nat 9 two_i kompleks_zero 0
                eq_refl eq_refl eq_refl ltac:(lia) (Hhue 9 0 eq_refl))
      as [r [g [b [Hch [Hcol _]]]]].
    vm_compute in Hch. injection Hch as <- <- <-. rewrite Hcol.
    vm_compute. reflexivity.
Defined.

(** ** The seeding of a pixel *)

Section SeedingFacts.
Context {KT : KompleksType} {KO : KompleksOps}.
Variable fractal_opt : FractalOptions.
Variable color_opt : ColorOptions.
Variable rand_after_srand : Z -> nat -> Z.
Variable fuel : nat.
Variables width_px height_px max_iterations pCheckN : Z.
Variable env : Env.

Lemma fill_repeat (w : list kompleks) (Zv : kompleks) :
  fill w Zv = List.repeat Zv (List.length w).
Proof.
  unfold fill. induction w as [|v w IH]; [reflexivity|].
  cbn [List.map List.length List.repeat]. rewrite IH. reflexivity.
Qed.

(** C10.  A pixel that is not skipped enters the iteration loop at n = 0
    with Z zero for the mandelbrot and clouds variants and the pixel's
    point (x, y) for every other variant (oops among them), with c the
    Julia constant for the julia variant and the point for every other, and
    in a state whose window has the length it had and holds that initial Z
    in every entry, whatever it held before; the counters and the raster
    are as they were before the pixel. *)
Theorem pixel_seeding (pX pY : Z) (st : RenderState) :
  let x := pixel_x fractal_opt width_px pX in
  let y := pixel_y fractal_opt height_px pY in
  let Z0 :=
    match type fractal_opt with
    | mandelbrot | clouds => kompleks_zero
    | _ => mk_kompleks x y
    end in
  let c0 :=
    match type fractal_opt with
    | julia => mk_kompleks (juliaA fractal_opt) (juliaB fractal_opt)
    | _ => mk_kompleks x y
    end in
  can_skip fractal_opt x y = false ->
  exists entry,
    pixel fractal_opt color_opt rand_after_srand fuel width_px height_px
      max_iterations pCheckN env pX pY st
    = iteration_loop fractal_opt color_opt rand_after_srand fuel
        max_iterations pCheckN env (S (Z.to_nat max_iterations)) 0 pX pY
        Z0 c0 entry
    /\ pCheck entry = List.repeat Z0 (List.length (pCheck st))
    /\ (forall z, In z (pCheck entry) -> z = Z0)
    /\ statistics entry = statistics st.
Proof.
  intros x y Z0 c0 Hskip. unfold pixel. fold x. fold y. rewrite Hskip.
  replace (initial_Z fractal_opt x y) with Z0
    by (unfold initial_Z, Z0; destruct (type fractal_opt); reflexivity).
  replace (initial_c fractal_opt x y) with c0
    by (unfold initial_c, c0; destruct (type fractal_opt); reflexivity).
  eexists. split; [reflexivity|].
  assert (Hwindow :
    pCheck (with_pCheck (fill (pCheck (tick width_px height_px env st)) Z0)
              (tick width_px height_px env st))
    = List.repeat Z0 (List.length (pCheck st)))
    by (cbn [with_pCheck pCheck tick]; apply fill_repeat).
  split; [exact Hwindow|]. split.
  - intros z Hin. rewrite Hwindow in Hin.
    apply List.repeat_spec in Hin. exact Hin.
  - reflexivity.
Qed.

End SeedingFacts.

(** The seeding on exact numbers: the oops variant at the pixel whose
    centre is (-1, 1) starts from Z = c = (-1, 1), where clouds would start
    from Z = 0; the window of two entries, which held zeros, holds (-1, 1)
    twice. *)
Lemma pixel_seeding_witness :
  let opt := {| type := oops; exponent := xlit 2;
                escape_limit := xlit 4; single := false;
                lbound := xlit (-2); rbound := xlit 2;
                bbound := xlit (-2); ubound := xlit 2;
                juliaA := xlit (-0.8); juliaB := xlit 0.156 |} in
  let st := initial_state 2 quiet in
  let point := cplx (xlit (-1)) (xlit 1) in
  pCheck st = [kompleks_zero; kompleks_zero]
  /\ exists entry,
       pixel opt default_color rand_model 0 2 2 50 2 quiet 0 0 st
       = iteration_loop opt default_color rand_model 0 50 2 quiet 51 0 0 0
           point point entry
       /\ pCheck entry = [point; point].
Proof.
  intros opt st point. split; [reflexivity|].
  destruct (pixel_seeding opt default_color rand_model 0%nat 2 2 50 2 quiet
              0 0 st eq_refl) as [entry [Hpixel [Hwindow _]]].
  exists entry. split; [exact Hpixel|].
  rewrite Hwindow. reflexivity.
Defined.

(** ** The classifier *)

Section ClassifierFacts.
Context {KT : KompleksType} {KO : KompleksOps}.
Variable fractal_opt : FractalOptions.
Variable color_opt : ColorOptions.
Variable rand_after_srand : Z -> nat -> Z.
Variable fuel : nat.
Variables max_iterations pCheckN : Z.
Variable env : Env.
Variables pX pY : Z.

Hypothesis normal_mode : single fractal_opt = false.
Hypothesis never_cancelled : forall k, cancel env k = false.
Hypothesis budget : (0 <= max_iterations)%Z.

Local Abbreviation loop :=
  (iteration_loop fractal_opt color_opt rand_after_srand fuel
     max_iterations pCheckN env).
Local Abbreviation orbit_of := (orbit fractal_opt pCheckN).
Local Abbreviation state_at := (running fractal_opt pCheckN env).
Local Abbreviation escapes := (escapes_at fractal_opt pCheckN).
Local Abbreviation matches := (match_at fractal_opt pCheckN).

Lemma with_pCheck_same (st : RenderState) : with_pCheck (pCheck st) st = st.
Proof. destruct st; reflexivity. Qed.

Lemma pCheck_incr_run (st : RenderState) : pCheck (incr_run st) = pCheck st.
Proof. reflexivity. Qed.

Lemma poll_quiet (st : RenderState) : fst (poll env st) = false.
Proof. unfold poll. cbn [fst]. apply never_cancelled. Qed.

(** The window of the state at index [k] is the orbit's window. *)
Lemma state_at_window (st : RenderState) (Zv c : kompleks) (k : nat) :
  pCheck (state_at st (mk_orbit Zv c (pCheck st)) k)
  = orbit_window (orbit_of (mk_orbit Zv c (pCheck st)) k).
Proof. destruct k; reflexivity. Qed.

(** In normal mode the test at the head of the body is the escape
    comparison, made for n > 0 only. *)
Lemma escape_test_normal (o : Orbit) (k : nat) :
  escape_test fractal_opt max_iterations (orbit_Z (orbit_of o k))
    (Z.of_nat k)
  = escapes o k && (Z.of_nat k >? 0)%Z.
Proof.
  unfold escape_test, escapes_at. rewrite normal_mode. reflexivity.
Qed.

(** A pass through the body in which nothing ends the loop. *)
Lemma loop_advance (count k : nat) (st : RenderState) (Zv c : kompleks) :
  let o := mk_orbit Zv c (pCheck st) in
  (Z.of_nat k < max_iterations)%Z ->
  escapes o k && (Z.of_nat k >? 0)%Z = false ->
  matches o k = None ->
  loop (S (S count)) (Z.of_nat k) pX pY (orbit_Z (orbit_of o k))
    (orbit_c (orbit_of o k)) (state_at st o k)
  = loop (S count) (Z.of_nat (S k)) pX pY (orbit_Z (orbit_of o (S k)))
      (orbit_c (orbit_of o (S k))) (state_at st o (S k)).
Proof.
  intros o Hlt Hesc Hmatch.
  cbn [iteration_loop]. rewrite escape_test_normal, Hesc.
  replace (Z.of_nat k =? max_iterations)%Z with false
    by (symmetry; apply Z.eqb_neq; lia).
  unfold match_at in Hmatch.
  cbn [orbit running]. unfold orbit_step.
  destruct (iterate fractal_opt (orbit_Z (orbit_of o k))
              (orbit_c (orbit_of o k)) (Z.of_nat k)) as [Z' c'] eqn:Hit.
  cbn [orbit] in Hmatch. unfold orbit_step in Hmatch.
  rewrite Hit in Hmatch. cbn [orbit_Z] in Hmatch.
  fold (detecting fractal_opt pCheckN).
  rewrite pCheck_incr_run. unfold o. rewrite state_at_window. fold o.
  cbn [orbit_Z orbit_c orbit_window].
  destruct (detecting fractal_opt pCheckN) eqn:Hdet.
  - rewrite Hmatch.
    destruct (poll env (with_pCheck (tl (orbit_window (orbit_of o k)) ++ [Z'])
                          (incr_run (state_at st o k))))
      as [cancelled st3] eqn:Hpoll.
    pose proof (poll_quiet (with_pCheck
                  (tl (orbit_window (orbit_of o k)) ++ [Z'])
                  (incr_run (state_at st o k)))) as Hq.
    rewrite Hpoll in Hq. cbn [fst] in Hq. subst cancelled.
    cbn [snd]. replace (Z.of_nat k + 1)%Z with (Z.of_nat (S k)) by lia.
    reflexivity.
  - assert (Hsame :
      with_pCheck (orbit_window (orbit_of o k)) (incr_run (state_at st o k))
      = incr_run (state_at st o k)).
    { rewrite <- (with_pCheck_same (incr_run (state_at st o k))) at 2.
      rewrite pCheck_incr_run. unfold o. rewrite state_at_window.
      reflexivity. }
    rewrite Hsame.
    destruct (poll env (incr_run (state_at st o k)))
      as [cancelled st3] eqn:Hpoll.
    pose proof (poll_quiet (incr_run (state_at st o k))) as Hq.
    rewrite Hpoll in Hq. cbn [fst] in Hq. subst cancelled.
    cbn [snd]. replace (Z.of_nat k + 1)%Z with (Z.of_nat (S k)) by lia.
    reflexivity.
Qed.

(** The loop reaches every index before which nothing ended it. *)
Lemma loop_reaches (n : nat) (st : RenderState) (Zv c : kompleks) :
  let o := mk_orbit Zv c (pCheck st) in
  (Z.of_nat n <= max_iterations)%Z ->
  (forall k, (0 < k < n)%nat -> escapes o k = false) ->
  (forall k, (k < n)%nat -> matches o k = None) ->
  loop (S (Z.to_nat max_iterations)) 0 pX pY Zv c st
  = loop (S (Z.to_nat max_iterations - n)) (Z.of_nat n) pX pY
      (orbit_Z (orbit_of o n)) (orbit_c (orbit_of o n)) (state_at st o n).
Proof.
  intros o. induction n as [|n IH]; intros Hle Hesc Hmatch.
  - rewrite Nat.sub_0_r. reflexivity.
  - rewrite IH by (try lia; intros k Hk; first [apply Hesc | apply Hmatch]; lia).
    replace (Z.to_nat max_iterations - n)%nat
      with (S (Z.to_nat max_iterations - S n)) by lia.
    apply loop_advance.
    + lia.
    + destruct n as [|n].
      * apply andb_false_r.
      * rewrite Hesc by lia. reflexivity.
    + apply Hmatch. lia.
Qed.


End ClassifierFacts.


(** ** The fixed point at c = 0 *)

Section FixedPointFacts.
Context {KT : KompleksType} {KO : KompleksOps}.
Variable fractal_opt : FractalOptions.
Variable color_opt : ColorOptions.
Variable rand_after_srand : Z -> nat -> Z.
Variable fuel : nat.
Variables width_px height_px max_iterations pCheckN : Z.
Variable env : Env.
Variables pX pY : Z.

Hypothesis is_mandelbrot : type fractal_opt = mandelbrot.
Hypothesis exponent_2 : exponent fractal_opt = of_Z 2.
Hypothesis normal_mode : single fractal_opt = false.
Hypothesis window_size : (1 <= pCheckN)%Z.
Hypothesis budget : (1 <= max_iterations)%Z.

(** What the arithmetic has to give: 0^2 + 0 is 0, and 0 equals 0. *)
Hypothesis zero_fixed :
  k_add (k_pow kompleks_zero (of_Z 2)) kompleks_zero = kompleks_zero.
Hypothesis zero_equal : k_eqb kompleks_zero kompleks_zero = true.

Lemma iterate_zero (n : Z) :
  iterate fractal_opt kompleks_zero kompleks_zero n
  = (kompleks_zero, kompleks_zero).
Proof.
  unfold iterate. rewrite is_mandelbrot, exponent_2, zero_fixed.
  reflexivity.
Qed.

Lemma orbit_zero (w : list kompleks) (k : nat) :
  orbit_Z (orbit fractal_opt pCheckN
             (mk_orbit kompleks_zero kompleks_zero w) k) = kompleks_zero
  /\ orbit_c (orbit fractal_opt pCheckN
                (mk_orbit kompleks_zero kompleks_zero w) k) = kompleks_zero.
Proof.
  induction k as [|k [IHZ IHc]].
  - split; reflexivity.
  - cbn [orbit]. unfold orbit_step. rewrite IHZ, IHc, iterate_zero.
    split; reflexivity.
Qed.

(** The loop on the fixed point: Periodic in the first pass. *)
Lemma loop_fixed_point (w : nat) (st : RenderState) :
  pCheck st = List.repeat kompleks_zero (S w) ->
  iteration_loop fractal_opt color_opt rand_after_srand fuel
    max_iterations pCheckN env (S (Z.to_nat max_iterations)) 0 pX pY
    kompleks_zero kompleks_zero st
  = Val (record_periodic (Z.of_nat (S w)) 0 (incr_run st)).
Proof.
  intros Hwindow.
  cbn [iteration_loop]. unfold escape_test. rewrite normal_mode.
  cbn [andb orb negb]. rewrite andb_false_r.
  replace (0 =? max_iterations)%Z with false
    by (symmetry; apply Z.eqb_neq; lia).
  rewrite iterate_zero.
  replace (pCheckN >? 0)%Z with true by (symmetry; apply Z.gtb_lt; lia).
  rewrite pCheck_incr_run, Hwindow.
  rewrite List.repeat_length.
  cbn [List.repeat find_kompleks]. rewrite zero_equal.
  rewrite Nat.sub_0_r. reflexivity.
Qed.

(** C5, as the code has it.  For the mandelbrot variant with exponent 2
    in normal mode, a pixel whose point is c = (0, 0), a window of at least
    one entry and a budget of at least one iteration: the orbit is 0 at
    every step.  If can_skip does not take the pixel, the classifier ends
    Periodic in its first pass, at loop index n = 0, after one application
    of the recurrence: the value it produced matches the first entry of the
    window, which was filled with zeros, so the match distance is the
    window's length.  If can_skip takes the pixel, the classifier is not
    run: the pixel is counted as skipped and no period is recorded. *)
Theorem fixed_point_periodic (w : nat) (st : RenderState) :
  pixel_x fractal_opt width_px pX = lit 0%Q ->
  pixel_y fractal_opt height_px pY = lit 0%Q ->
  List.length (pCheck st) = S w ->
  (forall k,
      orbit_Z (orbit fractal_opt pCheckN
                 (mk_orbit kompleks_zero kompleks_zero
                    (List.repeat kompleks_zero (S w))) k)
      = kompleks_zero)
  /\ (can_skip fractal_opt (lit 0%Q) (lit 0%Q) = false ->
      pixel fractal_opt color_opt rand_after_srand fuel width_px height_px
        max_iterations pCheckN env pX pY st
      = Val (record_periodic (Z.of_nat (S w)) 0
               (incr_run
                  (with_pCheck (List.repeat kompleks_zero (S w))
                     (tick width_px height_px env st)))))
  /\ (can_skip fractal_opt (lit 0%Q) (lit 0%Q) = true ->
      pixel fractal_opt color_opt rand_after_srand fuel width_px height_px
        max_iterations pCheckN env pX pY st
      = Val (incr_skipped (tick width_px height_px env st))).
Proof.
  intros Hx Hy Hwindow. split; [|split].
  - intros k. apply orbit_zero.
  - intros Hskip. unfold pixel. rewrite Hx, Hy, Hskip.
    unfold initial_Z, initial_c. rewrite is_mandelbrot.
    cbn [FractalType_eqb negb andb]. fold kompleks_zero.
    rewrite fill_repeat. cbn [tick pCheck]. rewrite Hwindow.
    apply loop_fixed_point. reflexivity.
  - intros Hskip. unfold pixel. rewrite Hx, Hy, Hskip. reflexivity.
Qed.

End FixedPointFacts.

(** The fixed point on exact numbers, with an escape limit of 8 so that
    the pixel is not skipped; the raster is one pixel on the square from -2
    to 2, whose centre is (0, 0): one pass, one iteration counted, and the
    loop index recorded for the period is 0. *)
Lemma fixed_point_periodic_witness :
  pixel wide_fractal default_color rand_model 0 1 1 5 1 quiet 0 0
    (initial_state 1 quiet)
  = Val (mk_state 1 0 0 0 1 0 1 0 0 [] [kompleks_zero] 0 [] 2 0).
Proof.
  assert (Hwindow : (1 <= 1)%Z) by lia.
  assert (Hbudget : (1 <= 5)%Z) by lia.
  assert (Hfixed :
    k_add (k_pow kompleks_zero (of_Z 2)) kompleks_zero = kompleks_zero)
    by (vm_compute; reflexivity).
  assert (Hequal : k_eqb kompleks_zero kompleks_zero = true)
    by (vm_compute; reflexivity).
  destruct (fixed_point_periodic wide_fractal default_color rand_model
              0%nat 1 1 5 1 quiet 0 0 eq_refl eq_refl eq_refl Hwindow
              Hbudget Hfixed Hequal 0%nat (initial_state 1 quiet)
              eq_refl eq_refl eq_refl)
    as [_ [Hloop _]].
  rewrite Hloop by reflexivity. vm_compute. reflexivity.
Defined.

(** C5 as stated fails.  With an escape limit of 8 the render of the one
    pixel at c = (0, 0) ends Periodic, but at loop index 0 and in one pass
    of the loop: the recorded index max_period_n is 0 and one pass was
    counted, where a period found at n = 1 takes two passes and records 1.
    With the default escape limit of 4 the classifier is not run on the
    point at all: can_skip takes it, and the render counts one skipped
    pixel and no periodic one. *)
Lemma fixed_point_not_at_1 :
  outcome (createFractal wide_fractal default_color rand_model 0
             1 1 5 1 quiet)
  = Val ((1, 0, 0, 0, 1, 0, 1, 0, 1, []), false, false)%Z
  /\ outcome (createFractal default_fractal default_color rand_model 0
                1 1 5 1 quiet)
     = Val ((0, 0, 0, 1, 0, 0, 0, 0, 1, []), false, false)%Z.
Proof. split; vm_compute; reflexivity. Qed.

(** ** The outcome counts of a render that is not cancelled *)

Section CountFacts.
Context {KT : KompleksType} {KO : KompleksOps}.
Variable fractal_opt : FractalOptions.
Variable color_opt : ColorOptions.
Variable rand_after_srand : Z -> nat -> Z.
Variable fuel : nat.
Variables width_px height_px max_iterations pCheckN : Z.
Variable env : Env.

Hypothesis width_range : (0 <= width_px < 2 ^ 32)%Z.
Hypothesis height_range : (0 <= height_px < 2 ^ 32)%Z.
Hypothesis budget : (0 <= max_iterations)%Z.
Hypothesis never_cancelled : forall k, cancel env k = false.

Local Abbreviation loop :=
  (iteration_loop fractal_opt color_opt rand_after_srand fuel
     max_iterations pCheckN env).
Local Abbreviation pixel_of :=
  (pixel fractal_opt color_opt rand_after_srand fuel width_px height_px
     max_iterations pCheckN env).
Local Abbreviation columns :=
  (column_loop fractal_opt color_opt rand_after_srand fuel width_px
     height_px max_iterations pCheckN env).
Local Abbreviation rows :=
  (row_loop fractal_opt color_opt rand_after_srand fuel width_px
     height_px max_iterations pCheckN env).

Lemma classified_once_from (a b st' : RenderState) :
  same_counts a b -> classified_once b st' -> classified_once a st'.
Proof.
  unfold same_counts, classified_once.
  intros (-> & -> & -> & -> & ->) H. exact H.
Qed.

(** The iteration loop, entered at an index within the budget, ends with
    one classification. *)
Lemma loop_classifies (pX pY : Z) (count : nat) :
  forall (n : Z) (Zv c : kompleks) (st st' : RenderState),
    (0 <= n <= max_iterations)%Z ->
    count = S (Z.to_nat (max_iterations - n)) ->
    loop count n pX pY Zv c st = Val st' ->
    classified_once st st'.
Proof.
  induction count as [|count IH]; intros n Zv c st st' Hn Hcount Hloop.
  - discriminate Hcount.
  - cbn [iteration_loop] in Hloop.
    destruct (escape_test fractal_opt max_iterations Zv n).
    + destruct (colorize fractal_opt color_opt rand_after_srand fuel
                  (method color_opt) Zv c n) as [px|msg|];
        cbn [bind ret] in Hloop; try discriminate Hloop.
      injection Hloop as <-.
      split; [reflexivity|]. left. repeat split.
    + destruct (n =? max_iterations)%Z eqn:Hlast.
      * injection Hloop as <-.
        split; [reflexivity|]. right; left. repeat split.
      * apply Z.eqb_neq in Hlast.
        destruct (iterate fractal_opt Zv c n) as [Z' c'].
        destruct (negb (single fractal_opt) && (pCheckN >? 0)%Z).
        -- destruct (find_kompleks Z' (pCheck (incr_run st))) as [i|].
           ++ injection Hloop as <-.
              split; [reflexivity|]. right; right; left. repeat split.
           ++ unfold poll in Hloop. rewrite never_cancelled in Hloop.
              apply IH in Hloop; [|lia|lia].
              eapply classified_once_from; [|exact Hloop].
              repeat split.
        -- unfold poll in Hloop. rewrite never_cancelled in Hloop.
           apply IH in Hloop; [|lia|lia].
           eapply classified_once_from; [|exact Hloop].
           repeat split.
Qed.

(** Every pixel gets exactly one classification. *)
Lemma pixel_classifies (pX pY : Z) (st st' : RenderState) :
  pixel_of pX pY st = Val st' -> classified_once st st'.
Proof.
  unfold pixel. intros Hpixel.
  destruct (can_skip fractal_opt (pixel_x fractal_opt width_px pX)
              (pixel_y fractal_opt height_px pY)).
  - injection Hpixel as <-.
    split; [reflexivity|]. right; right; right. repeat split.
  - apply loop_classifies in Hpixel; [|lia|f_equal; f_equal; lia].
    eapply classified_once_from; [|exact Hpixel]. repeat split.
Qed.

Lemma u64_small (z : Z) : (0 <= z < 2 ^ 64)%Z -> u64 z = z.
Proof. intros Hz. unfold u64, wrap. apply Z.mod_small. exact Hz. Qed.

(** One more pixel counted. *)
Lemma counted_step (st st' : RenderState) (done : Z) :
  (0 <= done)%Z -> (done + 1 < 2 ^ 64)%Z ->
  counted st done -> classified_once st st' ->
  counted (incr_currentPoint st') (done + 1).
Proof.
  unfold counted, classified_once, classified_total.
  intros Hdone Hroom (He & Hne & Hp & Hs & Htotal & Hcur) [Hcur' Hone].
  cbn [incr_currentPoint escaped not_escaped periodic skipped currentPoint].
  rewrite Hcur', Hcur, (u64_small (done + 1)) by lia.
  destruct Hone as [(-> & -> & -> & ->) | [(-> & -> & -> & ->)
                   | [(-> & -> & -> & ->) | (-> & -> & -> & ->)]]];
    rewrite u64_small by lia; repeat split; lia.
Qed.

Lemma columns_counted (pY : Z) (count : nat) :
  forall (pX : Z) (st st' : RenderState) (done : Z),
    (0 <= done)%Z -> (done + Z.of_nat count < 2 ^ 64)%Z ->
    counted st done ->
    columns count pX pY st = Val st' ->
    counted st' (done + Z.of_nat count).
Proof.
  induction count as [|count IH]; intros pX st st' done Hdone Hroom Hst Hrun.
  - injection Hrun as <-. rewrite Z.add_0_r. exact Hst.
  - cbn [column_loop] in Hrun.
    destruct (pixel_of pX pY st) as [st1|msg|] eqn:Hpixel;
      cbn [bind] in Hrun; try discriminate Hrun.
    unfold poll in Hrun. rewrite never_cancelled in Hrun.
    apply pixel_classifies in Hpixel.
    apply (IH _ _ _ (done + 1)%Z) in Hrun.
    + replace (done + Z.of_nat (S count))%Z
        with (done + 1 + Z.of_nat count)%Z by lia.
      exact Hrun.
    + lia.
    + lia.
    + assert (Hnext : counted (incr_currentPoint st1) (done + 1))
        by (apply (counted_step st st1 done); [lia|lia|exact Hst|exact Hpixel]).
      exact Hnext.
Qed.

Lemma rows_counted (count : nat) :
  forall (pY : Z) (st st' : RenderState) (done : Z),
    (0 <= done)%Z ->
    (done + Z.of_nat count * width_px < 2 ^ 64)%Z ->
    counted st done ->
    rows count pY st = Val st' ->
    counted st' (done + Z.of_nat count * width_px).
Proof.
  induction count as [|count IH]; intros pY st st' done Hdone Hroom Hst Hrun.
  - injection Hrun as <-. rewrite Z.mul_0_l, Z.add_0_r. exact Hst.
  - cbn [row_loop] in Hrun.
    destruct (columns (Z.to_nat width_px) 0 pY st) as [st1|msg|] eqn:Hrow;
      cbn [bind] in Hrun; try discriminate Hrun.
    apply (columns_counted pY _ _ _ _ done) in Hrow; [|lia|nia|exact Hst].
    rewrite Z2Nat.id in Hrow by lia.
    apply (IH _ _ _ (done + width_px)%Z) in Hrun; [|lia|nia|exact Hrow].
    replace (done + Z.of_nat (S count) * width_px)%Z
      with (done + width_px + Z.of_nat count * width_px)%Z by nia.
    exact Hrun.
Qed.

(** C3.  In a render that runs to completion with the flag never set,
    every pixel is given exactly one classification (one of the four
    counters goes up by one in it), and at the end
    escaped + not_escaped + periodic + skipped = width_px * height_px, which
    is also [currentPoint], so the program's own check finds no bug. *)
Theorem outcome_count :
  (forall pX pY st st',
      pixel_of pX pY st = Val st' -> classified_once st st')
  /\ (forall r,
        createFractal fractal_opt color_opt rand_after_srand fuel width_px
          height_px max_iterations pCheckN env = Val r ->
        (escaped (final r) + not_escaped (final r) + periodic (final r)
         + skipped (final r) = width_px * height_px)%Z
        /\ currentPoint (final r) = (width_px * height_px)%Z
        /\ bug_reported r = false).
Proof.
  split; [exact pixel_classifies|].
  intros r Hrender. unfold createFractal in Hrender.
  destruct (rows (Z.to_nat height_px) 0 (initial_state pCheckN env))
    as [st|msg|] eqn:Hrows; cbn [bind ret] in Hrender;
    try discriminate Hrender.
  injection Hrender as <-. cbn [final bug_reported].
  apply (rows_counted _ _ _ _ 0%Z) in Hrows.
  - rewrite Z2Nat.id, Z.add_0_l in Hrows by lia.
    destruct Hrows as (He & Hne & Hp & Hs & Htotal & Hcur).
    unfold classified_total in Htotal.
    rewrite Htotal, Hcur, (Z.mul_comm width_px height_px).
    split; [reflexivity|]. split; [reflexivity|].
    rewrite u64_small by nia. rewrite Z.eqb_refl. reflexivity.
  - lia.
  - rewrite Z2Nat.id by lia. nia.
  - unfold counted, classified_total, initial_state.
    cbn. repeat split; lia.
Qed.

Section Completion.
Hypothesis method_known : (0 <= method color_opt <= 17)%Z.
Hypothesis method_not_hue : method color_opt <> 15%Z.

(** Every method but the hue method returns a pixel. *)
Lemma colorize_returns (Zv c : kompleks) (n : Z) :
  exists px,
    colorize fractal_opt color_opt rand_after_srand fuel (method color_opt)
      Zv c n = Val px.
Proof.
  unfold colorize. rewrite colorize_rec_unfold.
  destruct (method_channels fractal_opt color_opt rand_after_srand fuel
              (colorize_rec fractal_opt color_opt rand_after_srand 1 fuel 0
                 Zv c n) (method color_opt) Zv c n) as [ch|msg|] eqn:Hch.
  - eexists. reflexivity.
  - exfalso. apply method_not_hue.
    apply (method_channels_fail fractal_opt color_opt rand_after_srand fuel
             (method color_opt) Zv c n method_known).
    intros ch. rewrite Hch. discriminate.
  - exfalso. apply method_not_hue.
    apply (method_channels_fail fractal_opt color_opt rand_after_srand fuel
             (method color_opt) Zv c n method_known).
    intros ch. rewrite Hch. discriminate.
Qed.

Lemma loop_returns (pX pY : Z) (count : nat) :
  forall (n : Z) (Zv c : kompleks) (st : RenderState),
    (0 <= n <= max_iterations)%Z ->
    count = S (Z.to_nat (max_iterations - n)) ->
    exists st', loop count n pX pY Zv c st = Val st'.
Proof.
  induction count as [|count IH]; intros n Zv c st Hn Hcount.
  - discriminate Hcount.
  - cbn [iteration_loop].
    destruct (escape_test fractal_opt max_iterations Zv n).
    + destruct (colorize_returns Zv c n) as [px ->].
      eexists. reflexivity.
    + destruct (n =? max_iterations)%Z eqn:Hlast.
      * eexists. reflexivity.
      * apply Z.eqb_neq in Hlast.
        destruct (iterate fractal_opt Zv c n) as [Z' c'].
        destruct (negb (single fractal_opt) && (pCheckN >? 0)%Z).
        -- destruct (find_kompleks Z' (pCheck (incr_run st))) as [i|].
           ++ eexists. reflexivity.
           ++ unfold poll. rewrite never_cancelled. apply IH; lia.
        -- unfold poll. rewrite never_cancelled. apply IH; lia.
Qed.

Lemma pixel_returns (pX pY : Z) (st : RenderState) :
  exists st', pixel_of pX pY st = Val st'.
Proof.
  unfold pixel.
  destruct (can_skip fractal_opt (pixel_x fractal_opt width_px pX)
              (pixel_y fractal_opt height_px pY)).
  - eexists. reflexivity.
  - apply loop_returns; [lia|f_equal; f_equal; lia].
Qed.

Lemma columns_return (pY : Z) (count : nat) :
  forall (pX : Z) (st : RenderState),
    exists st', columns count pX pY st = Val st'.
Proof.
  induction count as [|count IH]; intros pX st.
  - eexists. reflexivity.
  - cbn [column_loop].
    destruct (pixel_returns pX pY st) as [st1 ->]. cbn [bind].
    unfold poll. rewrite never_cancelled. apply IH.
Qed.

Lemma rows_return (count : nat) :
  forall (pY : Z) (st : RenderState),
    exists st', rows count pY st = Val st'.
Proof.
  induction count as [|count IH]; intros pY st.
  - eexists. reflexivity.
  - cbn [row_loop].
    destruct (columns_return pY (Z.to_nat width_px) 0 st) as [st1 ->].
    cbn [bind]. apply IH.
Qed.

(** A render with a method other than the hue method, not cancelled,
    runs to completion. *)
Lemma render_completes :
  exists r,
    createFractal fractal_opt color_opt rand_after_srand fuel width_px
      height_px max_iterations pCheckN env = Val r.
Proof.
  unfold createFractal.
  destruct (rows_return (Z.to_nat height_px) 0 (initial_state pCheckN env))
    as [st ->].
  eexists. reflexivity.
Qed.

End Completion.

End CountFacts.

(** ** Two renders of the same configuration *)

Section DeterminismFacts.
Context {KT : KompleksType} {KO : KompleksOps}.
Variable fractal_opt : FractalOptions.
Variable color_opt : ColorOptions.
Variables rand1 rand2 : Z -> nat -> Z.
Variable fuel : nat.
Variables width_px height_px max_iterations pCheckN : Z.
Variables env1 env2 : Env.

Hypothesis never_cancelled_1 : forall k, cancel env1 k = false.
Hypothesis never_cancelled_2 : forall k, cancel env2 k = false.

(** The switch reads the generator in method 14 only. *)
Lemma method_channels_rand (fractal : Exc rgb_pixel) (m : Z)
    (Zv c : kompleks) (n : Z) :
  m <> 14%Z ->
  method_channels fractal_opt color_opt rand1 fuel fractal m Zv c n
  = method_channels fractal_opt color_opt rand2 fuel fractal m Zv c n.
Proof.
  intros Hm. unfold method_channels.
  destruct m as [|p|p]; try reflexivity.
  do 5 (try (destruct p as [p|p|]; try reflexivity)).
  exfalso. apply Hm. reflexivity.
Qed.

Lemma colorize_rand (m : Z) (Zv c : kompleks) (n : Z) :
  m <> 14%Z ->
  colorize fractal_opt color_opt rand1 fuel m Zv c n
  = colorize fractal_opt color_opt rand2 fuel m Zv c n.
Proof.
  intros Hm. unfold colorize. rewrite !colorize_rec_unfold.
  rewrite (method_channels_rand Fuel 0) by discriminate.
  rewrite (method_channels_rand _ m) by exact Hm.
  reflexivity.
Qed.

Lemma same_render_refl (st : RenderState) : same_render st st.
Proof. same_fields. Qed.

Lemma same_tick (a b : RenderState) :
  same_render a b ->
  same_render (tick width_px height_px env1 a) (tick width_px height_px env2 b).
Proof. intros H. unfold tick. same_fields. Qed.

Lemma same_poll (a b : RenderState) :
  same_render a b ->
  fst (poll env1 a) = false /\ fst (poll env2 b) = false
  /\ same_render (snd (poll env1 a)) (snd (poll env2 b)).
Proof.
  intros H. unfold poll. cbn [fst snd].
  rewrite never_cancelled_1, never_cancelled_2.
  split; [reflexivity|]. split; [reflexivity|]. same_fields.
Qed.

Lemma method_channels_same_rand (fractal : Exc rgb_pixel) (m : Z)
    (Zv c : kompleks) (n : Z) :
  (forall seed k, rand1 seed k = rand2 seed k) ->
  method_channels fractal_opt color_opt rand1 fuel fractal m Zv c n
  = method_channels fractal_opt color_opt rand2 fuel fractal m Zv c n.
Proof.
  intros Hrand.
  destruct (Z.eq_dec m 14) as [->|Hm].
  - unfold method_channels. rewrite !Hrand. reflexivity.
  - apply method_channels_rand. exact Hm.
Qed.

Lemma colorize_same_rand (m : Z) (Zv c : kompleks) (n : Z) :
  (forall seed k, rand1 seed k = rand2 seed k) ->
  colorize fractal_opt color_opt rand1 fuel m Zv c n
  = colorize fractal_opt color_opt rand2 fuel m Zv c n.
Proof.
  intros Hrand. unfold colorize. rewrite !colorize_rec_unfold.
  rewrite (method_channels_rand Fuel 0) by discriminate.
  rewrite (method_channels_same_rand _ m) by exact Hrand.
  reflexivity.
Qed.

Section WithColorize.
Hypothesis colorize_agrees :
  forall Zv c n,
    colorize fractal_opt color_opt rand1 fuel (method color_opt) Zv c n
    = colorize fractal_opt color_opt rand2 fuel (method color_opt) Zv c n.

Lemma same_iteration_loop (pX pY : Z) (count : nat) :
  forall (n : Z) (Zv c : kompleks) (a b : RenderState),
    same_render a b ->
    same_exc
      (iteration_loop fractal_opt color_opt rand1 fuel max_iterations
         pCheckN env1 count n pX pY Zv c a)
      (iteration_loop fractal_opt color_opt rand2 fuel max_iterations
         pCheckN env2 count n pX pY Zv c b).
Proof.
  induction count as [|count IH]; intros n Zv c a b Hab.
  - exact Hab.
  - cbn [iteration_loop].
    destruct (escape_test fractal_opt max_iterations Zv n).
    + rewrite (colorize_agrees Zv c n).
      destruct (colorize fractal_opt color_opt rand2 fuel (method color_opt)
                  Zv c n) as [px|msg|]; cbn [bind ret same_exc]; trivial.
      same_fields.
    + destruct (n =? max_iterations)%Z.
      * cbn [ret same_exc]. same_fields.
      * destruct (iterate fractal_opt Zv c n) as [Z' c'].
        assert (Hwindow : pCheck (incr_run a) = pCheck (incr_run b))
          by (destruct Hab as (_ & Hw & _); exact Hw).
        rewrite Hwindow.
        destruct (negb (single fractal_opt) && (pCheckN >? 0)%Z).
        -- destruct (find_kompleks Z' (pCheck (incr_run b))) as [i|].
           ++ cbn [ret same_exc]. same_fields.
           ++ destruct (same_poll
                          (with_pCheck (tl (pCheck (incr_run b)) ++ [Z'])
                             (incr_run a))
                          (with_pCheck (tl (pCheck (incr_run b)) ++ [Z'])
                             (incr_run b)))
                as (H1 & H2 & Hst); [same_fields|].
              destruct (poll env1 _) as [x1 a3], (poll env2 _) as [x2 b3].
              cbn [fst snd] in *. subst x1 x2. apply IH. exact Hst.
        -- destruct (same_poll (incr_run a) (incr_run b))
             as (H1 & H2 & Hst); [same_fields|].
           destruct (poll env1 _) as [x1 a3], (poll env2 _) as [x2 b3].
           cbn [fst snd] in *. subst x1 x2. apply IH. exact Hst.
Qed.

Lemma same_pixel (pX pY : Z) (a b : RenderState) :
  same_render a b ->
  same_exc
    (pixel fractal_opt color_opt rand1 fuel width_px height_px
       max_iterations pCheckN env1 pX pY a)
    (pixel fractal_opt color_opt rand2 fuel width_px height_px
       max_iterations pCheckN env2 pX pY b).
Proof.
  intros Hab. unfold pixel.
  pose proof (same_tick a b Hab) as Htick.
  destruct (can_skip fractal_opt (pixel_x fractal_opt width_px pX)
              (pixel_y fractal_opt height_px pY)).
  - cbn [ret same_exc]. revert Htick.
    generalize (tick width_px height_px env1 a)
               (tick width_px height_px env2 b).
    intros a' b' H. same_fields.
  - apply same_iteration_loop. revert Htick.
    generalize (tick width_px height_px env1 a)
               (tick width_px height_px env2 b).
    intros a' b' H. same_fields.
Qed.

Lemma same_column_loop (pY : Z) (count : nat) :
  forall (pX : Z) (a b : RenderState),
    same_render a b ->
    same_exc
      (column_loop fractal_opt color_opt rand1 fuel width_px height_px
         max_iterations pCheckN env1 count pX pY a)
      (column_loop fractal_opt color_opt rand2 fuel width_px height_px
         max_iterations pCheckN env2 count pX pY b).
Proof.
  induction count as [|count IH]; intros pX a b Hab.
  - exact Hab.
  - cbn [column_loop].
    pose proof (same_pixel pX pY a b Hab) as Hpixel.
    destruct (pixel fractal_opt color_opt rand1 fuel width_px height_px
                max_iterations pCheckN env1 pX pY a) as [a1|e1|],
             (pixel fractal_opt color_opt rand2 fuel width_px height_px
                max_iterations pCheckN env2 pX pY b) as [b1|e2|];
      cbn [same_exc] in Hpixel; try contradiction; cbn [bind same_exc];
      trivial.
    destruct (same_poll a1 b1 Hpixel) as (H1 & H2 & Hst).
    destruct (poll env1 a1) as [x1 a2], (poll env2 b1) as [x2 b2].
    cbn [fst snd] in *. subst x1 x2. apply IH.
    revert Hst. generalize a2 b2. intros a' b' H. same_fields.
Qed.

Lemma same_row_loop (count : nat) :
  forall (pY : Z) (a b : RenderState),
    same_render a b ->
    same_exc
      (row_loop fractal_opt color_opt rand1 fuel width_px height_px
         max_iterations pCheckN env1 count pY a)
      (row_loop fractal_opt color_opt rand2 fuel width_px height_px
         max_iterations pCheckN env2 count pY b).
Proof.
  induction count as [|count IH]; intros pY a b Hab.
  - exact Hab.
  - cbn [row_loop].
    pose proof (same_column_loop pY (Z.to_nat width_px) 0 a b Hab) as Hrow.
    destruct (column_loop fractal_opt color_opt rand1 fuel width_px height_px
                max_iterations pCheckN env1 (Z.to_nat width_px) 0 pY a)
      as [a1|e1|],
             (column_loop fractal_opt color_opt rand2 fuel width_px height_px
                max_iterations pCheckN env2 (Z.to_nat width_px) 0 pY b)
      as [b1|e2|];
      cbn [same_exc] in Hrow; try contradiction; cbn [bind same_exc];
      trivial.
    apply IH. exact Hrow.
Qed.

Lemma same_createFractal :
  outcome (createFractal fractal_opt color_opt rand1 fuel width_px
             height_px max_iterations pCheckN env1)
  = outcome (createFractal fractal_opt color_opt rand2 fuel width_px
               height_px max_iterations pCheckN env2).
Proof.
  unfold createFractal.
  assert (Hstart : same_render (initial_state pCheckN env1)
                     (initial_state pCheckN env2))
    by (unfold initial_state, same_render, statistics; cbn; repeat split).
  pose proof (same_row_loop (Z.to_nat height_px) 0 _ _ Hstart) as Hrows.
  destruct (row_loop fractal_opt color_opt rand1 fuel width_px height_px
              max_iterations pCheckN env1 (Z.to_nat height_px) 0
              (initial_state pCheckN env1)) as [a|e1|],
           (row_loop fractal_opt color_opt rand2 fuel width_px height_px
              max_iterations pCheckN env2 (Z.to_nat height_px) 0
              (initial_state pCheckN env2)) as [b|e2|];
    cbn [same_exc] in Hrows; try contradiction; cbn [bind ret outcome];
    [|congruence|reflexivity].
  destruct Hrows as (Hstat & _ & _).
  cbn [final marked_partial bug_reported].
  rewrite Hstat, never_cancelled_1, never_cancelled_2.
  unfold statistics in Hstat.
  injection Hstat as Hp He Hne Hs _ _ _ _ Hcur _.
  rewrite Hp, He, Hne, Hs, Hcur. reflexivity.
Qed.

End WithColorize.

(** C7.  Two renders of the same options, dimensions, iteration budget and
    window size, neither cancelled, with a colour method other than 14,
    leave the same raster and the same statistics, and end the same way,
    whatever the clock shows in each and whatever the generator behind
    method 14 would draw in each. *)
Theorem render_deterministic :
  method color_opt <> 14%Z ->
  outcome (createFractal fractal_opt color_opt rand1 fuel width_px
             height_px max_iterations pCheckN env1)
  = outcome (createFractal fractal_opt color_opt rand2 fuel width_px
               height_px max_iterations pCheckN env2).
Proof.
  intros Hmethod. apply same_createFractal.
  intros Zv c n. apply colorize_rand. exact Hmethod.
Qed.

(** Method 14 reseeds the generator with n before every draw, so with one
    and the same generator its renders agree as well. *)
Lemma render_deterministic_same_generator :
  (forall seed k, rand1 seed k = rand2 seed k) ->
  outcome (createFractal fractal_opt color_opt rand1 fuel width_px
             height_px max_iterations pCheckN env1)
  = outcome (createFractal fractal_opt color_opt rand2 fuel width_px
               height_px max_iterations pCheckN env2).
Proof.
  intros Hrand. apply same_createFractal.
  intros Zv c n. apply colorize_same_rand. exact Hrand.
Qed.

End DeterminismFacts.

(** Two renders of the 2 x 2 default picture on exact numbers, one with a
    standing clock, one reporting progress at every pixel, with different
    generators: same raster and statistics. *)
Lemma render_deterministic_witness :
  outcome (createFractal default_fractal default_color rand_model 0
             2 2 50 1 quiet)
  = outcome (createFractal default_fractal default_color rand_sevens 0
               2 2 50 1 slow).
Proof.
  apply render_deterministic.
  - intros k. reflexivity.
  - intros k. reflexivity.
  - discriminate.
Defined.

(** What the two renders do not share is the duration they print: none
    with the standing clock, ten seconds with the other (five readings). *)
Lemma render_durations_differ :
  exists r1 r2,
    createFractal default_fractal default_color rand_model 0 2 2 50 1 quiet
    = Val r1
    /\ createFractal default_fractal default_color rand_sevens 0 2 2 50 1 slow
       = Val r2
    /\ duration r1 = 0%Z /\ duration r2 = 10000000000%Z.
Proof.
  eexists. eexists.
  split; [vm_compute; reflexivity|].
  split; [vm_compute; reflexivity|].
  split; reflexivity.
Qed.

(** With method 14 the raster is the generator's: two generators, two
    rasters. *)
Lemma method_14_follows_generator :
  let random := {| method := 14; smooth := false; disable_fancy := false;
                   multiplier := xlit 1; c_log := 0 |} in
  outcome (createFractal default_fractal random rand_model 0 2 2 50 1 quiet)
  <> outcome (createFractal default_fractal random rand_sevens 0 2 2 50 1
                quiet).
Proof. vm_compute. discriminate. Qed.

(** The count of the 2 x 2 default picture on exact numbers. *)
Lemma outcome_count_witness :
  exists r,
    createFractal default_fractal default_color rand_model 0 2 2 50 1 quiet
    = Val r
    /\ (escaped (final r) + not_escaped (final r) + periodic (final r)
        + skipped (final r) = 2 * 2)%Z
    /\ currentPoint (final r) = (2 * 2)%Z
    /\ bug_reported r = false.
Proof.
  assert (Hdim : (0 <= 2 < 2 ^ 32)%Z) by lia.
  assert (Hbudget : (0 <= 50)%Z) by lia.
  destruct (createFractal default_fractal default_color rand_model 0
              2 2 50 1 quiet) as [r|msg|] eqn:Hrender.
  - exists r. split; [reflexivity|].
    apply (outcome_count default_fractal default_color rand_model 0%nat
             2 2 50 1 quiet Hdim Hdim Hbudget (fun _ => eq_refl)).
    exact Hrender.
  - vm_compute in Hrender. discriminate Hrender.
  - vm_compute in Hrender. discriminate Hrender.
Defined.

(** ** Cancellation *)

(** C8 fails on the code.  A 2 x 2 render of the square inside the
    cardioid, the flag set once the first pixel is done and counted (one
    read of the flag has seen it unset): the break that follows the second
    pixel leaves the loop over the columns only, so the first pixel of the
    next row is classified as well.  Three pixels are counted as skipped,
    [currentPoint] is 1, the file is marked partial, and the program prints
    its own "There is a bug somewhere". *)
Lemma cancelled_render_counts :
  outcome (createFractal inner_fractal default_color rand_model 0
             2 2 50 1 (interrupted_after 1))
  = Val ((0, 0, 0, 3, 0, 0, 0, 0, 1, []), true, true)%Z.
Proof. vm_compute. reflexivity. Qed.

(** In single mode with a budget of no iteration the pixel that opens a
    row is even written after the flag was seen: the flag is set from the
    start, one column, two rows, and both pixels are in the raster. *)
Lemma cancelled_render_writes :
  outcome (createFractal single_fractal default_color rand_model 0
             1 2 0 1 (interrupted_after 0))
  = Val ((0, 2, 0, 0, 2, 0, 0, 0, 0,
          [(0, 1, mk_pixel 0 0 0); (0, 0, mk_pixel 0 0 0)]), true, true)%Z.
Proof. vm_compute. reflexivity. Qed.

(** ** Configuration errors *)

Section ConfigurationFacts.
Context {KT : KompleksType} {KO : KompleksOps}.
Variable rand_after_srand : Z -> nat -> Z.
Variable fuel : nat.
Variable env : Env.

Lemma find_type_unknown (typestr : string) (names : list string) :
  forall values, ~ In typestr names -> find_type typestr names values = None.
Proof.
  induction names as [|name names IH]; intros values Hnot.
  - reflexivity.
  - destruct values as [|v values]; [reflexivity|].
    cbn [find_type].
    destruct (String.eqb_spec typestr name) as [Heq|Hne].
    + exfalso. apply Hnot. left. symmetry. exact Heq.
    + apply IH. intros Hin. apply Hnot. right. exact Hin.
Qed.

Lemma method_channels_invalid (fractal_opt : FractalOptions)
    (color_opt : ColorOptions) (fractal : Exc rgb_pixel) (m : Z)
    (Zv c : kompleks) (n : Z) :
  (17 < m)%Z ->
  method_channels fractal_opt color_opt rand_after_srand fuel fractal m Zv c n
  = Exn ("Invalid color method: " ++ to_string (Z.to_nat m)).
Proof.
  intros Hm. unfold method_channels.
  destruct m as [|p|p]; [lia| |lia].
  do 5 (try (destruct p as [p|p|]; try reflexivity)); lia.
Qed.

Lemma colorize_invalid (fractal_opt : FractalOptions)
    (color_opt : ColorOptions) (m : Z) (Zv c : kompleks) (n : Z) :
  (17 < m)%Z ->
  colorize fractal_opt color_opt rand_after_srand fuel m Zv c n
  = Exn ("Invalid color method: " ++ to_string (Z.to_nat m)).
Proof.
  intros Hm. unfold colorize. rewrite colorize_rec_unfold.
  rewrite method_channels_invalid by exact Hm. reflexivity.
Qed.

Section InvalidMethod.
Variable fractal_opt : FractalOptions.
Variable color_opt : ColorOptions.
Variables width_px height_px max_iterations pCheckN : Z.

Hypothesis invalid : (17 < method color_opt)%Z.

Local Abbreviation message :=
  ("Invalid color method: " ++ to_string (Z.to_nat (method color_opt)))%string.

(** The pass of the loop that finds the pixel escaped ends in the
    colorizer's exception. *)
Lemma loop_refuses (count : nat) (n pX pY : Z) (Zv c : kompleks)
    (st : RenderState) :
  escape_test fractal_opt max_iterations Zv n = true ->
  iteration_loop fractal_opt color_opt rand_after_srand fuel
    max_iterations pCheckN env (S count) n pX pY Zv c st
  = Exn message.
Proof.
  intros Htest. cbn [iteration_loop]. rewrite Htest.
  rewrite colorize_invalid by exact invalid. reflexivity.
Qed.

Lemma loop_uncoloured (pX pY : Z) (count : nat) :
  forall (n : Z) (Zv c : kompleks) (st : RenderState),
    uncoloured st ->
    refused_or_uncoloured message
      (iteration_loop fractal_opt color_opt rand_after_srand fuel
         max_iterations pCheckN env count n pX pY Zv c st).
Proof.
  induction count as [|count IH]; intros n Zv c st Hst.
  - exact Hst.
  - cbn [iteration_loop].
    destruct (escape_test fractal_opt max_iterations Zv n).
    + rewrite colorize_invalid by exact invalid. reflexivity.
    + destruct (n =? max_iterations)%Z; [exact Hst|].
      destruct (iterate fractal_opt Zv c n) as [Z' c'].
      destruct (negb (single fractal_opt) && (pCheckN >? 0)%Z).
      * destruct (find_kompleks Z' (pCheck (incr_run st))) as [i|];
          [exact Hst|].
        unfold poll. destruct (cancel env _); [exact Hst|].
        apply IH. exact Hst.
      * unfold poll. destruct (cancel env _); [exact Hst|].
        apply IH. exact Hst.
Qed.

Lemma pixel_uncoloured (pX pY : Z) (st : RenderState) :
  uncoloured st ->
  refused_or_uncoloured message
    (pixel fractal_opt color_opt rand_after_srand fuel width_px height_px
       max_iterations pCheckN env pX pY st).
Proof.
  intros Hst. unfold pixel.
  destruct (can_skip fractal_opt (pixel_x fractal_opt width_px pX)
              (pixel_y fractal_opt height_px pY)); [exact Hst|].
  apply loop_uncoloured. exact Hst.
Qed.

Lemma columns_uncoloured (pY : Z) (count : nat) :
  forall (pX : Z) (st : RenderState),
    uncoloured st ->
    refused_or_uncoloured message
      (column_loop fractal_opt color_opt rand_after_srand fuel width_px
         height_px max_iterations pCheckN env count pX pY st).
Proof.
  induction count as [|count IH]; intros pX st Hst.
  - exact Hst.
  - cbn [column_loop].
    pose proof (pixel_uncoloured pX pY st Hst) as Hpixel.
    destruct (pixel fractal_opt color_opt rand_after_srand fuel width_px
                height_px max_iterations pCheckN env pX pY st)
      as [st1|msg|]; cbn [bind]; [|exact Hpixel|exact Hpixel].
    unfold poll. destruct (cancel env _); [exact Hpixel|].
    apply IH. exact Hpixel.
Qed.

Lemma rows_uncoloured (count : nat) :
  forall (pY : Z) (st : RenderState),
    uncoloured st ->
    refused_or_uncoloured message
      (row_loop fractal_opt color_opt rand_after_srand fuel width_px
         height_px max_iterations pCheckN env count pY st).
Proof.
  induction count as [|count IH]; intros pY st Hst.
  - exact Hst.
  - cbn [row_loop].
    pose proof (columns_uncoloured pY (Z.to_nat width_px) 0 st Hst) as Hrow.
    destruct (column_loop fractal_opt color_opt rand_after_srand fuel
                width_px height_px max_iterations pCheckN env
                (Z.to_nat width_px) 0 pY st)
      as [st1|msg|]; cbn [bind]; [|exact Hrow|exact Hrow].
    apply IH. exact Hrow.
Qed.

(** A render with an index above 17 ends in the colorizer's exception, or
    returns without a pixel having escaped. *)
Lemma render_refused_or_uncoloured :
  match createFractal fractal_opt color_opt rand_after_srand fuel width_px
          height_px max_iterations pCheckN env with
  | Val r => uncoloured (final r)
  | Exn msg => msg = message
  | Fuel => False
  end.
Proof.
  unfold createFractal.
  pose proof (rows_uncoloured (Z.to_nat height_px) 0
                (initial_state pCheckN env)) as Hrows.
  destruct (row_loop fractal_opt color_opt rand_after_srand fuel width_px
              height_px max_iterations pCheckN env (Z.to_nat height_px) 0
              (initial_state pCheckN env)) as [st|msg|]; cbn [bind ret final];
    apply Hrows; split; reflexivity.
Qed.

End InvalidMethod.

(** C4, as the code has it.  A fractal-variant name that is not in the
    table ends the run at configuration time with code 1: no directory is
    created and createFractal is not entered.  A colour-method index above
    17 is not looked at during configuration: with a known variant name the
    output directory is created whatever the index.  The index is refused
    only where the colorizer is called, by its "Invalid color method: "
    followed by the index: the pass of the iteration loop that finds a
    pixel escaped ends in that exception.  So a run with a known name and
    an index above 17 ends in one of two ways, both after the directory was
    created: terminated by that exception, or with code 0 after a render in
    which no pixel escaped and the colorizer was never called. *)
Theorem configuration_errors :
  (forall a,
      ~ In (arg_t a) FractalType_strings ->
      main rand_after_srand fuel env a = mk_run (Returned 1) None None)
  /\ (forall a t,
        string_to_fractal_type (arg_t a) = Val t ->
        directories (main rand_after_srand fuel env a) = Some (t, arg_c a))
  /\ (forall fractal_opt color_opt m Zv c n,
        (17 < m)%Z ->
        colorize fractal_opt color_opt rand_after_srand fuel m Zv c n
        = Exn ("Invalid color method: " ++ to_string (Z.to_nat m)))
  /\ (forall fractal_opt color_opt max_iterations pCheckN count n pX pY Zv c
             st,
        (17 < method color_opt)%Z ->
        escape_test fractal_opt max_iterations Zv n = true ->
        iteration_loop fractal_opt color_opt rand_after_srand fuel
          max_iterations pCheckN env (S count) n pX pY Zv c st
        = Exn ("Invalid color method: "
               ++ to_string (Z.to_nat (method color_opt))))
  /\ (forall a t,
        string_to_fractal_type (arg_t a) = Val t ->
        (17 < arg_c a)%Z ->
        main rand_after_srand fuel env a
        = mk_run (Terminated ("Invalid color method: "
                              ++ to_string (Z.to_nat (arg_c a))))
            (Some (t, arg_c a)) None
        \/ exists r,
             main rand_after_srand fuel env a
             = mk_run (Returned 0) (Some (t, arg_c a)) (Some r)
             /\ escaped (final r) = 0%Z /\ image (final r) = []).
Proof.
  split; [|split; [|split; [|split]]].
  - intros a Hunknown. unfold main, string_to_fractal_type.
    rewrite (find_type_unknown _ _ _ Hunknown). reflexivity.
  - intros a t Hknown. unfold main. rewrite Hknown.
    match goal with
    | |- directories (match ?r with _ => _ end) = _ => destruct r
    end; reflexivity.
  - intros fractal_opt color_opt m Zv c n Hm.
    apply colorize_invalid. exact Hm.
  - intros fractal_opt color_opt max_iterations pCheckN count n pX pY Zv c
           st Hm Htest.
    apply loop_refuses; assumption.
  - intros a t Hknown Hm. unfold main. rewrite Hknown.
    match goal with
    | |- context [createFractal ?fo ?co _ _ ?W ?H ?M ?N _] =>
        pose proof (render_refused_or_uncoloured fo co W H M N Hm) as Hend;
        destruct (createFractal fo co rand_after_srand fuel W H M N env)
          as [r|msg|]
    end.
    + right. exists r. split; [reflexivity|exact Hend].
    + left. rewrite Hend. reflexivity.
    + contradiction.
Qed.

End ConfigurationFacts.

(** A run with a name that is no variant's: code 1, nothing left behind. *)
Lemma configuration_errors_witness :
  main rand_model 0 quiet (command_line "sierpinski" 0 2)
  = mk_run (Returned 1) None None.
Proof.
  apply (proj1 (configuration_errors rand_model 0%nat quiet)).
  cbn. intros Hin.
  repeat (destruct Hin as [Hin|Hin]; [discriminate Hin|]).
  exact Hin.
Defined.

(** C4 as stated fails for the colour method.  With index 18 and one pixel,
    whose centre (0, 0) is skipped, the colorizer is never called: the run
    creates its directory, renders, and returns 0.  With four pixels the
    first one escapes and the run ends in the colorizer's exception, after
    the directory was created and the orbit of that pixel computed. *)
Lemma unknown_color_method_renders :
  main rand_model 0 quiet (command_line "mandelbrot" 18 1)
  = mk_run (Returned 0) (Some (mandelbrot, 18%Z))
      (Some (mk_result
               (mk_state 0 0 0 1 0 0 0 0 1 [] [kompleks_zero] 0 [] 2 1)
               0 false false))
  /\ main rand_model 0 quiet (command_line "mandelbrot" 18 2)
     = mk_run (Terminated "Invalid color method: 18")
         (Some (mandelbrot, 18%Z)) None.
Proof. split; vm_compute; reflexivity. Qed.

(** ** The skip test at the sample points *)

(** The mandelbrot step of the default options does not look at n. *)
Lemma default_step (Zv c : kompleks) (n : Z) :
  iterate default_fractal Zv c n = (cadd (cpow Zv (xlit 2)) c, c).
Proof. reflexivity. Qed.

(** An orbit that alternates between two values stays on them. *)
Lemma two_cycle_orbit (z0 z1 c : kompleks) (w : list kompleks) :
  cadd (cpow z0 (xlit 2)) c = z1 ->
  cadd (cpow z1 (xlit 2)) c = z0 ->
  forall k,
    orbit_c (orbit default_fractal 1 (mk_orbit z0 c w) k) = c
    /\ (orbit_Z (orbit default_fractal 1 (mk_orbit z0 c w) k) = z0
        \/ orbit_Z (orbit default_fractal 1 (mk_orbit z0 c w) k) = z1).
Proof.
  intros H01 H10. induction k as [|k [IHc IHZ]].
  - split; [reflexivity|left; reflexivity].
  - cbn [orbit]. unfold orbit_step. rewrite default_step, IHc.
    cbn [orbit_c orbit_Z]. split; [reflexivity|].
    destruct IHZ as [-> | ->]; [right|left]; assumption.
Qed.

(** On exact numbers, with the default options: the points 0 and -1 are
    skipped, and the squared modulus of their orbits never exceeds the
    limit; the point 1 + i is not skipped, its orbit is 1 + i, 1 + 3i, and
    the loop ends Escaped at n = 2. *)
Lemma skip_sample_points :
  can_skip default_fractal (xlit 0) (xlit 0) = true
  /\ can_skip default_fractal (xlit (-1)) (xlit 0) = true
  /\ can_skip default_fractal (xlit 1) (xlit 1) = false
  /\ (forall k,
        escapes_at default_fractal 1
          (mk_orbit kompleks_zero (cplx (xlit 0) (xlit 0)) [kompleks_zero]) k
        = false)
  /\ (forall k,
        escapes_at default_fractal 1
          (mk_orbit kompleks_zero (cplx (xlit (-1)) (xlit 0)) [kompleks_zero])
          k = false)
  /\ iteration_loop default_fractal default_color rand_model 0 50 1 quiet
       (S (Z.to_nat 50)) 0 0 0 kompleks_zero (cplx (xlit 1) (xlit 1))
       (initial_state 1 quiet)
     = Val (mk_state 0 1 0 0 3 2 0 0 0 [(0, 0, mk_pixel 4 2 1)]%Z
              [cplx (xlit 1) (xlit 3)] 0 [] 1 2).
Proof.
  split; [vm_compute; reflexivity|].
  split; [vm_compute; reflexivity|].
  split; [vm_compute; reflexivity|].
  split; [|split].
  - intros k. unfold escapes_at.
    destruct (two_cycle_orbit kompleks_zero kompleks_zero
                (cplx (xlit 0) (xlit 0)) [kompleks_zero] eq_refl eq_refl k)
      as [_ [-> | ->]]; vm_compute; reflexivity.
  - intros k. unfold escapes_at.
    destruct (two_cycle_orbit kompleks_zero (cplx (xlit (-1)) (xlit 0))
                (cplx (xlit (-1)) (xlit 0)) [kompleks_zero] eq_refl eq_refl k)
      as [_ [-> | ->]]; vm_compute; reflexivity.
  - vm_compute. reflexivity.
Qed.

(** On exact numbers the hue is in range for every n, so the hue method
    returns too. *)
Lemma hue_in_range_exact (n : Z) : hue_in_range n = true.
Proof.
  assert (Hall :
    forallb (fun r => hue_in_range (Z.of_nat r)) (List.seq 0 256) = true)
    by (vm_compute; reflexivity).
  rewrite forallb_forall in Hall.
  assert (Hr : (0 <= n mod 256 < 256)%Z) by (apply Z.mod_pos_bound; lia).
  specialize (Hall (Z.to_nat (n mod 256))).
  assert (Hsame : hue_in_range n = hue_in_range (Z.of_nat (Z.to_nat (n mod 256)))).
  { unfold hue_in_range, hue. rewrite Z2Nat.id by lia.
    rewrite Z.mod_mod by lia. reflexivity. }
  rewrite Hsame. apply Hall. apply in_seq. lia.
Qed.

(** ** Further runs on exact numbers *)

(** The mandelbrot step leaves c where it was. *)
Lemma iterate_keeps_c_witness :
  snd (iterate default_fractal (cplx (xlit 1) (xlit 2))
         (cplx (xlit 3) (xlit 4)) 7)
  = cplx (xlit 3) (xlit 4).
Proof.
  apply (iterate_keeps_c default_fractal).
  - discriminate.
  - discriminate.
Defined.

(** The 2 x 2 default picture is rendered to the end. *)
Lemma render_completes_witness :
  exists r,
    createFractal default_fractal default_color rand_model 0 2 2 50 1 quiet
    = Val r.
Proof.
  assert (Hbudget : (0 <= 50)%Z) by lia.
  assert (Hmethod : (0 <= 0 <= 17)%Z) by lia.
  apply (render_completes default_fractal default_color rand_model 0%nat
           2 2 50 1 quiet Hbudget (fun _ => eq_refl) Hmethod).
  discriminate.
Defined.

(** With method 14 and one generator, two clocks give one raster. *)
Lemma render_deterministic_same_generator_witness :
  let random := {| method := 14; smooth := false; disable_fancy := false;
                   multiplier := xlit 1; c_log := 0 |} in
  outcome (createFractal default_fractal random rand_model 0 2 2 50 1 quiet)
  = outcome (createFractal default_fractal random rand_model 0 2 2 50 1 slow).
Proof.
  intros random.
  apply (render_deterministic_same_generator default_fractal random
           rand_model rand_model 0%nat 2 2 50 1 quiet slow
           (fun _ => eq_refl) (fun _ => eq_refl)).
  intros seed k. reflexivity.
Defined.


(** ** Names of fractal types *)

(** Printing a type and reading the name back gives the type; a name that
    is read as a type is the one the type prints as; a string that no type
    prints as is refused with "Unknown fractal type: " and the string. *)
Theorem fractal_names_round_trip :
  (forall t, string_to_fractal_type (FractalType_print t) = Val t)
  /\ (forall s t, string_to_fractal_type s = Val t -> FractalType_print t = s)
  /\ (forall s,
        (forall t, FractalType_print t <> s) ->
        string_to_fractal_type s = Exn ("Unknown fractal type: " ++ s)).
Proof.
  assert (Hback : forall s t,
    string_to_fractal_type s = Val t -> FractalType_print t = s).
  { intros s t. unfold string_to_fractal_type.
    unfold FractalType_strings, FractalType_values. cbn [find_type].
    repeat match goal with
      | |- context [String.eqb s ?name] =>
          destruct (String.eqb_spec s name) as [Heq|_];
          [subst s; intros Hval; injection Hval as <-; reflexivity|]
      end.
    intros Hval. discriminate Hval. }
  split; [|split].
  - intros t. destruct t; reflexivity.
  - exact Hback.
  - intros s Hnone. unfold string_to_fractal_type.
    destruct (find_type s FractalType_strings FractalType_values)
      as [t|] eqn:Hfind.
    + exfalso. apply (Hnone t). apply Hback.
      unfold string_to_fractal_type. rewrite Hfind. reflexivity.
    + reflexivity.
Qed.

(** ** Invariants of a render *)

Section RenderInvariant.
Context {KT : KompleksType} {KO : KompleksOps}.
Variable fractal_opt : FractalOptions.
Variable color_opt : ColorOptions.
Variable rand_after_srand : Z -> nat -> Z.
Variable fuel : nat.
Variables width_px height_px max_iterations pCheckN : Z.
Variable env : Env.

Hypothesis budget : (0 <= max_iterations)%Z.

(** A property of the variables that every statement of createFractal
    keeps, each under what the code knows where the statement stands. *)
Variable P : RenderState -> Prop.
Hypothesis P_tick : forall st, P st -> P (tick width_px height_px env st).
Hypothesis P_poll : forall st, P st -> P (snd (poll env st)).
Hypothesis P_point : forall st, P st -> P (incr_currentPoint st).
Hypothesis P_skip :
  forall st x y,
    can_skip fractal_opt x y = true -> P st -> P (incr_skipped st).
Hypothesis P_fill :
  forall st z, P st -> P (with_pCheck (fill (pCheck st) z) st).
Hypothesis P_run : forall st, P st -> P (incr_run st).
Hypothesis P_escaped :
  forall st pX pY Zv n px,
    (0 <= n <= max_iterations)%Z ->
    escape_test fractal_opt max_iterations Zv n = true ->
    P st -> P (record_escaped pX pY n px st).
Hypothesis P_bounded :
  forall st, single fractal_opt = false -> P st -> P (incr_not_escaped st).
Hypothesis P_periodic :
  forall st i n z,
    (0 <= n < max_iterations)%Z ->
    detecting fractal_opt pCheckN = true ->
    find_kompleks z (pCheck st) = Some i ->
    P st ->
    P (record_periodic (Z.of_nat (List.length (pCheck st) - i)) n st).
Hypothesis P_slide :
  forall st z,
    detecting fractal_opt pCheckN = true ->
    P st -> P (with_pCheck (tl (pCheck st) ++ [z]) st).

Lemma loop_preserves (pX pY : Z) (count : nat) :
  forall (n : Z) (Zv c : kompleks) (st st' : RenderState),
    (0 <= n <= max_iterations)%Z ->
    count = S (Z.to_nat (max_iterations - n)) ->
    P st ->
    iteration_loop fractal_opt color_opt rand_after_srand fuel
      max_iterations pCheckN env count n pX pY Zv c st = Val st' ->
    P st'.
Proof.
  induction count as [|count IH]; intros n Zv c st st' Hn Hcount Hst Hloop.
  - discriminate Hcount.
  - cbn [iteration_loop] in Hloop.
    destruct (escape_test fractal_opt max_iterations Zv n) eqn:Htest.
    + destruct (colorize fractal_opt color_opt rand_after_srand fuel
                  (method color_opt) Zv c n) as [px|msg|];
        cbn [bind ret] in Hloop; try discriminate Hloop.
      injection Hloop as <-.
      apply (P_escaped _ pX pY Zv n px Hn Htest). apply P_run. exact Hst.
    + destruct (n =? max_iterations)%Z eqn:Hlast.
      * injection Hloop as <-. apply P_bounded; [|apply P_run; exact Hst].
        apply Z.eqb_eq in Hlast. unfold escape_test in Htest.
        destruct (single fractal_opt); [|reflexivity].
        rewrite Hlast, Z.eqb_refl in Htest. discriminate Htest.
      * apply Z.eqb_neq in Hlast.
        destruct (iterate fractal_opt Zv c n) as [Z' c'].
        fold (detecting fractal_opt pCheckN) in Hloop.
        assert (Hcases : detecting fractal_opt pCheckN = true
                         \/ detecting fractal_opt pCheckN = false)
          by (destruct (detecting fractal_opt pCheckN); auto).
        destruct Hcases as [Hdet|Hdet]; rewrite Hdet in Hloop.
        -- destruct (find_kompleks Z' (pCheck (incr_run st))) as [i|] eqn:Hfind.
           ++ injection Hloop as <-.
              apply (P_periodic (incr_run st) i n Z'); try assumption.
              ** lia.
              ** apply P_run. exact Hst.
           ++ destruct (poll env
                         (with_pCheck (tl (pCheck (incr_run st)) ++ [Z'])
                                   (incr_run st))) as [cancelled st3] eqn:Hpoll.
              assert (Hst3 : P st3).
              { replace st3 with (snd (poll env
                  (with_pCheck (tl (pCheck (incr_run st)) ++ [Z'])
                     (incr_run st))))
                  by (rewrite Hpoll; reflexivity).
                apply P_poll. apply P_slide; [exact Hdet|]. apply P_run.
                exact Hst. }
              destruct cancelled.
              ** injection Hloop as <-. exact Hst3.
              ** apply (IH (n + 1)%Z Z' c' st3 st');
                   [lia|lia|exact Hst3|exact Hloop].
        -- destruct (poll env (incr_run st)) as [cancelled st3] eqn:Hpoll.
           assert (Hst3 : P st3).
           { replace st3 with (snd (poll env (incr_run st)))
               by (rewrite Hpoll; reflexivity).
             apply P_poll. apply P_run. exact Hst. }
           destruct cancelled.
           ++ injection Hloop as <-. exact Hst3.
           ++ apply (IH (n + 1)%Z Z' c' st3 st');
                [lia|lia|exact Hst3|exact Hloop].
Qed.

Lemma pixel_preserves (pX pY : Z) (st st' : RenderState) :
  P st ->
  pixel fractal_opt color_opt rand_after_srand fuel width_px height_px
    max_iterations pCheckN env pX pY st = Val st' ->
  P st'.
Proof.
  intros Hst Hpixel. unfold pixel in Hpixel.
  destruct (can_skip fractal_opt (pixel_x fractal_opt width_px pX)
              (pixel_y fractal_opt height_px pY)) eqn:Hskip.
  - injection Hpixel as <-.
    apply (P_skip _ _ _ Hskip). apply P_tick. exact Hst.
  - apply loop_preserves in Hpixel; [exact Hpixel|lia|f_equal; f_equal; lia|].
    apply P_fill. apply P_tick. exact Hst.
Qed.

Lemma columns_preserve (pY : Z) (count : nat) :
  forall (pX : Z) (st st' : RenderState),
    P st ->
    column_loop fractal_opt color_opt rand_after_srand fuel width_px
      height_px max_iterations pCheckN env count pX pY st = Val st' ->
    P st'.
Proof.
  induction count as [|count IH]; intros pX st st' Hst Hrun.
  - injection Hrun as <-. exact Hst.
  - cbn [column_loop] in Hrun.
    destruct (pixel fractal_opt color_opt rand_after_srand fuel width_px
                height_px max_iterations pCheckN env pX pY st)
      as [st1|msg|] eqn:Hpixel; cbn [bind] in Hrun; try discriminate Hrun.
    apply pixel_preserves in Hpixel; [|exact Hst].
    destruct (poll env st1) as [cancelled st2] eqn:Hpoll.
    assert (Hst2 : P st2).
    { replace st2 with (snd (poll env st1)) by (rewrite Hpoll; reflexivity).
      apply P_poll. exact Hpixel. }
    destruct cancelled.
    + injection Hrun as <-. exact Hst2.
    + apply (IH _ _ _ (P_point _ Hst2) Hrun).
Qed.

Lemma rows_preserve (count : nat) :
  forall (pY : Z) (st st' : RenderState),
    P st ->
    row_loop fractal_opt color_opt rand_after_srand fuel width_px
      height_px max_iterations pCheckN env count pY st = Val st' ->
    P st'.
Proof.
  induction count as [|count IH]; intros pY st st' Hst Hrun.
  - injection Hrun as <-. exact Hst.
  - cbn [row_loop] in Hrun.
    destruct (column_loop fractal_opt color_opt rand_after_srand fuel
                width_px height_px max_iterations pCheckN env
                (Z.to_nat width_px) 0 pY st) as [st1|msg|] eqn:Hrow;
      cbn [bind] in Hrun; try discriminate Hrun.
    apply columns_preserve in Hrow; [|exact Hst].
    apply (IH _ _ _ Hrow Hrun).
Qed.

(** What every statement keeps holds of the variables createFractal
    leaves, however the render went. *)
Lemma render_preserves (r : RenderResult) :
  P (initial_state pCheckN env) ->
  createFractal fractal_opt color_opt rand_after_srand fuel width_px
    height_px max_iterations pCheckN env = Val r ->
  P (final r).
Proof.
  intros Hstart Hrender. unfold createFractal in Hrender.
  destruct (row_loop fractal_opt color_opt rand_after_srand fuel width_px
              height_px max_iterations pCheckN env (Z.to_nat height_px) 0
              (initial_state pCheckN env)) as [st|msg|] eqn:Hrows;
    cbn [bind ret] in Hrender; try discriminate Hrender.
  injection Hrender as <-. cbn [final].
  apply (rows_preserve _ _ _ _ Hstart Hrows).
Qed.

End RenderInvariant.

(** ** Bounds on the statistics *)

Section StatisticsFacts.
Context {KT : KompleksType} {KO : KompleksOps}.
Variable fractal_opt : FractalOptions.
Variable color_opt : ColorOptions.
Variable rand_after_srand : Z -> nat -> Z.
Variable fuel : nat.
Variables width_px height_px max_iterations pCheckN : Z.
Variable env : Env.

Lemma find_kompleks_lt (z : kompleks) (w : list kompleks) (i : nat) :
  find_kompleks z w = Some i -> (i < List.length w)%nat.
Proof.
  revert i. induction w as [|v w IH]; intros i Hfind.
  - discriminate Hfind.
  - cbn [find_kompleks] in Hfind. cbn [List.length].
    destruct (k_eqb v z).
    + injection Hfind as <-. lia.
    + destruct (find_kompleks z w) as [j|]; [|discriminate Hfind].
      injection Hfind as <-. specialize (IH j eq_refl). lia.
Qed.

Lemma slide_length (w : list kompleks) (z : kompleks) :
  w <> [] -> List.length (tl w ++ [z]) = List.length w.
Proof.
  intros Hw. destruct w as [|v w]; [contradiction|].
  cbn [tl]. rewrite List.length_app. cbn [List.length]. lia.
Qed.

Lemma detecting_window :
  detecting fractal_opt pCheckN = true -> (1 <= Z.to_nat pCheckN)%nat.
Proof.
  unfold detecting. intros Hdet. apply andb_prop in Hdet.
  destruct Hdet as [_ Hpos]. apply Z.gtb_lt in Hpos. lia.
Qed.

(** What can_skip has checked when it answers yes. *)
Lemma can_skip_guard (x y : kompleks_type) :
  can_skip fractal_opt x y = true ->
  single fractal_opt = false /\ type fractal_opt = mandelbrot
  /\ ld_eqb (escape_limit fractal_opt) (of_Z 4) = true.
Proof.
  unfold can_skip. intros Hskip.
  destruct (single fractal_opt); [discriminate Hskip|].
  destruct (type fractal_opt); try discriminate Hskip.
  destruct (ld_eqb (escape_limit fractal_opt) (of_Z 4));
    [|discriminate Hskip].
  repeat split.
Qed.

(** However a render that returns went -- cancelled or not --: the window
    has the size it was given, no escape is recorded beyond the iteration
    budget, no period longer than the window, and no period at an index
    the loop cannot advance from (the last one, max_iterations). *)
Theorem statistics_bounds (r : RenderResult) :
  (0 <= max_iterations)%Z ->
  createFractal fractal_opt color_opt rand_after_srand fuel width_px
    height_px max_iterations pCheckN env = Val r ->
  List.length (pCheck (final r)) = Z.to_nat pCheckN
  /\ (0 <= max_n (final r) <= max_iterations)%Z
  /\ (0 <= max_period (final r) <= Z.max 0 pCheckN)%Z
  /\ (0 <= max_period_n (final r) <= Z.max 0 (max_iterations - 1))%Z.
Proof.
  intros Hbudget Hrender.
  refine (render_preserves fractal_opt color_opt rand_after_srand fuel
            width_px height_px max_iterations pCheckN env Hbudget
            (fun st =>
               List.length (pCheck st) = Z.to_nat pCheckN
               /\ (0 <= max_n st <= max_iterations)%Z
               /\ (0 <= max_period st <= Z.max 0 pCheckN)%Z
               /\ (0 <= max_period_n st <= Z.max 0 (max_iterations - 1))%Z)
            _ _ _ _ _ _ _ _ _ _ r _ Hrender).
  - intros st H. exact H.
  - intros st H. exact H.
  - intros st H. exact H.
  - intros st x y _ H. exact H.
  - intros st z (Hlen & H). split; [|exact H].
    cbn [with_pCheck pCheck]. unfold fill. rewrite List.length_map.
    exact Hlen.
  - intros st H. exact H.
  - intros st pX pY Zv n px Hn _ (Hlen & Hmax & H). split; [exact Hlen|].
    split; [|exact H]. cbn [record_escaped max_n].
    destruct (n >? max_n st)%Z; lia.
  - intros st _ H. exact H.
  - intros st i n z Hn Hdet Hfind (Hlen & Hmax & Hperiod & Hindex).
    apply find_kompleks_lt in Hfind.
    split; [exact Hlen|]. split; [exact Hmax|].
    cbn [record_periodic max_period max_period_n]. split.
    + destruct (Z.of_nat (List.length (pCheck st) - i) >? max_period st)%Z;
        lia.
    + destruct (n >? max_period_n st)%Z; lia.
  - intros st z Hdet (Hlen & H). split; [|exact H].
    cbn [with_pCheck pCheck]. rewrite slide_length; [exact Hlen|].
    apply detecting_window in Hdet.
    intros Hempty. rewrite Hempty in Hlen. cbn in Hlen. lia.
  - unfold initial_state. cbn. rewrite List.repeat_length.
    repeat split; lia.
Qed.

(** However a render that returns went: no pixel is counted as skipped
    unless the variant is mandelbrot, single mode is off and the escape limit
    compares equal to 4; no pixel is counted as periodic, and no period is
    recorded, in single mode or with a window of size 0; no pixel is counted
    as not escaped in single mode. *)
Theorem mode_counters (r : RenderResult) :
  (0 <= max_iterations)%Z ->
  createFractal fractal_opt color_opt rand_after_srand fuel width_px
    height_px max_iterations pCheckN env = Val r ->
  (single fractal_opt = true \/ type fractal_opt <> mandelbrot
   \/ ld_eqb (escape_limit fractal_opt) (of_Z 4) = false ->
   skipped (final r) = 0%Z)
  /\ (single fractal_opt = true \/ (pCheckN <= 0)%Z ->
      periodic (final r) = 0%Z /\ max_period (final r) = 0%Z
      /\ max_period_n (final r) = 0%Z)
  /\ (single fractal_opt = true -> not_escaped (final r) = 0%Z).
Proof.
  intros Hbudget Hrender.
  refine (render_preserves fractal_opt color_opt rand_after_srand fuel
            width_px height_px max_iterations pCheckN env Hbudget
            (fun st =>
               (single fractal_opt = true \/ type fractal_opt <> mandelbrot
                \/ ld_eqb (escape_limit fractal_opt) (of_Z 4) = false ->
                skipped st = 0%Z)
               /\ (single fractal_opt = true \/ (pCheckN <= 0)%Z ->
                   periodic st = 0%Z /\ max_period st = 0%Z
                   /\ max_period_n st = 0%Z)
               /\ (single fractal_opt = true -> not_escaped st = 0%Z))
            _ _ _ _ _ _ _ _ _ _ r _ Hrender).
  - intros st H. exact H.
  - intros st H. exact H.
  - intros st H. exact H.
  - intros st x y Hskip (_ & H). split; [|exact H].
    destruct (can_skip_guard x y Hskip) as (Hsingle & Htype & Hlimit).
    intros [Hs | [Ht | Hl]].
    + rewrite Hsingle in Hs. discriminate Hs.
    + contradiction.
    + rewrite Hlimit in Hl. discriminate Hl.
  - intros st z H. exact H.
  - intros st H. exact H.
  - intros st pX pY Zv n px _ _ H. exact H.
  - intros st Hsingle (H1 & H2 & _). split; [exact H1|]. split; [exact H2|].
    intros Hs. rewrite Hsingle in Hs. discriminate Hs.
  - intros st i n z _ Hdet _ (H1 & _ & H3). split; [exact H1|].
    split; [|exact H3].
    unfold detecting in Hdet. apply andb_prop in Hdet.
    destruct Hdet as [Hsingle Hpos]. apply Z.gtb_lt in Hpos.
    intros [Hs | Hn]; [|lia].
    rewrite Hs in Hsingle. discriminate Hsingle.
  - intros st z _ H. exact H.
  - unfold initial_state. cbn. repeat split.
Qed.

(** With a clock that does not run backwards, progress is reported at
    most once per second of the duration the program prints: the reports
    number at most the full seconds elapsed. *)
Theorem progress_rate (r : RenderResult) :
  (forall k, now env k <= now env (S k))%Z ->
  (0 <= max_iterations)%Z ->
  createFractal fractal_opt color_opt rand_after_srand fuel width_px
    height_px max_iterations pCheckN env = Val r ->
  (1000000000 * Z.of_nat (List.length (progress (final r))) <= duration r)%Z.
Proof.
  intros Hclock Hbudget Hrender.
  pose (kept := fun st : RenderState =>
       (1 <= ticks st)%nat
       /\ (previous_time st <= now env (ticks st - 1))%Z
       /\ (1000000000 * Z.of_nat (List.length (progress st))
           <= previous_time st - now env 0)%Z).
  assert (Hinv : kept (final r)).
  { refine (render_preserves fractal_opt color_opt rand_after_srand fuel
              width_px height_px max_iterations pCheckN env Hbudget
              kept _ _ _ _ _ _ _ _ _ _ r _ Hrender); unfold kept.
    - intros st (Hticks & Hprev & Hrate). unfold tick.
      cbn [ticks previous_time progress].
      replace (S (ticks st) - 1)%nat with (ticks st) by lia.
      assert (Hnext : (now env (ticks st - 1) <= now env (ticks st))%Z).
      { replace (ticks st) with (S (ticks st - 1)) at 2 by lia.
        apply Hclock. }
      destruct (now env (ticks st) - previous_time st >=? 1000000000)%Z
        eqn:Hdue.
      + split; [lia|]. split; [lia|]. cbn [List.length].
        apply Z.geb_le in Hdue. lia.
      + split; [lia|]. split; [lia|]. exact Hrate.
    - intros st H. exact H.
    - intros st H. exact H.
    - intros st x y _ H. exact H.
    - intros st z H. exact H.
    - intros st H. exact H.
    - intros st pX pY Zv n px _ _ H. exact H.
    - intros st _ H. exact H.
    - intros st i n z _ _ _ H. exact H.
    - intros st z _ H. exact H.
    - unfold initial_state. cbn. repeat split; lia. }
  unfold kept in Hinv. destruct Hinv as (Hticks & Hprev & Hrate).
  assert (Hduration : duration r = (now env (ticks (final r)) - now env 0)%Z).
  { unfold createFractal in Hrender.
    destruct (row_loop fractal_opt color_opt rand_after_srand fuel width_px
                height_px max_iterations pCheckN env (Z.to_nat height_px) 0
                (initial_state pCheckN env)) as [st|msg|];
      cbn [bind ret] in Hrender; try discriminate Hrender.
    injection Hrender as <-. reflexivity. }
  rewrite Hduration.
  assert (Hnext : (now env (ticks (final r) - 1)
                   <= now env (ticks (final r)))%Z).
  { replace (ticks (final r)) with (S (ticks (final r) - 1)) at 2 by lia.
    apply Hclock. }
  lia.
Qed.

End StatisticsFacts.

(** ** The writes to the raster *)

Section RasterFacts.
Context {KT : KompleksType} {KO : KompleksOps}.
Variable fractal_opt : FractalOptions.
Variable color_opt : ColorOptions.
Variable rand_after_srand : Z -> nat -> Z.
Variable fuel : nat.
Variables width_px height_px max_iterations pCheckN : Z.
Variable env : Env.

Hypothesis width_range : (0 <= width_px < 2 ^ 32)%Z.
Hypothesis height_range : (0 <= height_px < 2 ^ 32)%Z.

(** The iteration loop writes its pixel, and counts it as escaped, or
    leaves raster and count alone. *)
Lemma loop_writes (pX pY : Z) (count : nat) :
  forall (n : Z) (Zv c : kompleks) (st st' : RenderState),
    iteration_loop fractal_opt color_opt rand_after_srand fuel
      max_iterations pCheckN env count n pX pY Zv c st = Val st' ->
    (image st' = image st /\ escaped st' = escaped st)
    \/ (exists px, image st' = (pX, pY, px) :: image st
                   /\ escaped st' = u64 (escaped st + 1)).
Proof.
  induction count as [|count IH]; intros n Zv c st st' Hloop.
  - injection Hloop as <-. left. split; reflexivity.
  - cbn [iteration_loop] in Hloop.
    destruct (escape_test fractal_opt max_iterations Zv n).
    + destruct (colorize fractal_opt color_opt rand_after_srand fuel
                  (method color_opt) Zv c n) as [px|msg|];
        cbn [bind ret] in Hloop; try discriminate Hloop.
      injection Hloop as <-. right. exists px. split; reflexivity.
    + destruct (n =? max_iterations)%Z.
      * injection Hloop as <-. left. split; reflexivity.
      * destruct (iterate fractal_opt Zv c n) as [Z' c'].
        destruct (negb (single fractal_opt) && (pCheckN >? 0)%Z).
        -- destruct (find_kompleks Z' (pCheck (incr_run st))) as [i|].
           ++ injection Hloop as <-. left. split; reflexivity.
           ++ unfold poll in Hloop.
              destruct (cancel env _).
              ** injection Hloop as <-. left. split; reflexivity.
              ** apply IH in Hloop. exact Hloop.
        -- unfold poll in Hloop.
           destruct (cancel env _).
           ++ injection Hloop as <-. left. split; reflexivity.
           ++ apply IH in Hloop. exact Hloop.
Qed.

Lemma pixel_writes (pX pY : Z) (st st' : RenderState) :
  pixel fractal_opt color_opt rand_after_srand fuel width_px height_px
    max_iterations pCheckN env pX pY st = Val st' ->
  (image st' = image st /\ escaped st' = escaped st)
  \/ (exists px, image st' = (pX, pY, px) :: image st
                 /\ escaped st' = u64 (escaped st + 1)).
Proof.
  unfold pixel. intros Hpixel.
  destruct (can_skip fractal_opt (pixel_x fractal_opt width_px pX)
              (pixel_y fractal_opt height_px pY)).
  - injection Hpixel as <-. left. split; reflexivity.
  - apply loop_writes in Hpixel. exact Hpixel.
Qed.

Lemma raster_written_later (limit limit' : Z) (st : RenderState) :
  (limit <= limit')%Z ->
  raster_written width_px limit st -> raster_written width_px limit' st.
Proof.
  unfold raster_written. intros Hle (Hin & Hdup & Hcount & Hlen).
  split; [|split; [exact Hdup|split; [exact Hcount|lia]]].
  eapply Forall_impl; [|exact Hin].
  intros e (Hx & Hy & Hcode). split; [exact Hx|]. split; [exact Hy|]. lia.
Qed.

(** One pixel more: the invariant moves on by one position. *)
Lemma raster_written_pixel (pX pY : Z) (st st' : RenderState) :
  (0 <= pX < width_px)%Z -> (0 <= pY < height_px)%Z ->
  raster_written width_px (pY * width_px + pX) st ->
  pixel fractal_opt color_opt rand_after_srand fuel width_px height_px
    max_iterations pCheckN env pX pY st = Val st' ->
  raster_written width_px (pY * width_px + pX + 1) st'.
Proof.
  intros HpX HpY Hst Hpixel.
  destruct (pixel_writes pX pY st st' Hpixel)
    as [[Himage Hescaped] | [px [Himage Hescaped]]].
  - apply (raster_written_later (pY * width_px + pX)); [lia|].
    unfold raster_written in *. rewrite Himage, Hescaped. exact Hst.
  - unfold raster_written in *. destruct Hst as (Hin & Hdup & Hcount & Hlen).
    rewrite Himage, Hescaped. cbn [List.map List.length fst].
    split; [|split; [|split]].
    + constructor.
      * cbn [fst snd]. lia.
      * eapply Forall_impl; [|exact Hin].
        intros e (Hx & Hy & Hcode).
        split; [exact Hx|]. split; [exact Hy|]. lia.
    + constructor; [|exact Hdup].
      intros Hold. apply List.in_map_iff in Hold.
      destruct Hold as [e [Hcoords He]].
      rewrite Forall_forall in Hin. specialize (Hin e He).
      rewrite Hcoords in Hin. cbn [fst snd] in Hin. lia.
    + rewrite Hcount.
      assert (Hroom : (pY * width_px + pX + 1 < 2 ^ 64)%Z) by nia.
      unfold u64, wrap. rewrite Z.mod_small by lia. lia.
    + lia.
Qed.

Lemma poll_keeps_raster (limit : Z) (st : RenderState) :
  raster_written width_px limit st ->
  raster_written width_px limit (snd (poll env st)).
Proof. intros H. exact H. Qed.

Lemma columns_written (pY : Z) (count : nat) :
  forall (pX : Z) (st st' : RenderState),
    (0 <= pY < height_px)%Z -> (0 <= pX)%Z ->
    (pX + Z.of_nat count = width_px)%Z ->
    raster_written width_px (pY * width_px + pX) st ->
    column_loop fractal_opt color_opt rand_after_srand fuel width_px
      height_px max_iterations pCheckN env count pX pY st = Val st' ->
    raster_written width_px ((pY + 1) * width_px) st'.
Proof.
  induction count as [|count IH]; intros pX st st' HpY HpX Hend Hst Hrun.
  - injection Hrun as <-.
    apply (raster_written_later (pY * width_px + pX)); [lia|exact Hst].
  - cbn [column_loop] in Hrun.
    destruct (pixel fractal_opt color_opt rand_after_srand fuel width_px
                height_px max_iterations pCheckN env pX pY st)
      as [st1|msg|] eqn:Hpixel; cbn [bind] in Hrun; try discriminate Hrun.
    apply raster_written_pixel in Hpixel; [|lia|lia|exact Hst].
    apply (poll_keeps_raster _ st1) in Hpixel.
    destruct (poll env st1) as [cancelled st2]. cbn [snd] in Hpixel.
    destruct cancelled.
    + injection Hrun as <-.
      apply (raster_written_later (pY * width_px + pX + 1)); [lia|].
      exact Hpixel.
    + apply (IH (pX + 1)%Z) in Hrun; [exact Hrun|lia|lia|lia|].
      replace (pY * width_px + (pX + 1))%Z
        with (pY * width_px + pX + 1)%Z by lia.
      exact Hpixel.
Qed.

Lemma rows_written (count : nat) :
  forall (pY : Z) (st st' : RenderState),
    (0 <= pY)%Z -> (pY + Z.of_nat count = height_px)%Z ->
    raster_written width_px (pY * width_px) st ->
    row_loop fractal_opt color_opt rand_after_srand fuel width_px
      height_px max_iterations pCheckN env count pY st = Val st' ->
    raster_written width_px (height_px * width_px) st'.
Proof.
  induction count as [|count IH]; intros pY st st' HpY Hend Hst Hrun.
  - injection Hrun as <-.
    replace height_px with pY by lia. exact Hst.
  - cbn [row_loop] in Hrun.
    destruct (column_loop fractal_opt color_opt rand_after_srand fuel
                width_px height_px max_iterations pCheckN env
                (Z.to_nat width_px) 0 pY st) as [st1|msg|] eqn:Hrow;
      cbn [bind] in Hrun; try discriminate Hrun.
    apply columns_written in Hrow; [|lia|lia|lia|].
    + apply (IH (pY + 1)%Z) in Hrun; [exact Hrun|lia|lia|exact Hrow].
    + rewrite Z.add_0_r. exact Hst.
Qed.

(** However a render that returns went -- cancelled or not --: every
    pixel written lies inside the raster, no pixel was written twice, and
    the pixels written are as many as the pixels counted as escaped (pixels
    counted as bounded, periodic or skipped are never written). *)
Theorem raster_writes (r : RenderResult) :
  createFractal fractal_opt color_opt rand_after_srand fuel width_px
    height_px max_iterations pCheckN env = Val r ->
  (forall x y px,
      In (x, y, px) (image (final r)) ->
      (0 <= x < width_px)%Z /\ (0 <= y < height_px)%Z)
  /\ NoDup (List.map fst (image (final r)))
  /\ escaped (final r) = Z.of_nat (List.length (image (final r))).
Proof.
  intros Hrender. unfold createFractal in Hrender.
  destruct (row_loop fractal_opt color_opt rand_after_srand fuel width_px
              height_px max_iterations pCheckN env (Z.to_nat height_px) 0
              (initial_state pCheckN env)) as [st|msg|] eqn:Hrows;
    cbn [bind ret] in Hrender; try discriminate Hrender.
  injection Hrender as <-. cbn [final].
  apply rows_written in Hrows; [|lia|lia|].
  - destruct Hrows as (Hin & Hdup & Hcount & _).
    split; [|split; [exact Hdup|exact Hcount]].
    intros x y px He. rewrite Forall_forall in Hin.
    specialize (Hin _ He). cbn [fst snd] in Hin. nia.
  - unfold raster_written, initial_state. cbn.
    split; [constructor|]. split; [constructor|]. lia.
Qed.

End RasterFacts.

(** ** Single mode *)

Section SingleFacts.
Context {KT : KompleksType} {KO : KompleksOps}.
Variable fractal_opt : FractalOptions.
Variable color_opt : ColorOptions.
Variable rand_after_srand : Z -> nat -> Z.
Variable fuel : nat.
Variables width_px height_px max_iterations pCheckN : Z.
Variable env : Env.

Hypothesis single_mode : single fractal_opt = true.
Hypothesis never_cancelled : forall k, cancel env k = false.
Hypothesis budget : (0 <= max_iterations)%Z.

Local Abbreviation loop :=
  (iteration_loop fractal_opt color_opt rand_after_srand fuel
     max_iterations pCheckN env).
Local Abbreviation orbit_of := (orbit fractal_opt pCheckN).
Local Abbreviation state_at := (running fractal_opt pCheckN env).

Lemma single_not_detecting : detecting fractal_opt pCheckN = false.
Proof. unfold detecting. rewrite single_mode. reflexivity. Qed.

Lemma single_escape_test (Zv : kompleks) (n : Z) :
  escape_test fractal_opt max_iterations Zv n = (n =? max_iterations)%Z.
Proof.
  unfold escape_test. rewrite single_mode. cbn [andb negb].
  apply orb_false_r.
Qed.

(** In single mode the window never moves. *)
Lemma single_window (o : Orbit) (k : nat) :
  orbit_window (orbit_of o k) = orbit_window o.
Proof.
  induction k as [|k IH]; [reflexivity|].
  cbn [orbit]. unfold orbit_step.
  destruct (iterate fractal_opt (orbit_Z (orbit_of o k))
              (orbit_c (orbit_of o k)) (Z.of_nat k)) as [Z' c'].
  rewrite single_not_detecting. cbn [orbit_window]. exact IH.
Qed.

(** A pass before the last: the recurrence is applied, nothing else. *)
Lemma single_advance (pX pY : Z) (count k : nat) (st : RenderState)
    (Zv c : kompleks) :
  let o := mk_orbit Zv c (pCheck st) in
  (Z.of_nat k < max_iterations)%Z ->
  loop (S (S count)) (Z.of_nat k) pX pY (orbit_Z (orbit_of o k))
    (orbit_c (orbit_of o k)) (state_at st o k)
  = loop (S count) (Z.of_nat (S k)) pX pY (orbit_Z (orbit_of o (S k)))
      (orbit_c (orbit_of o (S k))) (state_at st o (S k)).
Proof.
  intros o Hlt. cbn [iteration_loop]. rewrite single_escape_test.
  replace (Z.of_nat k =? max_iterations)%Z with false
    by (symmetry; apply Z.eqb_neq; lia).
  cbn [orbit running]. unfold orbit_step.
  destruct (iterate fractal_opt (orbit_Z (orbit_of o k))
              (orbit_c (orbit_of o k)) (Z.of_nat k)) as [Z' c'] eqn:Hit.
  fold (detecting fractal_opt pCheckN). rewrite single_not_detecting.
  cbn [orbit_Z orbit_c orbit_window].
  assert (Hsame :
    with_pCheck (orbit_window (orbit_of o k)) (incr_run (state_at st o k))
    = incr_run (state_at st o k)).
  { rewrite <- (with_pCheck_same (incr_run (state_at st o k))) at 2.
    rewrite pCheck_incr_run. unfold o. rewrite state_at_window.
    reflexivity. }
  rewrite Hsame. unfold poll. rewrite never_cancelled. cbn [snd].
  replace (Z.of_nat k + 1)%Z with (Z.of_nat (S k)) by lia.
  reflexivity.
Qed.

Lemma single_reaches (pX pY : Z) (n : nat) (st : RenderState)
    (Zv c : kompleks) :
  let o := mk_orbit Zv c (pCheck st) in
  (Z.of_nat n <= max_iterations)%Z ->
  loop (S (Z.to_nat max_iterations)) 0 pX pY Zv c st
  = loop (S (Z.to_nat max_iterations - n)) (Z.of_nat n) pX pY
      (orbit_Z (orbit_of o n)) (orbit_c (orbit_of o n)) (state_at st o n).
Proof.
  intros o. induction n as [|n IH]; intros Hle.
  - rewrite Nat.sub_0_r. reflexivity.
  - rewrite IH by lia.
    replace (Z.to_nat max_iterations - n)%nat
      with (S (Z.to_nat max_iterations - S n)) by lia.
    apply single_advance. lia.
Qed.

(** In single mode, with the flag never set, the loop of a pixel applies
    the recurrence exactly max_iterations times, looks at neither the
    escape limit nor the window, and hands the colorizer the orbit value it
    then holds, with n = max_iterations; the pixel is counted as escaped. *)
Theorem single_mode_loop (pX pY : Z) (Zv c : kompleks) (st : RenderState) :
  let o := mk_orbit Zv c (pCheck st) in
  let last := Z.to_nat max_iterations in
  loop (S last) 0 pX pY Zv c st
  = (px <- colorize fractal_opt color_opt rand_after_srand fuel
             (method color_opt) (orbit_Z (orbit_of o last))
             (orbit_c (orbit_of o last)) max_iterations ;;
     ret (record_escaped pX pY max_iterations px
            (incr_run (state_at st o last))))%exc.
Proof.
  intros o last. unfold o, last.
  rewrite (single_reaches pX pY (Z.to_nat max_iterations) st Zv c) by lia.
  rewrite Nat.sub_diag. cbn [iteration_loop].
  rewrite single_escape_test, Z2Nat.id by exact budget.
  rewrite Z.eqb_refl. reflexivity.
Qed.

End SingleFacts.

Section SingleRender.
Context {KT : KompleksType} {KO : KompleksOps}.
Variable fractal_opt : FractalOptions.
Variable color_opt : ColorOptions.
Variable rand_after_srand : Z -> nat -> Z.
Variable fuel : nat.
Variables width_px height_px max_iterations pCheckN : Z.
Variable env : Env.

Hypothesis single_mode : single fractal_opt = true.
Hypothesis never_cancelled : forall k, cancel env k = false.
Hypothesis budget : (0 <= max_iterations)%Z.
Hypothesis width_range : (0 <= width_px < 2 ^ 32)%Z.
Hypothesis height_range : (0 <= height_px < 2 ^ 32)%Z.

Local Abbreviation loop :=
  (iteration_loop fractal_opt color_opt rand_after_srand fuel
     max_iterations pCheckN env).
Local Abbreviation pixel_of :=
  (pixel fractal_opt color_opt rand_after_srand fuel width_px height_px
     max_iterations pCheckN env).
Local Abbreviation columns :=
  (column_loop fractal_opt color_opt rand_after_srand fuel width_px
     height_px max_iterations pCheckN env).
Local Abbreviation rows :=
  (row_loop fractal_opt color_opt rand_after_srand fuel width_px
     height_px max_iterations pCheckN env).

Lemma u64_add_l (a b : Z) : u64 (u64 a + b) = u64 (a + b).
Proof. unfold u64, wrap. apply Zplus_mod_idemp_l. Qed.

Lemma single_loop_effect (pX pY : Z) (count : nat) :
  forall (n : Z) (Zv c : kompleks) (st st' : RenderState),
    (0 <= n <= max_iterations)%Z ->
    count = S (Z.to_nat (max_iterations - n)) ->
    loop count n pX pY Zv c st = Val st' ->
    single_pixel_effect max_iterations (max_iterations - n + 1) st st'.
Proof.
  induction count as [|count IH]; intros n Zv c st st' Hn Hcount Hloop.
  - discriminate Hcount.
  - cbn [iteration_loop] in Hloop.
    unfold escape_test in Hloop. rewrite single_mode in Hloop.
    cbn [andb negb orb] in Hloop. rewrite orb_false_r in Hloop.
    destruct (n =? max_iterations)%Z eqn:Hlast.
    + apply Z.eqb_eq in Hlast. subst n.
      destruct (colorize fractal_opt color_opt rand_after_srand fuel
                  (method color_opt) Zv c max_iterations) as [px|msg|];
        cbn [bind ret] in Hloop; try discriminate Hloop.
      injection Hloop as <-. unfold single_pixel_effect.
      cbn [record_escaped incr_run escaped not_escaped periodic skipped
           currentPoint run max_n].
      repeat split.
      * f_equal. lia.
      * destruct (max_iterations >? max_n st)%Z eqn:Hgt; lia.
    + apply Z.eqb_neq in Hlast.
      destruct (iterate fractal_opt Zv c n) as [Z' c'].
      unfold poll in Hloop. rewrite never_cancelled in Hloop.
      apply IH in Hloop; [|lia|lia].
      destruct Hloop as (He & Hne & Hp & Hs & Hcur & Hrun & Hmax).
      unfold single_pixel_effect.
      rewrite He, Hne, Hp, Hs, Hcur, Hrun, Hmax.
      cbn [incr_run escaped not_escaped periodic skipped currentPoint run
           max_n].
      repeat split. rewrite u64_add_l. f_equal. lia.
Qed.

Lemma single_pixel (pX pY : Z) (st st' : RenderState) :
  pixel_of pX pY st = Val st' ->
  single_pixel_effect max_iterations (max_iterations + 1) st st'.
Proof.
  unfold pixel, can_skip. rewrite single_mode. cbn [orb]. intros Hpixel.
  apply single_loop_effect in Hpixel; [|lia|f_equal; f_equal; lia].
  rewrite Z.sub_0_r in Hpixel. exact Hpixel.
Qed.

Lemma single_counted_step (st st' : RenderState) (done : Z) :
  (0 <= done)%Z -> (done + 1 < 2 ^ 64)%Z ->
  single_counted max_iterations st done ->
  single_pixel_effect max_iterations (max_iterations + 1) st st' ->
  single_counted max_iterations (incr_currentPoint st') (done + 1).
Proof.
  unfold single_counted, single_pixel_effect.
  intros Hdone Hroom (He & Hne & Hp & Hs & Hcur & Hrun & Hmax)
         (He' & Hne' & Hp' & Hs' & Hcur' & Hrun' & Hmax').
  cbn [incr_currentPoint escaped not_escaped periodic skipped currentPoint
       run max_n].
  rewrite He', Hne', Hp', Hs', Hcur', Hrun', Hmax', He, Hne, Hp, Hs, Hcur,
    Hrun, Hmax.
  rewrite u64_add_l, (u64_small (done + 1)) by lia.
  repeat split.
  - f_equal. lia.
  - replace (done + 1 =? 0)%Z with false by (symmetry; apply Z.eqb_neq; lia).
    destruct (done =? 0)%Z; lia.
Qed.

Lemma single_columns (pY : Z) (count : nat) :
  forall (pX : Z) (st st' : RenderState) (done : Z),
    (0 <= done)%Z -> (done + Z.of_nat count < 2 ^ 64)%Z ->
    single_counted max_iterations st done ->
    columns count pX pY st = Val st' ->
    single_counted max_iterations st' (done + Z.of_nat count).
Proof.
  induction count as [|count IH]; intros pX st st' done Hdone Hroom Hst Hrun.
  - injection Hrun as <-. rewrite Z.add_0_r. exact Hst.
  - cbn [column_loop] in Hrun.
    destruct (pixel_of pX pY st) as [st1|msg|] eqn:Hpixel;
      cbn [bind] in Hrun; try discriminate Hrun.
    unfold poll in Hrun. rewrite never_cancelled in Hrun.
    apply single_pixel in Hpixel.
    apply (IH _ _ _ (done + 1)%Z) in Hrun.
    + replace (done + Z.of_nat (S count))%Z
        with (done + 1 + Z.of_nat count)%Z by lia.
      exact Hrun.
    + lia.
    + lia.
    + assert (Hnext : single_counted max_iterations
                        (incr_currentPoint st1) (done + 1))
        by (apply (single_counted_step st st1 done);
            [lia|lia|exact Hst|exact Hpixel]).
      exact Hnext.
Qed.

Lemma single_rows (count : nat) :
  forall (pY : Z) (st st' : RenderState) (done : Z),
    (0 <= done)%Z ->
    (done + Z.of_nat count * width_px < 2 ^ 64)%Z ->
    single_counted max_iterations st done ->
    rows count pY st = Val st' ->
    single_counted max_iterations st' (done + Z.of_nat count * width_px).
Proof.
  induction count as [|count IH]; intros pY st st' done Hdone Hroom Hst Hrun.
  - injection Hrun as <-. rewrite Z.mul_0_l, Z.add_0_r. exact Hst.
  - cbn [row_loop] in Hrun.
    destruct (columns (Z.to_nat width_px) 0 pY st) as [st1|msg|] eqn:Hrow;
      cbn [bind] in Hrun; try discriminate Hrun.
    apply (single_columns pY _ _ _ _ done) in Hrow; [|lia|nia|exact Hst].
    rewrite Z2Nat.id in Hrow by lia.
    apply (IH _ _ _ (done + width_px)%Z) in Hrun; [|lia|nia|exact Hrow].
    replace (done + Z.of_nat (S count) * width_px)%Z
      with (done + width_px + Z.of_nat count * width_px)%Z by nia.
    exact Hrun.
Qed.

(** A single-mode render that is not cancelled counts every pixel as
    escaped, and the pass counter [run] comes to max_iterations + 1 for each
    pixel (as the unsigned 64-bit counter holds it): the "Average
    iterations" the program prints is max_iterations + 1 whatever the
    fractal, and the largest escape index it prints is max_iterations as
    soon as there is one pixel. *)
Theorem single_mode_render (r : RenderResult) :
  createFractal fractal_opt color_opt rand_after_srand fuel width_px
    height_px max_iterations pCheckN env = Val r ->
  escaped (final r) = (width_px * height_px)%Z
  /\ run (final r) = u64 (width_px * height_px * (max_iterations + 1))
  /\ max_n (final r)
     = (if (width_px * height_px =? 0)%Z then 0 else max_iterations)%Z.
Proof.
  intros Hrender. unfold createFractal in Hrender.
  destruct (rows (Z.to_nat height_px) 0 (initial_state pCheckN env))
    as [st|msg|] eqn:Hrows; cbn [bind ret] in Hrender;
    try discriminate Hrender.
  injection Hrender as <-. cbn [final].
  apply (single_rows _ _ _ _ 0%Z) in Hrows.
  - rewrite Z2Nat.id, Z.add_0_l, (Z.mul_comm height_px) in Hrows by lia.
    destruct Hrows as (He & _ & _ & _ & _ & Hrun & Hmax).
    split; [exact He|]. split; [exact Hrun|exact Hmax].
  - lia.
  - rewrite Z2Nat.id by lia. nia.
  - unfold single_counted, initial_state. cbn. repeat split.
Qed.

End SingleRender.

(** ** Cancellation *)

Section CancellationFacts.
Context {KT : KompleksType} {KO : KompleksOps}.
Variable fractal_opt : FractalOptions.
Variable color_opt : ColorOptions.
Variable rand_after_srand : Z -> nat -> Z.
Variable fuel : nat.
Variables width_px height_px max_iterations pCheckN : Z.
Variable env : Env.

Hypothesis width_range : (0 <= width_px < 2 ^ 32)%Z.
Hypothesis height_range : (0 <= height_px < 2 ^ 32)%Z.
Hypothesis budget : (0 <= max_iterations)%Z.
(** The handler sets the flag and nothing clears it. *)
Hypothesis flag_stays :
  forall k, cancel env k = true -> cancel env (S k) = true.

Local Abbreviation loop :=
  (iteration_loop fractal_opt color_opt rand_after_srand fuel
     max_iterations pCheckN env).
Local Abbreviation pixel_of :=
  (pixel fractal_opt color_opt rand_after_srand fuel width_px height_px
     max_iterations pCheckN env).
Local Abbreviation columns :=
  (column_loop fractal_opt color_opt rand_after_srand fuel width_px
     height_px max_iterations pCheckN env).
Local Abbreviation rows :=
  (row_loop fractal_opt color_opt rand_after_srand fuel width_px
     height_px max_iterations pCheckN env).

Lemma flag_stays_later (j k : nat) :
  (j <= k)%nat -> cancel env j = true -> cancel env k = true.
Proof.
  intros Hle Hset. induction Hle as [|k Hle IH]; [exact Hset|].
  apply flag_stays. exact IH.
Qed.

Lemma flag_seen_later (st st' : RenderState) :
  (polls st <= polls st')%nat -> flag_seen env st -> flag_seen env st'.
Proof. intros Hle (k & Hk & Hset). exists k. split; [lia|exact Hset]. Qed.

Lemma flag_seen_set (st : RenderState) :
  flag_seen env st -> cancel env (polls st) = true.
Proof.
  intros (k & Hk & Hset). apply (flag_stays_later k); [lia|exact Hset].
Qed.

(** The iteration loop ends with one classification, or with none after a
    read of the flag that saw it set. *)
Lemma loop_classifies_or_stops (pX pY : Z) (count : nat) :
  forall (n : Z) (Zv c : kompleks) (st st' : RenderState),
    (0 <= n <= max_iterations)%Z ->
    count = S (Z.to_nat (max_iterations - n)) ->
    loop count n pX pY Zv c st = Val st' ->
    (polls st <= polls st')%nat
    /\ (classified_once st st'
        \/ (same_counts st st' /\ flag_seen env st')).
Proof.
  induction count as [|count IH]; intros n Zv c st st' Hn Hcount Hloop.
  - discriminate Hcount.
  - cbn [iteration_loop] in Hloop.
    destruct (escape_test fractal_opt max_iterations Zv n).
    + destruct (colorize fractal_opt color_opt rand_after_srand fuel
                  (method color_opt) Zv c n) as [px|msg|];
        cbn [bind ret] in Hloop; try discriminate Hloop.
      injection Hloop as <-.
      split; [cbn; lia|]. left.
      split; [reflexivity|]. left. repeat split.
    + destruct (n =? max_iterations)%Z eqn:Hlast.
      * injection Hloop as <-.
        split; [cbn; lia|]. left.
        split; [reflexivity|]. right; left. repeat split.
      * apply Z.eqb_neq in Hlast.
        destruct (iterate fractal_opt Zv c n) as [Z' c'].
        destruct (negb (single fractal_opt) && (pCheckN >? 0)%Z).
        -- destruct (find_kompleks Z' (pCheck (incr_run st))) as [i|].
           ++ injection Hloop as <-.
              split; [cbn; lia|]. left.
              split; [reflexivity|]. right; right; left. repeat split.
           ++ unfold poll in Hloop.
              cbn [with_pCheck incr_run polls] in Hloop.
              destruct (cancel env (polls st)) eqn:Hflag.
              ** injection Hloop as <-.
                 split; [cbn; lia|]. right.
                 split; [repeat split|].
                 exists (polls st). split; [cbn; lia|exact Hflag].
              ** apply IH in Hloop; [|lia|lia].
                 destruct Hloop as [Hpolls [Hone | [Hsame Hseen]]].
                 --- split; [cbn in Hpolls; lia|]. left.
                     eapply classified_once_from; [|exact Hone].
                     repeat split.
                 --- split; [cbn in Hpolls; lia|]. right.
                     split; [exact Hsame|exact Hseen].
        -- unfold poll in Hloop.
           cbn [with_pCheck incr_run polls] in Hloop.
           destruct (cancel env (polls st)) eqn:Hflag.
           ** injection Hloop as <-.
              split; [cbn; lia|]. right.
              split; [repeat split|].
              exists (polls st). split; [cbn; lia|exact Hflag].
           ** apply IH in Hloop; [|lia|lia].
              destruct Hloop as [Hpolls [Hone | [Hsame Hseen]]].
              --- split; [cbn in Hpolls; lia|]. left.
                  eapply classified_once_from; [|exact Hone].
                  repeat split.
              --- split; [cbn in Hpolls; lia|]. right.
                  split; [exact Hsame|exact Hseen].
Qed.

Lemma pixel_classifies_or_stops (pX pY : Z) (st st' : RenderState) :
  pixel_of pX pY st = Val st' ->
  (polls st <= polls st')%nat
  /\ (classified_once st st' \/ (same_counts st st' /\ flag_seen env st')).
Proof.
  unfold pixel. intros Hpixel.
  destruct (can_skip fractal_opt (pixel_x fractal_opt width_px pX)
              (pixel_y fractal_opt height_px pY)).
  - injection Hpixel as <-.
    split; [cbn; lia|]. left.
    split; [reflexivity|]. right; right; right. repeat split.
  - apply loop_classifies_or_stops in Hpixel; [|lia|f_equal; f_equal; lia].
    destruct Hpixel as [Hpolls [Hone | [Hsame Hseen]]].
    + split; [cbn in Hpolls; lia|]. left.
      eapply classified_once_from; [|exact Hone]. repeat split.
    + split; [cbn in Hpolls; lia|]. right.
      split; [exact Hsame|exact Hseen].
Qed.

(** The sum of the counters after one classification. *)
Lemma classified_once_total (st st' : RenderState) :
  (0 <= escaped st)%Z -> (0 <= not_escaped st)%Z -> (0 <= periodic st)%Z ->
  (0 <= skipped st)%Z -> (classified_total st + 1 < 2 ^ 64)%Z ->
  classified_once st st' ->
  (0 <= escaped st')%Z /\ (0 <= not_escaped st')%Z /\ (0 <= periodic st')%Z
  /\ (0 <= skipped st')%Z
  /\ classified_total st' = (classified_total st + 1)%Z
  /\ currentPoint st' = currentPoint st.
Proof.
  unfold classified_once, classified_total.
  intros He Hne Hp Hs Hroom [Hcur Hone].
  destruct Hone as [(-> & -> & -> & ->) | [(-> & -> & -> & ->)
                   | [(-> & -> & -> & ->) | (-> & -> & -> & ->)]]];
    rewrite u64_small by lia; repeat split; lia.
Qed.

Lemma columns_partly_counted (pY : Z) (count : nat) :
  forall (pX : Z) (st st' : RenderState) (done limit : Z),
    (0 <= done)%Z -> (done + Z.of_nat count = limit)%Z ->
    (limit + 1 < 2 ^ 64)%Z ->
    partly_counted env st done ->
    columns count pX pY st = Val st' ->
    partly_counted env st' limit.
Proof.
  induction count as [|count IH];
    intros pX st st' done limit Hdone Hlimit Hroom Hst Hrun.
  - injection Hrun as <-. replace limit with done by lia. exact Hst.
  - cbn [column_loop] in Hrun.
    destruct (pixel_of pX pY st) as [st1|msg|] eqn:Hpixel;
      cbn [bind] in Hrun; try discriminate Hrun.
    apply pixel_classifies_or_stops in Hpixel.
    destruct Hpixel as [Hpolls Hpixel].
    destruct Hst as (He & Hne & Hp & Hs & Hc & Hle & Htotal & Hfull).
    unfold poll in Hrun.
    destruct (cancel env (polls st1)) eqn:Hflag.
    + (* the break *)
      injection Hrun as <-.
      assert (Hseen : flag_seen env
                (snd (poll env st1)))
        by (exists (polls st1); split; [cbn; lia|exact Hflag]).
      destruct Hpixel as [Hone | [(Ha & Hb & Hc' & Hd & Hcur) _]].
      * apply classified_once_total in Hone; try lia.
        destruct Hone as (He1 & Hne1 & Hp1 & Hs1 & Htotal1 & Hcur1).
        unfold partly_counted, classified_total in *.
        cbn [escaped not_escaped periodic skipped currentPoint].
        repeat split; try lia. left. exact Hseen.
      * unfold partly_counted, classified_total in *.
        cbn [escaped not_escaped periodic skipped currentPoint].
        repeat split; try lia. left. exact Hseen.
    + destruct Hpixel as [Hone | [_ Hseen1]].
      * apply classified_once_total in Hone; try lia.
        destruct Hone as (He1 & Hne1 & Hp1 & Hs1 & Htotal1 & Hcur1).
        apply (IH _ _ _ (done + 1)%Z limit) in Hrun; [exact Hrun|lia|lia|lia|].
        unfold partly_counted, classified_total in *.
        cbn [incr_currentPoint escaped not_escaped periodic skipped
             currentPoint].
        rewrite Hcur1, (u64_small (currentPoint st + 1)) by lia.
        repeat split; try lia.
        destruct Hfull as [Hseen | [Hall Hcur]].
        -- left. destruct Hseen as (k & Hk & Hset).
           exists k. split; [cbn; lia|exact Hset].
        -- right. split; lia.
      * apply flag_seen_set in Hseen1. congruence.
Qed.

Lemma rows_partly_counted (count : nat) :
  forall (pY : Z) (st st' : RenderState) (done : Z),
    (0 <= done)%Z ->
    (done + Z.of_nat count * width_px + 1 < 2 ^ 64)%Z ->
    partly_counted env st done ->
    rows count pY st = Val st' ->
    partly_counted env st' (done + Z.of_nat count * width_px).
Proof.
  induction count as [|count IH]; intros pY st st' done Hdone Hroom Hst Hrun.
  - injection Hrun as <-. rewrite Z.mul_0_l, Z.add_0_r. exact Hst.
  - cbn [row_loop] in Hrun.
    destruct (columns (Z.to_nat width_px) 0 pY st) as [st1|msg|] eqn:Hrow;
      cbn [bind] in Hrun; try discriminate Hrun.
    apply (columns_partly_counted pY _ _ _ _ done (done + width_px)%Z)
      in Hrow; [|lia|lia|nia|exact Hst].
    apply (IH _ _ _ (done + width_px)%Z) in Hrun; [|lia|nia|exact Hrow].
    replace (done + Z.of_nat (S count) * width_px)%Z
      with (done + width_px + Z.of_nat count * width_px)%Z by nia.
    exact Hrun.
Qed.

(** When the flag, once set, stays set: however a render that returns was
    cancelled, the point counter never exceeds the sum of the four
    counters, which never exceeds the number of pixels; and a file not
    marked "_partial" has complete statistics -- every pixel classified
    once -- and no bug message.  So the message "There is a bug somewhere"
    can only come with a file marked partial. *)
Theorem cancelled_statistics (r : RenderResult) :
  createFractal fractal_opt color_opt rand_after_srand fuel width_px
    height_px max_iterations pCheckN env = Val r ->
  (0 <= currentPoint (final r) <= classified_total (final r))%Z
  /\ (classified_total (final r) <= width_px * height_px)%Z
  /\ (marked_partial r = false ->
      classified_total (final r) = (width_px * height_px)%Z
      /\ currentPoint (final r) = (width_px * height_px)%Z
      /\ bug_reported r = false).
Proof.
  intros Hrender. unfold createFractal in Hrender.
  destruct (rows (Z.to_nat height_px) 0 (initial_state pCheckN env))
    as [st|msg|] eqn:Hrows; cbn [bind ret] in Hrender;
    try discriminate Hrender.
  injection Hrender as <-. cbn [final bug_reported marked_partial].
  apply (rows_partly_counted _ _ _ _ 0%Z) in Hrows.
  - rewrite Z2Nat.id, Z.add_0_l, (Z.mul_comm height_px) in Hrows by lia.
    destruct Hrows as (He & Hne & Hp & Hs & Hc & Hle & Htotal & Hfull).
    split; [lia|]. split; [exact Htotal|].
    intros Hunmarked.
    destruct Hfull as [Hseen | [Hall Hcur]].
    + apply flag_seen_set in Hseen. congruence.
    + split; [exact Hall|]. split; [exact Hcur|].
      unfold classified_total in Hall. rewrite Hall, Hcur.
      rewrite u64_small by nia. rewrite Z.eqb_refl. reflexivity.
  - lia.
  - rewrite Z2Nat.id by lia. nia.
  - unfold partly_counted, classified_total, initial_state.
    cbn. repeat split; lia.
Qed.

End CancellationFacts.

Section CancelledAtOnce.
Context {KT : KompleksType} {KO : KompleksOps}.
Variable fractal_opt : FractalOptions.
Variable color_opt : ColorOptions.
Variable rand_after_srand : Z -> nat -> Z.
Variable fuel : nat.
Variables width_px height_px max_iterations pCheckN : Z.
Variable env : Env.

Hypothesis width_positive : (0 < width_px)%Z.
Hypothesis height_range : (0 <= height_px < 2 ^ 32)%Z.
Hypothesis budget : (0 <= max_iterations)%Z.
Hypothesis flag_set : forall k, cancel env k = true.

Local Abbreviation pixel_of :=
  (pixel fractal_opt color_opt rand_after_srand fuel width_px height_px
     max_iterations pCheckN env).
Local Abbreviation columns :=
  (column_loop fractal_opt color_opt rand_after_srand fuel width_px
     height_px max_iterations pCheckN env).
Local Abbreviation rows :=
  (row_loop fractal_opt color_opt rand_after_srand fuel width_px
     height_px max_iterations pCheckN env).

(** A pixel reads the clock once. *)
Lemma pixel_reads_clock (pX pY : Z) (st st' : RenderState) :
  pixel_of pX pY st = Val st' -> ticks st' = S (ticks st).
Proof.
  unfold pixel. intros Hpixel.
  destruct (can_skip fractal_opt (pixel_x fractal_opt width_px pX)
              (pixel_y fractal_opt height_px pY)).
  - injection Hpixel as <-. reflexivity.
  - pose (kept := fun s : RenderState => ticks s = S (ticks st)).
    assert (Hkept : kept st').
    { refine (loop_preserves fractal_opt color_opt rand_after_srand fuel
                max_iterations pCheckN env kept _ _ _ _ _ _ pX pY _ 0%Z _ _
                _ st' _ _ _ Hpixel); unfold kept.
      - intros s Hs. exact Hs.
      - intros s Hs. exact Hs.
      - intros s x y z n px _ _ Hs. exact Hs.
      - intros s _ Hs. exact Hs.
      - intros s i n z _ _ _ Hs. exact Hs.
      - intros s z _ Hs. exact Hs.
      - lia.
      - rewrite Z.sub_0_r. reflexivity.
      - reflexivity. }
    exact Hkept.
Qed.

(** With the flag set, a row ends after its first pixel, which was
    classified once or not at all; the point counter stays. *)
Lemma row_cancelled (pY : Z) (st st' : RenderState) (started : Z) :
  (0 <= started)%Z -> (started + 1 < 2 ^ 64)%Z ->
  (0 <= escaped st)%Z -> (0 <= not_escaped st)%Z -> (0 <= periodic st)%Z ->
  (0 <= skipped st)%Z -> (classified_total st <= started)%Z ->
  columns (Z.to_nat width_px) 0 pY st = Val st' ->
  ticks st' = S (ticks st) /\ currentPoint st' = currentPoint st
  /\ (0 <= escaped st')%Z /\ (0 <= not_escaped st')%Z
  /\ (0 <= periodic st')%Z /\ (0 <= skipped st')%Z
  /\ (classified_total st' <= started + 1)%Z.
Proof.
  intros Hstarted Hroom He Hne Hp Hs Htotal Hrow.
  destruct (Z.to_nat width_px) as [|count] eqn:Hwidth; [lia|].
  cbn [column_loop] in Hrow.
  destruct (pixel_of 0 pY st) as [st1|msg|] eqn:Hpixel;
    cbn [bind] in Hrow; try discriminate Hrow.
  unfold poll in Hrow. rewrite flag_set in Hrow. injection Hrow as <-.
  cbn [ticks currentPoint escaped not_escaped periodic skipped].
  pose proof (pixel_reads_clock _ _ _ _ Hpixel) as Hticks.
  apply pixel_classifies_or_stops in Hpixel; [|exact budget].
  destruct Hpixel as [_ [Hone | [(Ha & Hb & Hc & Hd & Hcur) _]]].
  - apply classified_once_total in Hone; try lia.
    destruct Hone as (He1 & Hne1 & Hp1 & Hs1 & Htotal1 & Hcur1).
    unfold classified_total in *.
    cbn [escaped not_escaped periodic skipped].
    repeat split; try assumption; lia.
  - unfold classified_total in *.
    cbn [escaped not_escaped periodic skipped].
    repeat split; try assumption; lia.
Qed.

Lemma rows_cancelled (count : nat) :
  forall (pY : Z) (st st' : RenderState) (started : Z),
    (0 <= started)%Z -> (started + Z.of_nat count < 2 ^ 64)%Z ->
    (0 <= escaped st)%Z -> (0 <= not_escaped st)%Z -> (0 <= periodic st)%Z ->
    (0 <= skipped st)%Z -> (classified_total st <= started)%Z ->
    rows count pY st = Val st' ->
    ticks st' = (ticks st + count)%nat /\ currentPoint st' = currentPoint st
    /\ (0 <= classified_total st' <= started + Z.of_nat count)%Z.
Proof.
  induction count as [|count IH];
    intros pY st st' started Hstarted Hroom He Hne Hp Hs Htotal Hrun.
  - injection Hrun as <-. unfold classified_total in *.
    repeat split; lia.
  - cbn [row_loop] in Hrun.
    destruct (columns (Z.to_nat width_px) 0 pY st) as [st1|msg|] eqn:Hrow;
      cbn [bind] in Hrun; try discriminate Hrun.
    apply (row_cancelled pY st st1 started) in Hrow; try lia.
    destruct Hrow as (Hticks & Hcur & He1 & Hne1 & Hp1 & Hs1 & Htotal1).
    apply (IH _ _ _ (started + 1)%Z) in Hrun; lia.
Qed.

(** With the flag set before the render starts and a raster at least one
    pixel wide, the render still goes through every row: in each it starts
    the first pixel -- one clock reading per row after the first -- and
    leaves the row at the read of the flag after that pixel, which may have
    been classified before any read (skipped, periodic at the first pass,
    or out of budget at once).  The point counter stays 0 and the file is
    marked partial. *)
Theorem cancelled_at_once (r : RenderResult) :
  createFractal fractal_opt color_opt rand_after_srand fuel width_px
    height_px max_iterations pCheckN env = Val r ->
  ticks (final r) = S (Z.to_nat height_px)
  /\ currentPoint (final r) = 0%Z
  /\ (0 <= classified_total (final r) <= height_px)%Z
  /\ marked_partial r = true.
Proof.
  intros Hrender. unfold createFractal in Hrender.
  destruct (rows (Z.to_nat height_px) 0 (initial_state pCheckN env))
    as [st|msg|] eqn:Hrows; cbn [bind ret] in Hrender;
    try discriminate Hrender.
  injection Hrender as <-. cbn [final marked_partial].
  apply (rows_cancelled _ _ _ _ 0%Z) in Hrows;
    try (unfold classified_total; cbn; lia);
    try (rewrite Z2Nat.id by lia; lia).
  destruct Hrows as (Hticks & Hcur & Htotal).
  rewrite Z2Nat.id, Z.add_0_l in Htotal by lia.
  split; [exact Hticks|]. split; [exact Hcur|]. split; [exact Htotal|].
  apply flag_set.
Qed.

End CancelledAtOnce.

(** ** What a colour depends on *)

Section ColorizeDependence.
Context {KT : KompleksType} {KO : KompleksOps}.
Variable fractal_opt : FractalOptions.
Variable color_opt : ColorOptions.
Variable rand_after_srand : Z -> nat -> Z.
Variable fuel : nat.

(** No method looks at [c].  With smoothing off -- and, for method 1, the
    fancy colours disabled -- the methods 0, 1, 10, 12, 13, 14 and 15 colour
    by the index n alone: equal indices give equal pixels whatever the orbit
    value.  The methods 2 to 7, 11 and 17 colour by the orbit value alone:
    the index does not matter. *)
Theorem colorize_dependence :
  (forall m Zv c c' n,
      colorize fractal_opt color_opt rand_after_srand fuel m Zv c n
      = colorize fractal_opt color_opt rand_after_srand fuel m Zv c' n)
  /\ (forall m Zv Zv' c c' n,
        List.In m [0; 1; 10; 12; 13; 14; 15]%Z ->
        smooth color_opt = false ->
        (m = 1%Z -> disable_fancy color_opt = true) ->
        colorize fractal_opt color_opt rand_after_srand fuel m Zv c n
        = colorize fractal_opt color_opt rand_after_srand fuel m Zv' c' n)
  /\ (forall m Zv c c' n n',
        List.In m [2; 3; 4; 5; 6; 7; 11; 17]%Z ->
        colorize fractal_opt color_opt rand_after_srand fuel m Zv c n
        = colorize fractal_opt color_opt rand_after_srand fuel m Zv c' n').
Proof.
  split; [|split].
  - intros m Zv c c' n. reflexivity.
  - intros m Zv Zv' c c' n Hm Hsmooth Hfancy.
    unfold colorize. rewrite !colorize_rec_unfold.
    cbn [List.In] in Hm.
    destruct Hm as [<- | [<- | [<- | [<- | [<- | [<- | [<- | []]]]]]]];
      unfold method_channels; rewrite ?Hsmooth, ?(Hfancy eq_refl);
      reflexivity.
  - intros m Zv c c' n n' Hm.
    unfold colorize. rewrite !colorize_rec_unfold.
    cbn [List.In] in Hm.
    destruct Hm as [<- | [<- | [<- | [<- | [<- | [<- | [<- | [<- | []]]]]]]]];
      reflexivity.
Qed.

End ColorizeDependence.

(** ** The hue method on exact numbers *)

(** Where the hue is in range, the two loops of HSV2RGB are not entered. *)
Lemma HSV2RGB_in_range `{KompleksType} (fuel : nat) (n : Z)
    (s v : kompleks_type) :
  hue_in_range n = true ->
  HSV2RGB fuel (hue n) s v = HSV2RGB 0 (hue n) s v.
Proof.
  unfold hue_in_range. intros Hrange.
  apply andb_prop in Hrange. destruct Hrange as [Hrange _].
  apply andb_prop in Hrange. destruct Hrange as [Hlow Hhigh].
  apply negb_true_iff in Hlow, Hhigh.
  unfold HSV2RGB.
  assert (Hup : forall f, hsv_wrap_up f (hue n) = Val (hue n))
    by (intros f; destruct f; cbn [hsv_wrap_up]; rewrite Hlow; reflexivity).
  assert (Hdown : forall f, hsv_wrap_down f (hue n) = Val (hue n))
    by (intros f; destruct f; cbn [hsv_wrap_down]; rewrite Hhigh;
        reflexivity).
  rewrite !Hup. cbn [bind]. rewrite !Hdown. reflexivity.
Qed.

(** The hue method never fails: the hue (n mod 256) / 256 is a multiple of
    1/256 in [0, 1), on which the arithmetic of HSV2RGB is exact, so
    neither of its loops is entered, its index is at most 5 and its
    exception is out of reach of colorize.  The colour it returns for
    saturation 1 and value 1 is fully saturated: its largest channel is 255
    and its smallest is 0. *)
Theorem hue_method_exact (fractal_opt : FractalOptions)
    (color_opt : ColorOptions) (rand_after_srand : Z -> nat -> Z)
    (fuel : nat) (Zv c : kompleks) (n : Z) :
  (exists r g b,
      HSV2RGB fuel (hue n) (of_Z 1) (of_Z 1) = Val (r, g, b)
      /\ Z.max r (Z.max g b) = 255 /\ Z.min r (Z.min g b) = 0)
  /\ (exists px,
        colorize fractal_opt color_opt rand_after_srand fuel 15 Zv c n
        = Val px).
Proof.
  split.
  - rewrite HSV2RGB_in_range by apply hue_in_range_exact.
    pose (full := fun k : nat =>
      match HSV2RGB 0 (hue (Z.of_nat k)) (of_Z 1) (of_Z 1) with
      | Val (r, g, b) =>
          (Z.max r (Z.max g b) =? 255) && (Z.min r (Z.min g b) =? 0)
      | _ => false
      end).
    assert (Hall : forallb full (List.seq 0 256) = true)
      by (vm_compute; reflexivity).
    rewrite forallb_forall in Hall.
    assert (Hr : 0 <= n mod 256 < 256) by (apply Z.mod_pos_bound; lia).
    specialize (Hall (Z.to_nat (n mod 256))).
    assert (Hsame : hue n = hue (Z.of_nat (Z.to_nat (n mod 256)))).
    { unfold hue. rewrite Z2Nat.id by lia.
      rewrite Z.mod_mod by lia. reflexivity. }
    rewrite Hsame.
    assert (Hfull : full (Z.to_nat (n mod 256)) = true)
      by (apply Hall; apply in_seq; lia).
    unfold full in Hfull.
    destruct (HSV2RGB 0 (hue (Z.of_nat (Z.to_nat (n mod 256)))) (of_Z 1)
                (of_Z 1)) as [[[r g] b]|msg|]; try discriminate Hfull.
    apply andb_prop in Hfull. destruct Hfull as [Hmax Hmin].
    apply Z.eqb_eq in Hmax, Hmin.
    exists r, g, b. split; [reflexivity|]. split; assumption.
  - unfold colorize. rewrite colorize_rec_unfold.
    destruct (hue_returns fractal_opt color_opt rand_after_srand fuel
                (colorize_rec fractal_opt color_opt rand_after_srand 1 fuel
                   0 Zv c n) Zv c n (hue_in_range_exact n)) as [ch Hch].
    rewrite Hch. eexists. reflexivity.
Qed.

(** ** The pass counter *)

Section RunFacts.
Context {KT : KompleksType} {KO : KompleksOps}.
Variable fractal_opt : FractalOptions.
Variable color_opt : ColorOptions.
Variable rand_after_srand : Z -> nat -> Z.
Variable fuel : nat.
Variables width_px height_px max_iterations pCheckN : Z.
Variable env : Env.

Hypothesis width_range : (0 <= width_px < 2 ^ 32)%Z.
Hypothesis height_range : (0 <= height_px < 2 ^ 32)%Z.
Hypothesis budget : (0 <= max_iterations)%Z.
Hypothesis never_cancelled : forall k, cancel env k = false.
(** The counter of passes does not wrap. *)
Hypothesis run_fits :
  (width_px * height_px * (max_iterations + 1) < 2 ^ 64)%Z.

Local Abbreviation loop :=
  (iteration_loop fractal_opt color_opt rand_after_srand fuel
     max_iterations pCheckN env).
Local Abbreviation pixel_of :=
  (pixel fractal_opt color_opt rand_after_srand fuel width_px height_px
     max_iterations pCheckN env).
Local Abbreviation columns :=
  (column_loop fractal_opt color_opt rand_after_srand fuel width_px
     height_px max_iterations pCheckN env).
Local Abbreviation rows :=
  (row_loop fractal_opt color_opt rand_after_srand fuel width_px
     height_px max_iterations pCheckN env).

(** The iteration loop entered at index n makes at least one pass and at
    most one for each index left, and skips nothing. *)
Lemma loop_passes (pX pY : Z) (count : nat) :
  forall (n : Z) (Zv c : kompleks) (st st' : RenderState),
    (0 <= n <= max_iterations)%Z ->
    count = S (Z.to_nat (max_iterations - n)) ->
    (0 <= run st)%Z -> (run st + (max_iterations - n + 1) < 2 ^ 64)%Z ->
    loop count n pX pY Zv c st = Val st' ->
    skipped st' = skipped st
    /\ (run st + 1 <= run st' <= run st + (max_iterations - n + 1))%Z.
Proof.
  induction count as [|count IH];
    intros n Zv c st st' Hn Hcount Hrun Hroom Hloop.
  - discriminate Hcount.
  - cbn [iteration_loop] in Hloop.
    assert (Hpass : run (incr_run st) = (run st + 1)%Z)
      by (cbn [incr_run run]; apply u64_small; lia).
    destruct (escape_test fractal_opt max_iterations Zv n).
    + destruct (colorize fractal_opt color_opt rand_after_srand fuel
                  (method color_opt) Zv c n) as [px|msg|];
        cbn [bind ret] in Hloop; try discriminate Hloop.
      injection Hloop as <-. cbn [record_escaped skipped run].
      rewrite Hpass. split; [reflexivity|lia].
    + destruct (n =? max_iterations)%Z eqn:Hlast.
      * injection Hloop as <-. cbn [incr_not_escaped skipped run].
        rewrite Hpass. split; [reflexivity|lia].
      * apply Z.eqb_neq in Hlast.
        destruct (iterate fractal_opt Zv c n) as [Z' c'].
        destruct (negb (single fractal_opt) && (pCheckN >? 0)%Z).
        -- destruct (find_kompleks Z' (pCheck (incr_run st))) as [i|].
           ++ injection Hloop as <-. cbn [record_periodic skipped run].
              rewrite Hpass. split; [reflexivity|lia].
           ++ unfold poll in Hloop. rewrite never_cancelled in Hloop.
              apply IH in Hloop; cbn [snd with_pCheck run skipped] in *;
                rewrite ?Hpass in *; try lia.
              cbn [incr_run skipped] in Hloop. split; [apply Hloop|lia].
        -- unfold poll in Hloop. rewrite never_cancelled in Hloop.
           apply IH in Hloop; cbn [snd run skipped] in *;
             rewrite ?Hpass in *; try lia.
           cbn [incr_run skipped] in Hloop. split; [apply Hloop|lia].
Qed.

(** A pixel is skipped at no pass, or costs between one pass and
    max_iterations + 1. *)
Lemma pixel_passes (pX pY : Z) (st st' : RenderState) :
  (0 <= run st)%Z -> (run st + (max_iterations + 1) < 2 ^ 64)%Z ->
  pixel_of pX pY st = Val st' ->
  (skipped st' = u64 (skipped st + 1) /\ run st' = run st)
  \/ (skipped st' = skipped st
      /\ (run st + 1 <= run st' <= run st + (max_iterations + 1))%Z).
Proof.
  unfold pixel. intros Hrun Hroom Hpixel.
  destruct (can_skip fractal_opt (pixel_x fractal_opt width_px pX)
              (pixel_y fractal_opt height_px pY)).
  - injection Hpixel as <-. left. split; reflexivity.
  - right. apply loop_passes in Hpixel;
      cbn [with_pCheck tick run skipped] in *; lia.
Qed.

Lemma columns_passes (pY : Z) (count : nat) :
  forall (pX : Z) (st st' : RenderState) (done : Z),
    (0 <= done)%Z -> (done + Z.of_nat count <= width_px * height_px)%Z ->
    counted st done ->
    (done - skipped st <= run st
     <= (done - skipped st) * (max_iterations + 1))%Z ->
    columns count pX pY st = Val st' ->
    counted st' (done + Z.of_nat count)
    /\ (done + Z.of_nat count - skipped st' <= run st'
        <= (done + Z.of_nat count - skipped st') * (max_iterations + 1))%Z.
Proof.
  induction count as [|count IH];
    intros pX st st' done Hdone Hroom Hst Hpasses Hrun.
  - injection Hrun as <-. rewrite Z.add_0_r. split; assumption.
  - cbn [column_loop] in Hrun.
    destruct (pixel_of pX pY st) as [st1|msg|] eqn:Hpixel;
      cbn [bind] in Hrun; try discriminate Hrun.
    unfold poll in Hrun. rewrite never_cancelled in Hrun.
    assert (Hskipped : (0 <= skipped st <= done)%Z)
      by (unfold counted, classified_total in Hst; lia).
    assert (Hfits : ((done + 1) * (max_iterations + 1) < 2 ^ 64)%Z) by nia.
    pose proof (pixel_passes pX pY st st1) as Hcost.
    specialize (Hcost ltac:(nia) ltac:(nia) Hpixel).
    apply pixel_classifies in Hpixel; [|exact budget|exact never_cancelled].
    assert (Hnext : counted (incr_currentPoint st1) (done + 1))
      by (apply (counted_step st st1 done);
          [lia|nia|exact Hst|exact Hpixel]).
    apply (IH _ _ _ (done + 1)%Z) in Hrun.
    + replace (done + Z.of_nat (S count))%Z
        with (done + 1 + Z.of_nat count)%Z by lia.
      exact Hrun.
    + lia.
    + lia.
    + exact Hnext.
    + cbn [incr_currentPoint skipped run].
      destruct Hcost as [[Hs Hr] | [Hs Hr]]; rewrite Hs.
      * rewrite u64_small by lia. rewrite Hr. nia.
      * nia.
Qed.

Lemma rows_passes (count : nat) :
  forall (pY : Z) (st st' : RenderState) (done : Z),
    (0 <= done)%Z ->
    (done + Z.of_nat count * width_px <= width_px * height_px)%Z ->
    counted st done ->
    (done - skipped st <= run st
     <= (done - skipped st) * (max_iterations + 1))%Z ->
    rows count pY st = Val st' ->
    counted st' (done + Z.of_nat count * width_px)
    /\ (done + Z.of_nat count * width_px - skipped st' <= run st'
        <= (done + Z.of_nat count * width_px - skipped st')
           * (max_iterations + 1))%Z.
Proof.
  induction count as [|count IH];
    intros pY st st' done Hdone Hroom Hst Hpasses Hrun.
  - injection Hrun as <-. rewrite Z.mul_0_l, Z.add_0_r. split; assumption.
  - cbn [row_loop] in Hrun.
    destruct (columns (Z.to_nat width_px) 0 pY st) as [st1|msg|] eqn:Hrow;
      cbn [bind] in Hrun; try discriminate Hrun.
    apply (columns_passes pY _ _ _ _ done) in Hrow;
      [|lia|rewrite Z2Nat.id by lia; nia|exact Hst|exact Hpasses].
    rewrite Z2Nat.id in Hrow by lia. destruct Hrow as [Hst1 Hpasses1].
    apply (IH _ _ _ (done + width_px)%Z) in Hrun;
      [|lia|nia|exact Hst1|exact Hpasses1].
    replace (done + Z.of_nat (S count) * width_px)%Z
      with (done + width_px + Z.of_nat count * width_px)%Z by nia.
    exact Hrun.
Qed.

(** In a render that is not cancelled, where the counter of passes cannot
    wrap, every pixel that is not skipped costs at least one pass of the
    iteration loop and at most max_iterations + 1: the "i" the program
    prints lies between the number of pixels not skipped and that number
    times max_iterations + 1. *)
Theorem run_bounds (r : RenderResult) :
  createFractal fractal_opt color_opt rand_after_srand fuel width_px
    height_px max_iterations pCheckN env = Val r ->
  (width_px * height_px - skipped (final r) <= run (final r)
   <= (width_px * height_px - skipped (final r)) * (max_iterations + 1))%Z.
Proof.
  intros Hrender. unfold createFractal in Hrender.
  destruct (rows (Z.to_nat height_px) 0 (initial_state pCheckN env))
    as [st|msg|] eqn:Hrows; cbn [bind ret] in Hrender;
    try discriminate Hrender.
  injection Hrender as <-. cbn [final].
  apply (rows_passes _ _ _ _ 0%Z) in Hrows.
  - rewrite Z2Nat.id, Z.add_0_l, (Z.mul_comm height_px) in Hrows by lia.
    apply Hrows.
  - lia.
  - rewrite Z2Nat.id by lia. lia.
  - unfold counted, classified_total, initial_state. cbn. repeat split; lia.
  - unfold initial_state. cbn. lia.
Qed.

End RunFacts.

(** The default render of 2 by 2 pixels with 50 iterations. *)
Lemma run_bounds_witness :
  exists r,
    createFractal default_fractal default_color rand_model 0 2 2 50 1 quiet
    = Val r
    /\ (2 * 2 - skipped (final r) <= run (final r)
        <= (2 * 2 - skipped (final r)) * (50 + 1))%Z.
Proof.
  assert (Hdim : (0 <= 2 < 2 ^ 32)%Z) by lia.
  assert (Hbudget : (0 <= 50)%Z) by lia.
  assert (Hfits : (2 * 2 * (50 + 1) < 2 ^ 64)%Z) by lia.
  destruct (createFractal default_fractal default_color rand_model 0
              2 2 50 1 quiet) as [r|msg|] eqn:Hrender.
  - exists r. split; [reflexivity|].
    apply (run_bounds default_fractal default_color rand_model 0%nat
             2 2 50 1 quiet Hdim Hdim Hbudget (fun _ => eq_refl) Hfits r
             Hrender).
  - vm_compute in Hrender. discriminate Hrender.
  - vm_compute in Hrender. discriminate Hrender.
Defined.

(** ** The additional properties on exact numbers *)

(** The bounds on the default render of a 2 by 2 raster. *)
Lemma statistics_bounds_witness :
  exists r,
    createFractal default_fractal default_color rand_model 0 2 2 50 1 quiet
    = Val r
    /\ List.length (pCheck (final r)) = Z.to_nat 1
    /\ (0 <= max_n (final r) <= 50)%Z
    /\ (0 <= max_period (final r) <= Z.max 0 1)%Z
    /\ (0 <= max_period_n (final r) <= Z.max 0 (50 - 1))%Z.
Proof.
  assert (Hbudget : (0 <= 50)%Z) by lia.
  destruct (createFractal default_fractal default_color rand_model 0
              2 2 50 1 quiet) as [r|msg|] eqn:Hrender.
  - exists r. split; [reflexivity|].
    apply (statistics_bounds default_fractal default_color rand_model 0%nat
             2 2 50 1 quiet r Hbudget Hrender).
  - vm_compute in Hrender. discriminate Hrender.
  - vm_compute in Hrender. discriminate Hrender.
Defined.

(** A single-mode render: nothing is skipped, periodic or bounded. *)
Lemma mode_counters_witness :
  exists r,
    createFractal single_fractal default_color rand_model 0 2 2 3 1 quiet
    = Val r
    /\ skipped (final r) = 0%Z /\ periodic (final r) = 0%Z
    /\ not_escaped (final r) = 0%Z.
Proof.
  assert (Hbudget : (0 <= 3)%Z) by lia.
  destruct (createFractal single_fractal default_color rand_model 0
              2 2 3 1 quiet) as [r|msg|] eqn:Hrender.
  - exists r. split; [reflexivity|].
    destruct (mode_counters single_fractal default_color rand_model 0%nat
                2 2 3 1 quiet r Hbudget Hrender)
      as (Hskipped & Hperiodic & Hbounded).
    split; [apply Hskipped; left; reflexivity|].
    split; [apply Hperiodic; left; reflexivity|].
    apply Hbounded. reflexivity.
  - vm_compute in Hrender. discriminate Hrender.
  - vm_compute in Hrender. discriminate Hrender.
Defined.

(** On the slow clock every pixel reports progress, two seconds apart. *)
Lemma progress_rate_witness :
  exists r,
    createFractal default_fractal default_color rand_model 0 2 2 50 1 slow
    = Val r
    /\ (1000000000 * Z.of_nat (List.length (progress (final r)))
        <= duration r)%Z.
Proof.
  assert (Hbudget : (0 <= 50)%Z) by lia.
  assert (Hclock : forall k, (now slow k <= now slow (S k))%Z)
    by (intros k; cbn [now slow]; lia).
  destruct (createFractal default_fractal default_color rand_model 0
              2 2 50 1 slow) as [r|msg|] eqn:Hrender.
  - exists r. split; [reflexivity|].
    apply (progress_rate default_fractal default_color rand_model 0%nat
             2 2 50 1 slow r Hclock Hbudget Hrender).
  - vm_compute in Hrender. discriminate Hrender.
  - vm_compute in Hrender. discriminate Hrender.
Defined.

(** The raster of the default render of 2 by 2 pixels. *)
Lemma raster_writes_witness :
  exists r,
    createFractal default_fractal default_color rand_model 0 2 2 50 1 quiet
    = Val r
    /\ (forall x y px,
          In (x, y, px) (image (final r)) ->
          (0 <= x < 2)%Z /\ (0 <= y < 2)%Z)
    /\ NoDup (List.map fst (image (final r)))
    /\ escaped (final r) = Z.of_nat (List.length (image (final r))).
Proof.
  assert (Hdim : (0 <= 2 < 2 ^ 32)%Z) by lia.
  destruct (createFractal default_fractal default_color rand_model 0
              2 2 50 1 quiet) as [r|msg|] eqn:Hrender.
  - exists r. split; [reflexivity|].
    apply (raster_writes default_fractal default_color rand_model 0%nat
             2 2 50 1 quiet Hdim Hdim r Hrender).
  - vm_compute in Hrender. discriminate Hrender.
  - vm_compute in Hrender. discriminate Hrender.
Defined.

(** Single mode at c = 1 with three iterations: the orbit 0, 1, 2, 5 is
    followed to its end although 5 is far beyond the limit, and the pixel
    is coloured for n = 3. *)
Lemma single_mode_loop_witness :
  let st := initial_state 1 quiet in
  let c := cplx (xlit 1) (xlit 0) in
  iteration_loop single_fractal default_color rand_model 0 3 1 quiet
    (S (Z.to_nat 3)) 0 0 0 kompleks_zero c st
  = Val (record_escaped 0 0 3 (mk_pixel 6 3 1)
           (incr_run
              (running single_fractal 1 quiet st
                 (mk_orbit kompleks_zero c (pCheck st)) 3))).
Proof.
  intros st c.
  assert (Hbudget : (0 <= 3)%Z) by lia.
  rewrite (single_mode_loop single_fractal default_color rand_model 0%nat
             3 1 quiet eq_refl (fun _ => eq_refl) Hbudget 0 0
             kompleks_zero c st).
  vm_compute. reflexivity.
Defined.

(** A single-mode render of 2 by 2 pixels with three iterations. *)
Lemma single_mode_render_witness :
  exists r,
    createFractal single_fractal default_color rand_model 0 2 2 3 1 quiet
    = Val r
    /\ escaped (final r) = 4%Z /\ run (final r) = 16%Z
    /\ max_n (final r) = 3%Z.
Proof.
  assert (Hdim : (0 <= 2 < 2 ^ 32)%Z) by lia.
  assert (Hbudget : (0 <= 3)%Z) by lia.
  destruct (createFractal single_fractal default_color rand_model 0
              2 2 3 1 quiet) as [r|msg|] eqn:Hrender.
  - exists r. split; [reflexivity|].
    apply (single_mode_render single_fractal default_color rand_model
             0%nat 2 2 3 1 quiet eq_refl (fun _ => eq_refl) Hbudget Hdim
             Hdim r Hrender).
  - vm_compute in Hrender. discriminate Hrender.
  - vm_compute in Hrender. discriminate Hrender.
Defined.

(** The flag set at its fourth read and left set. *)
Lemma cancelled_statistics_witness :
  exists r,
    createFractal default_fractal default_color rand_model 0 2 2 50 1
      (interrupted_after 3) = Val r
    /\ (0 <= currentPoint (final r) <= classified_total (final r))%Z
    /\ (classified_total (final r) <= 2 * 2)%Z.
Proof.
  assert (Hdim : (0 <= 2 < 2 ^ 32)%Z) by lia.
  assert (Hbudget : (0 <= 50)%Z) by lia.
  assert (Hflag : forall k, cancel (interrupted_after 3) k = true ->
                            cancel (interrupted_after 3) (S k) = true).
  { intros k. cbn [cancel interrupted_after]. intros Hk.
    apply Nat.leb_le in Hk. apply Nat.leb_le. lia. }
  destruct (createFractal default_fractal default_color rand_model 0
              2 2 50 1 (interrupted_after 3)) as [r|msg|] eqn:Hrender.
  - exists r. split; [reflexivity|].
    destruct (cancelled_statistics default_fractal default_color rand_model
                0%nat 2 2 50 1 (interrupted_after 3) Hdim Hdim Hbudget
                Hflag r Hrender) as (Hpoint & Htotal & _).
    split; [exact Hpoint|exact Htotal].
  - vm_compute in Hrender. discriminate Hrender.
  - vm_compute in Hrender. discriminate Hrender.
Defined.

(** The flag set from the start, two rows: both are started. *)
Lemma cancelled_at_once_witness :
  exists r,
    createFractal inner_fractal default_color rand_model 0 2 2 50 1
      (interrupted_after 0) = Val r
    /\ ticks (final r) = S (Z.to_nat 2)
    /\ currentPoint (final r) = 0%Z
    /\ (0 <= classified_total (final r) <= 2)%Z
    /\ marked_partial r = true.
Proof.
  assert (Hwidth : (0 < 2)%Z) by lia.
  assert (Hdim : (0 <= 2 < 2 ^ 32)%Z) by lia.
  assert (Hbudget : (0 <= 50)%Z) by lia.
  destruct (createFractal inner_fractal default_color rand_model 0
              2 2 50 1 (interrupted_after 0)) as [r|msg|] eqn:Hrender.
  - exists r. split; [reflexivity|].
    apply (cancelled_at_once inner_fractal default_color rand_model 0%nat
             2 2 50 1 (interrupted_after 0) Hwidth Hdim Hbudget
             (fun _ => eq_refl) r Hrender).
  - vm_compute in Hrender. discriminate Hrender.
  - vm_compute in Hrender. discriminate Hrender.
Defined.
